(** * MemeTrader decision pipeline: a shallow embedding and its properties

    The Python sources under [app/] are embedded function by function,
    under the names they have in the source.

    - Python [float] is IEEE binary64, modelled by Rocq's primitive floats
      ([PrimFloat]); Python [int] is unbounded, modelled by [Z].
    - A raised exception is the [None] of an [option] result; a function
      that cannot raise returns its value directly.
    - The configuration dictionary is a record of optional sections whose
      fields are optional: an absent key is [None] and every read site
      supplies the default the source passes to [dict.get].  A numeric
      setting has the type of the conversion its read sites apply
      ([float(...)] or [int(...)]).
    - The feature dictionary of a snapshot and a trade record are
      [gmap string PyVal].
    - [TokenState] and the entries of a tick's proposal list are mutated
      in place by the source; here every function that writes to them
      returns the updated value, and an entry shared between two lists is
      identified by its position in the proposal list.
    - Functions of the Python standard library: [statistics.mean] and
      [math.log1p] are parameters; [sorted] and [list.sort] are stable
      insertion sorts, which give Python's result whenever no NaN is
      compared; [statistics.median], [round], [int], [max], [min] and
      slicing are written out.
    - [float(n)] of an integer [n] raises [OverflowError] beyond the
      binary64 range.  [float_of_value] keeps that error and is what the
      backtest metrics use; [py_float] converts such an integer to an
      infinity and is used for feature values, and a statement that
      asserts an outcome on values read through it says when they are
      required to convert. *)

From Stdlib Require Import ZArith Floats Lia.
From stdpp Require Import gmap strings list sorting.

Set Warnings "-inexact-float".
Local Open Scope string_scope.
Local Open Scope list_scope.
Local Open Scope Z_scope.

(** ** Python numeric primitives *)

Module Py.

(** [max(a, b)]: the first argument is kept unless the second is strictly
    greater. *)
Definition max2 (a b : float) : float := if (a <? b)%float then b else a.

(** [min(a, b)]: the first argument is kept unless the second is strictly
    smaller. *)
Definition min2 (a b : float) : float := if (b <? a)%float then b else a.

(** [max(xs)] and [min(xs)] over a non-empty list. *)
Definition max_list (x : float) (xs : list float) : float := fold_left max2 xs x.
Definition min_list (x : float) (xs : list float) : float := fold_left min2 xs x.

(** [a / b] raises [ZeroDivisionError] when [b == 0]. *)
Definition div (a b : float) : option float :=
  if (b =? 0)%float then None else Some (a / b)%float.

(** Truth value of a float: [x != 0.0] (a NaN is true). *)
Definition truthy (x : float) : bool := negb (x =? 0)%float.

(** [int(x)] on a float truncates toward zero and raises on NaN and on
    the infinities. *)
Definition int_of_float (x : float) : option Z :=
  match Prim2SF x with
  | S754_zero _ => Some 0
  | S754_finite s m e =>
      let n := Z.shiftl (Z.pos m) e in Some (if s then - n else n)
  | S754_infinity _ | S754_nan => None
  end.

(** Round half to even of [m * 2^e] for a positive [m]. *)
Definition round_half_even_pos (m : positive) (e : Z) : Z :=
  if 0 <=? e then Z.shiftl (Z.pos m) e
  else
    let k := - e in
    let q := Z.shiftr (Z.pos m) k in
    let r := Z.land (Z.pos m) (Z.ones k) in
    let half := Z.shiftl 1 (k - 1) in
    if (half <? r) || ((r =? half) && Z.odd q) then q + 1 else q.

(** [round(x)] with one argument: the nearest integer, ties to even;
    raises on NaN and on the infinities. *)
Definition round (x : float) : option Z :=
  match Prim2SF x with
  | S754_zero _ => Some 0
  | S754_finite s m e =>
      let n := round_half_even_pos m e in Some (if s then - n else n)
  | S754_infinity _ | S754_nan => None
  end.

(** The binary64 value nearest to an integer, ties to even: [float(n)]
    wherever Python defines it, that is for [|n| < 2^1024 - 2^970].
    Beyond, where [float(n)] raises [OverflowError], this is an infinity;
    [float_of_int] keeps the error. *)
Definition float_of_Z (n : Z) : float :=
  SF2Prim (binary_normalize prec emax n 0 false).

(** [float(n)] for an integer, with its error: [OverflowError] when the
    nearest binary64 value would be an infinity. *)
Definition float_of_int (n : Z) : option float :=
  let x := float_of_Z n in
  if is_infinity x then None else Some x.

(** [float("inf")]. *)
Definition inf : float := infinity.

End Py.

(** Values stored in feature dictionaries: booleans, integers and floats. *)
Inductive PyVal : Type :=
| VBool (b : bool)
| VInt (n : Z)
| VFloat (x : float).

(** [bool(v)]. *)
Definition py_bool (v : PyVal) : bool :=
  match v with
  | VBool b => b
  | VInt n => negb (n =? 0)
  | VFloat x => Py.truthy x
  end.

(** [float(v)] wherever the conversion is defined.  An integer beyond
    the binary64 range, for which [float] raises [OverflowError], is sent
    to an infinity; the feature values read through this function are
    floats, booleans and small counts.  [float_of_value] keeps the
    error. *)
Definition py_float (v : PyVal) : float :=
  match v with
  | VBool b => if b then 1%float else 0%float
  | VInt n => Py.float_of_Z n
  | VFloat x => x
  end.

(** [float(v)] with its error: [OverflowError] for an integer beyond the
    binary64 range. *)
Definition float_of_value (v : PyVal) : option float :=
  match v with
  | VBool b => Some (if b then 1%float else 0%float)
  | VInt n => Py.float_of_int n
  | VFloat x => Some x
  end.

(** [bool(d.get(k))] and [bool(d.get(k, False))]: an absent key is false. *)
Definition get_flag (d : gmap string PyVal) (k : string) : bool :=
  match d !! k with Some v => py_bool v | None => false end.

(** [float(d.get(k, dflt))]. *)
Definition get_float (d : gmap string PyVal) (k : string) (dflt : float) : float :=
  match d !! k with Some v => py_float v | None => dflt end.

(** ** Configuration *)

Record PositioningCfg := {
  capital_usd : option float;
  probe_pct : option float;
  add_pct : option float;
  tp1_scale_out_pct : option float;
  tp2_scale_out_pct : option float }.

Record EngineCfg := {
  cooldown_candles : option Z;
  poll_interval_sec : option Z }.

Record ProgressCfg := {
  min_move_pct : option float;
  max_wait_candles : option Z;
  breakeven_after_progress : option bool;
  trail_after_progress : option bool;
  trail_lookback_lows : option Z }.

Record RulesCfg := {
  progress : option ProgressCfg;
  confirm_min_close_above_pct : option float;
  confirm_max_retrace_pct : option float;
  add_trigger_up_pct : option float;
  time_stop_candles : option Z;
  top_n_per_tick : option Z;
  min_candidates_before_rank : option Z;
  momentum_lookback : option Z }.

Record RiskCfg := {
  min_liquidity_usd : option float;
  max_slippage_bps : option Z }.

Record ReentryCfg := {
  lockout_candles : option Z;
  min_breakout_pct : option float;
  candle_seconds : option Z;
  vol_mult_unlock : option float }.

Record StopsCfg := { stop_buffer_pct : option float }.

Record BreakoutCfg := {
  chain_override_score_bonus : option float;
  weak_breakout_score_penalty : option float }.

Record Config := {
  positioning : option PositioningCfg;
  engine : option EngineCfg;
  rules : option RulesCfg;
  risk : option RiskCfg;
  reentry : option ReentryCfg;
  stops : option StopsCfg;
  breakout : option BreakoutCfg }.

(** The empty dictionaries that [cfg.get(section, {})] falls back to. *)
Definition no_positioning : PositioningCfg := Build_PositioningCfg None None None None None.
Definition no_engine : EngineCfg := Build_EngineCfg None None.
Definition no_progress : ProgressCfg := Build_ProgressCfg None None None None None.
Definition no_rules : RulesCfg := Build_RulesCfg None None None None None None None None.
Definition no_risk : RiskCfg := Build_RiskCfg None None.
Definition no_reentry : ReentryCfg := Build_ReentryCfg None None None None.
Definition no_stops : StopsCfg := Build_StopsCfg None.
Definition no_breakout : BreakoutCfg := Build_BreakoutCfg None None.
Definition empty_config : Config := Build_Config None None None None None None None.

Definition positioning_of (cfg : Config) : PositioningCfg := default no_positioning (positioning cfg).
Definition engine_of (cfg : Config) : EngineCfg := default no_engine (engine cfg).
Definition rules_of (cfg : Config) : RulesCfg := default no_rules (rules cfg).
Definition risk_of (cfg : Config) : RiskCfg := default no_risk (risk cfg).
Definition reentry_of (cfg : Config) : ReentryCfg := default no_reentry (reentry cfg).
Definition stops_of (cfg : Config) : StopsCfg := default no_stops (stops cfg).
Definition breakout_of (cfg : Config) : BreakoutCfg := default no_breakout (breakout cfg).
Definition progress_of (r : RulesCfg) : ProgressCfg := default no_progress (progress r).

(** A dictionary is false exactly when it has no key. *)
Definition config_is_empty (cfg : Config) : bool :=
  match cfg with
  | Build_Config None None None None None None None => true
  | _ => false
  end.

(** ** Market data (app/data/mock_schemas.py) *)

Record Candle := { t : Z; o : float; h : float; l : float; c : float; v : float }.

Record PairStats := {
  pair_id : string;
  token_mint : string;
  price_usd : float;
  liquidity_usd : float;
  volume_5m : float;
  txns_5m : Z }.

Record Zone := { low : float; high : float; strength : Z }.

Record Snapshot := {
  pair : PairStats;
  candles : list Candle;
  support_zones : list Zone;
  resistance_zones : list Zone;
  features : gmap string PyVal;
  regime_score : Z;
  now_ts : Z;
  candle_index : option Z;
  last_close : float;
  last_low : float;
  last_high : float;
  resistance_levels : list Zone;
  support_level : option Zone }.

(** ** Token state machine (app/orchestrator/state_machine.py) *)

Definition STATE_SCOUT : string := "SCOUT".
Definition STATE_PROBE : string := "PROBE".
Definition STATE_TRADE : string := "TRADE".
Definition STATE_COOLDOWN : string := "COOLDOWN".

Record TokenState := {
  status : string;
  probe_entry_price : option float;
  probe_entry_low : option float;
  add_entry_price : option float;
  position_usd : float;
  time_in_trade : Z;
  cooldown_left : Z;
  scale_out_stage : Z;
  last_exit_ts : option Z;
  last_exit_price : option float;
  last_exit_index : option Z;
  entry_index : option Z;
  last_exit_was_stop : bool;
  pending_breakout_index : option Z;
  pending_breakout_level : option float;
  pending_breakout_expires_index : option Z;
  entry_price : option float;
  max_favorable_price : option float;
  progress_hit : bool;
  progress_deadline_index : option Z }.

(** [TokenState()]: the dataclass defaults. *)
Definition initial_state : TokenState :=
  {| status := STATE_SCOUT; probe_entry_price := None; probe_entry_low := None;
     add_entry_price := None; position_usd := 0%float; time_in_trade := 0;
     cooldown_left := 0; scale_out_stage := 0; last_exit_ts := None;
     last_exit_price := None; last_exit_index := None; entry_index := None;
     last_exit_was_stop := false; pending_breakout_index := None;
     pending_breakout_level := None; pending_breakout_expires_index := None;
     entry_price := None; max_favorable_price := None; progress_hit := false;
     progress_deadline_index := None |}.

(** Attribute assignment [state.f = x], one setter per field. *)
Definition set_status (x : string) (s : TokenState) : TokenState :=
  let '(Build_TokenState a0 a1 a2 a3 a4 a5 a6 a7 a8 a9 a10 a11 a12 a13 a14 a15 a16 a17 a18 a19) := s in
  Build_TokenState x a1 a2 a3 a4 a5 a6 a7 a8 a9 a10 a11 a12 a13 a14 a15 a16 a17 a18 a19.
Definition set_probe_entry_price (x : option float) (s : TokenState) : TokenState :=
  let '(Build_TokenState a0 a1 a2 a3 a4 a5 a6 a7 a8 a9 a10 a11 a12 a13 a14 a15 a16 a17 a18 a19) := s in
  Build_TokenState a0 x a2 a3 a4 a5 a6 a7 a8 a9 a10 a11 a12 a13 a14 a15 a16 a17 a18 a19.
Definition set_probe_entry_low (x : option float) (s : TokenState) : TokenState :=
  let '(Build_TokenState a0 a1 a2 a3 a4 a5 a6 a7 a8 a9 a10 a11 a12 a13 a14 a15 a16 a17 a18 a19) := s in
  Build_TokenState a0 a1 x a3 a4 a5 a6 a7 a8 a9 a10 a11 a12 a13 a14 a15 a16 a17 a18 a19.
Definition set_add_entry_price (x : option float) (s : TokenState) : TokenState :=
  let '(Build_TokenState a0 a1 a2 a3 a4 a5 a6 a7 a8 a9 a10 a11 a12 a13 a14 a15 a16 a17 a18 a19) := s in
  Build_TokenState a0 a1 a2 x a4 a5 a6 a7 a8 a9 a10 a11 a12 a13 a14 a15 a16 a17 a18 a19.
Definition set_position_usd (x : float) (s : TokenState) : TokenState :=
  let '(Build_TokenState a0 a1 a2 a3 a4 a5 a6 a7 a8 a9 a10 a11 a12 a13 a14 a15 a16 a17 a18 a19) := s in
  Build_TokenState a0 a1 a2 a3 x a5 a6 a7 a8 a9 a10 a11 a12 a13 a14 a15 a16 a17 a18 a19.
Definition set_time_in_trade (x : Z) (s : TokenState) : TokenState :=
  let '(Build_TokenState a0 a1 a2 a3 a4 a5 a6 a7 a8 a9 a10 a11 a12 a13 a14 a15 a16 a17 a18 a19) := s in
  Build_TokenState a0 a1 a2 a3 a4 x a6 a7 a8 a9 a10 a11 a12 a13 a14 a15 a16 a17 a18 a19.
Definition set_cooldown_left (x : Z) (s : TokenState) : TokenState :=
  let '(Build_TokenState a0 a1 a2 a3 a4 a5 a6 a7 a8 a9 a10 a11 a12 a13 a14 a15 a16 a17 a18 a19) := s in
  Build_TokenState a0 a1 a2 a3 a4 a5 x a7 a8 a9 a10 a11 a12 a13 a14 a15 a16 a17 a18 a19.
Definition set_scale_out_stage (x : Z) (s : TokenState) : TokenState :=
  let '(Build_TokenState a0 a1 a2 a3 a4 a5 a6 a7 a8 a9 a10 a11 a12 a13 a14 a15 a16 a17 a18 a19) := s in
  Build_TokenState a0 a1 a2 a3 a4 a5 a6 x a8 a9 a10 a11 a12 a13 a14 a15 a16 a17 a18 a19.
Definition set_last_exit_ts (x : option Z) (s : TokenState) : TokenState :=
  let '(Build_TokenState a0 a1 a2 a3 a4 a5 a6 a7 a8 a9 a10 a11 a12 a13 a14 a15 a16 a17 a18 a19) := s in
  Build_TokenState a0 a1 a2 a3 a4 a5 a6 a7 x a9 a10 a11 a12 a13 a14 a15 a16 a17 a18 a19.
Definition set_last_exit_price (x : option float) (s : TokenState) : TokenState :=
  let '(Build_TokenState a0 a1 a2 a3 a4 a5 a6 a7 a8 a9 a10 a11 a12 a13 a14 a15 a16 a17 a18 a19) := s in
  Build_TokenState a0 a1 a2 a3 a4 a5 a6 a7 a8 x a10 a11 a12 a13 a14 a15 a16 a17 a18 a19.
Definition set_last_exit_index (x : option Z) (s : TokenState) : TokenState :=
  let '(Build_TokenState a0 a1 a2 a3 a4 a5 a6 a7 a8 a9 a10 a11 a12 a13 a14 a15 a16 a17 a18 a19) := s in
  Build_TokenState a0 a1 a2 a3 a4 a5 a6 a7 a8 a9 x a11 a12 a13 a14 a15 a16 a17 a18 a19.
Definition set_entry_index (x : option Z) (s : TokenState) : TokenState :=
  let '(Build_TokenState a0 a1 a2 a3 a4 a5 a6 a7 a8 a9 a10 a11 a12 a13 a14 a15 a16 a17 a18 a19) := s in
  Build_TokenState a0 a1 a2 a3 a4 a5 a6 a7 a8 a9 a10 x a12 a13 a14 a15 a16 a17 a18 a19.
Definition set_last_exit_was_stop (x : bool) (s : TokenState) : TokenState :=
  let '(Build_TokenState a0 a1 a2 a3 a4 a5 a6 a7 a8 a9 a10 a11 a12 a13 a14 a15 a16 a17 a18 a19) := s in
  Build_TokenState a0 a1 a2 a3 a4 a5 a6 a7 a8 a9 a10 a11 x a13 a14 a15 a16 a17 a18 a19.
Definition set_pending_breakout_index (x : option Z) (s : TokenState) : TokenState :=
  let '(Build_TokenState a0 a1 a2 a3 a4 a5 a6 a7 a8 a9 a10 a11 a12 a13 a14 a15 a16 a17 a18 a19) := s in
  Build_TokenState a0 a1 a2 a3 a4 a5 a6 a7 a8 a9 a10 a11 a12 x a14 a15 a16 a17 a18 a19.
Definition set_pending_breakout_level (x : option float) (s : TokenState) : TokenState :=
  let '(Build_TokenState a0 a1 a2 a3 a4 a5 a6 a7 a8 a9 a10 a11 a12 a13 a14 a15 a16 a17 a18 a19) := s in
  Build_TokenState a0 a1 a2 a3 a4 a5 a6 a7 a8 a9 a10 a11 a12 a13 x a15 a16 a17 a18 a19.
Definition set_pending_breakout_expires_index (x : option Z) (s : TokenState) : TokenState :=
  let '(Build_TokenState a0 a1 a2 a3 a4 a5 a6 a7 a8 a9 a10 a11 a12 a13 a14 a15 a16 a17 a18 a19) := s in
  Build_TokenState a0 a1 a2 a3 a4 a5 a6 a7 a8 a9 a10 a11 a12 a13 a14 x a16 a17 a18 a19.
Definition set_entry_price (x : option float) (s : TokenState) : TokenState :=
  let '(Build_TokenState a0 a1 a2 a3 a4 a5 a6 a7 a8 a9 a10 a11 a12 a13 a14 a15 a16 a17 a18 a19) := s in
  Build_TokenState a0 a1 a2 a3 a4 a5 a6 a7 a8 a9 a10 a11 a12 a13 a14 a15 x a17 a18 a19.
Definition set_max_favorable_price (x : option float) (s : TokenState) : TokenState :=
  let '(Build_TokenState a0 a1 a2 a3 a4 a5 a6 a7 a8 a9 a10 a11 a12 a13 a14 a15 a16 a17 a18 a19) := s in
  Build_TokenState a0 a1 a2 a3 a4 a5 a6 a7 a8 a9 a10 a11 a12 a13 a14 a15 a16 x a18 a19.
Definition set_progress_hit (x : bool) (s : TokenState) : TokenState :=
  let '(Build_TokenState a0 a1 a2 a3 a4 a5 a6 a7 a8 a9 a10 a11 a12 a13 a14 a15 a16 a17 a18 a19) := s in
  Build_TokenState a0 a1 a2 a3 a4 a5 a6 a7 a8 a9 a10 a11 a12 a13 a14 a15 a16 a17 x a19.
Definition set_progress_deadline_index (x : option Z) (s : TokenState) : TokenState :=
  let '(Build_TokenState a0 a1 a2 a3 a4 a5 a6 a7 a8 a9 a10 a11 a12 a13 a14 a15 a16 a17 a18 a19) := s in
  Build_TokenState a0 a1 a2 a3 a4 a5 a6 a7 a8 a9 a10 a11 a12 a13 a14 a15 a16 a17 a18 x.

(** [infer_interval_sec]: the median of the positive timestamp steps, 60
    when there is none.  [statistics.median] of integers sorts them and
    takes the middle one, or the mean [(a + b) / 2] of the two middle
    ones, a float that [int] then truncates.  For [a + b < 2^53] the
    float is exact and its truncation is the integer quotient taken here;
    beyond, Python rounds the mean to 53 bits, and from [2^1024] on the
    division raises [OverflowError].  Timestamps in seconds, milliseconds
    or microseconds are far below [2^52]. *)
Fixpoint insert_Z (x : Z) (xs : list Z) : list Z :=
  match xs with
  | [] => [x]
  | y :: ys => if x <=? y then x :: xs else y :: insert_Z x ys
  end.

Definition sorted_Z (xs : list Z) : list Z := foldr insert_Z [] xs.

Definition median_Z (xs : list Z) : Z :=
  let data := sorted_Z xs in
  let n := length data in
  if Nat.odd n then nth (n / 2)%nat data 0
  else Z.quot (nth (n / 2 - 1)%nat data 0 + nth (n / 2)%nat data 0) 2.

Fixpoint positive_diffs (cs : list Candle) : list Z :=
  match cs with
  | c0 :: ((c1 :: _) as rest) =>
      let diff := t c1 - t c0 in
      if 0 <? diff then diff :: positive_diffs rest else positive_diffs rest
  | _ => []
  end.

Definition infer_interval_sec (cs : list Candle) : Z :=
  match positive_diffs cs with
  | [] => 60
  | diffs => median_Z diffs
  end.

Definition _lockout_candles (cfg : Config) (last_exit_was_stop : bool) : Z :=
  let lockout := default 0 (lockout_candles (reentry_of cfg)) in
  if last_exit_was_stop then lockout * 3 else lockout.

Definition _lockout_expired (now_ts : Z) (last_exit_ts now_index last_exit_index : option Z)
    (cfg : Config) (interval_sec : Z) (last_exit_was_stop : bool) : bool :=
  let lockout_candles := _lockout_candles cfg last_exit_was_stop in
  if lockout_candles <=? 0 then true
  else
    match now_index, last_exit_index with
    | Some ni, Some li => lockout_candles <=? ni - li
    | _, _ =>
        match last_exit_ts with
        | None => true
        | Some lt => lt + lockout_candles * interval_sec <=? now_ts
        end
    end.

Definition update_reentry_lockout (state : TokenState) (now_ts : Z) (cfg : Config)
    (interval_sec : Z) (now_index : option Z) : TokenState :=
  if negb (last_exit_was_stop state) then state
  else if _lockout_expired now_ts (last_exit_ts state) now_index (last_exit_index state)
            cfg interval_sec true
  then set_last_exit_was_stop false state
  else state.

Definition clear_pending_breakout (state : TokenState) : TokenState :=
  let state := set_pending_breakout_index None state in
  let state := set_pending_breakout_level None state in
  set_pending_breakout_expires_index None state.

(** [can_reenter].  The keyword [interval_sec] is optional: [None] and [0]
    are both false and select the configured [candle_seconds]. *)
Definition can_reenter (now_ts : Z) (last_exit_ts last_exit_index : option Z)
    (last_exit_price : option float) (current_close : float) (cfg : Config)
    (vol_ok last_exit_was_stop : bool) (interval_sec now_index : option Z) : bool :=
  match last_exit_price with
  | None => true
  | Some exit_price =>
      match last_exit_ts, last_exit_index with
      | None, None => true
      | _, _ =>
          let reentry_cfg := reentry_of cfg in
          let lockout_candles := _lockout_candles cfg last_exit_was_stop in
          let min_breakout := default 0%float (min_breakout_pct reentry_cfg) in
          let candle_seconds :=
            match interval_sec with
            | Some i => if i =? 0 then default 60 (candle_seconds reentry_cfg) else i
            | None => default 60 (candle_seconds reentry_cfg)
            end in
          if lockout_candles <=? 0 then true
          else
            match now_index, last_exit_index with
            | Some ni, Some li =>
                if ni - li <? lockout_candles then
                  if (exit_price * (1 + min_breakout) <=? current_close)%float then true
                  else if vol_ok then true
                  else false
                else true
            | _, _ =>
                match last_exit_ts with
                | None => true
                | Some lt =>
                    let lockout_until := lt + lockout_candles * candle_seconds in
                    if now_ts <? lockout_until then
                      if (exit_price * (1 + min_breakout) <=? current_close)%float then true
                      else if vol_ok then true
                      else false
                    else true
                end
            end
      end
  end.

Definition advance_time (state : TokenState) : TokenState :=
  let state :=
    if String.eqb (status state) STATE_PROBE || String.eqb (status state) STATE_TRADE
    then set_time_in_trade (time_in_trade state + 1) state
    else state in
  if String.eqb (status state) STATE_COOLDOWN && (0 <? cooldown_left state) then
    let state := set_cooldown_left (cooldown_left state - 1) state in
    if cooldown_left state <=? 0 then
      let state := set_status STATE_SCOUT state in
      set_cooldown_left 0 state
    else state
  else state.

(** ** Action proposals (app/policies/base.py) *)

Definition ACTION_HOLD : string := "HOLD".
Definition ACTION_PROBE_BUY : string := "PROBE_BUY".
Definition ACTION_ADD_BUY : string := "ADD_BUY".
Definition ACTION_SCALE_OUT_20 : string := "SCALE_OUT_20".
Definition ACTION_EXIT_FULL : string := "EXIT_FULL".

Record ActionProposal := {
  action : string;
  reason_codes : list string;
  guards : gmap string Z;
  expires_at : option Z }.

(** [x in xs] for a list of strings. *)
Definition str_in (x : string) (xs : list string) : bool := existsb (String.eqb x) xs.

(** [apply_action].  [config or get_config()] takes the process-wide
    configuration when the argument is [None] or an empty dictionary;
    [get_config] stands for the value that call returns. *)
Definition apply_action (get_config : Config) (state : TokenState) (action : string)
    (snapshot : Snapshot) (config : option Config)
    (exit_reason_codes : option (list string)) : TokenState :=
  let cfg :=
    match config with
    | Some c => if config_is_empty c then get_config else c
    | None => get_config
    end in
  let positioning := positioning_of cfg in
  let engine_cfg := engine_of cfg in
  let progress_cfg := progress_of (rules_of cfg) in
  if String.eqb action "PROBE_BUY" then
    let state := clear_pending_breakout state in
    let state := set_status STATE_PROBE state in
    let state := set_probe_entry_price (Some (last_close snapshot)) state in
    let state := set_probe_entry_low (Some (last_low snapshot)) state in
    let state := set_position_usd
      (default 0 (capital_usd positioning) * default 0 (probe_pct positioning))%float state in
    let state := set_time_in_trade 0 state in
    let state := set_scale_out_stage 0 state in
    let state := set_entry_index (candle_index snapshot) state in
    let state := set_entry_price (Some (last_close snapshot)) state in
    let state := set_max_favorable_price (Some (last_close snapshot)) state in
    let state := set_progress_hit false state in
    let max_wait := default 0 (max_wait_candles progress_cfg) in
    match entry_index state with
    | Some ei =>
        if 0 <? max_wait then set_progress_deadline_index (Some (ei + max_wait)) state
        else set_progress_deadline_index None state
    | None => set_progress_deadline_index None state
    end
  else if String.eqb action "ADD_BUY" then
    let state := clear_pending_breakout state in
    let state := set_status STATE_TRADE state in
    let state := set_add_entry_price (Some (last_close snapshot)) state in
    let state := set_position_usd
      (position_usd state
       + default 0 (capital_usd positioning) * default 0 (add_pct positioning))%float state in
    let state :=
      match entry_index state with
      | None => set_entry_index (candle_index snapshot) state
      | Some _ => state
      end in
    match entry_price state with
    | None => set_entry_price (Some (last_close snapshot)) state
    | Some _ => state
    end
  else if String.eqb action "SCALE_OUT_20" then
    let stage := scale_out_stage state in
    let scale_pct :=
      if stage =? 0 then default 0%float (tp1_scale_out_pct positioning)
      else default 0%float (tp2_scale_out_pct positioning) in
    let state := set_position_usd
      (Py.max2 0 (position_usd state * (1 - scale_pct)))%float state in
    set_scale_out_stage (scale_out_stage state + 1) state
  else if String.eqb action "EXIT_FULL" then
    let state := clear_pending_breakout state in
    let state := set_status STATE_COOLDOWN state in
    let state := set_cooldown_left (default 0 (cooldown_candles engine_cfg)) state in
    let state := set_probe_entry_price None state in
    let state := set_probe_entry_low None state in
    let state := set_add_entry_price None state in
    let state := set_position_usd 0%float state in
    let state := set_time_in_trade 0 state in
    let state := set_scale_out_stage 0 state in
    let state := set_entry_index None state in
    let state := set_entry_price None state in
    let state := set_max_favorable_price None state in
    let state := set_progress_hit false state in
    let state := set_progress_deadline_index None state in
    let state := set_last_exit_ts (Some (now_ts snapshot)) state in
    let state := set_last_exit_price (Some (last_close snapshot)) state in
    let state := set_last_exit_index (candle_index snapshot) state in
    set_last_exit_was_stop
      (match exit_reason_codes with
       | Some codes => negb (bool_decide (codes = [])) && str_in "STRUCT_STOP" codes
       | None => false
       end) state
  else state.

(** A run of the state machine: the calls the orchestrator makes on one
    token's state, in order. *)
Inductive Call : Type :=
| CallAdvanceTime
| CallApplyAction (action : string) (snapshot : Snapshot) (config : option Config)
    (exit_reason_codes : option (list string)).

Definition step (get_config : Config) (state : TokenState) (call : Call) : TokenState :=
  match call with
  | CallAdvanceTime => advance_time state
  | CallApplyAction a snap cfg codes => apply_action get_config state a snap cfg codes
  end.

Definition run (get_config : Config) (calls : list Call) (state : TokenState) : TokenState :=
  fold_left (step get_config) calls state.

(** The state-machine invariant: no position while scouting or cooling down. *)
Definition flat_when_idle (state : TokenState) : Prop :=
  status state = STATE_SCOUT \/ status state = STATE_COOLDOWN ->
  (position_usd state =? 0)%float = true.

(** ** Risk validation (app/orchestrator/risk.py, app/orchestrator/validator.py) *)

(** [estimate_slippage_bps]: [int(impact * 10000)] raises when the product
    is a NaN or an infinity. *)
Definition estimate_slippage_bps (amount_usd liquidity_usd : float) : option Z :=
  if (liquidity_usd <=? 0)%float then Some 10000
  else
    impact ← Py.div amount_usd liquidity_usd;
    bps ← Py.int_of_float (impact * 10000)%float;
    Some (Z.max 10 (Z.min 5000 bps)).

Definition _action_notional_usd (action : string) (state : TokenState) (config : Config) : float :=
  let positioning := positioning_of config in
  let capital := default 0%float (capital_usd positioning) in
  if String.eqb action ACTION_PROBE_BUY then
    (capital * default 0 (probe_pct positioning))%float
  else if String.eqb action ACTION_ADD_BUY then
    (capital * default 0 (add_pct positioning))%float
  else if String.eqb action ACTION_SCALE_OUT_20 then
    let scale_pct :=
      if scale_out_stage state =? 0 then default 0%float (tp1_scale_out_pct positioning)
      else default 0%float (tp2_scale_out_pct positioning) in
    (position_usd state * scale_pct)%float
  else if String.eqb action ACTION_EXIT_FULL then position_usd state
  else 0%float.

(** [rejected.append(code)] under a condition. *)
Definition append_if (b : bool) (code : string) (rejected : list string) : list string :=
  if b then rejected ++ [code] else rejected.

(** [validate_action].  The configured [max_slippage_bps] is an integer;
    the source compares the integer estimate with its conversion to float,
    which orders the two as the integers are ordered (the estimate lies in
    10..10000 and the conversion is monotone). *)
Definition validate_action (proposal : ActionProposal) (snapshot : Snapshot)
    (state : TokenState) (config : Config) : option ActionProposal :=
  if String.eqb (action proposal) ACTION_HOLD then Some proposal
  else
    let rejected : list string := [] in
    let risk_cfg := risk_of config in
    let rejected := append_if (String.eqb (status state) "COOLDOWN") "COOLDOWN" rejected in
    let liquidity := liquidity_usd (pair snapshot) in
    let min_liquidity := default 0%float (min_liquidity_usd risk_cfg) in
    let rejected := append_if (liquidity <? min_liquidity)%float "LOW_LIQUIDITY" rejected in
    let rejected :=
      append_if
        ((String.eqb (action proposal) ACTION_SCALE_OUT_20
          || String.eqb (action proposal) ACTION_EXIT_FULL)
         && (position_usd state <=? 0)%float)
        "NO_POSITION" rejected in
    let notional := _action_notional_usd (action proposal) state config in
    slippage_bps ← estimate_slippage_bps notional liquidity;
    let max_slippage := default 0 (max_slippage_bps risk_cfg) in
    let rejected := append_if (max_slippage <? slippage_bps) "SLIPPAGE_TOO_HIGH" rejected in
    match rejected with
    | [] => Some proposal
    | _ =>
        Some {| action := ACTION_HOLD;
                reason_codes := map (String.append "REJECT_") rejected;
                guards := guards proposal;
                expires_at := expires_at proposal |}
    end.



(** ** Regime score (app/signals/regime.py) *)

Definition _clamp (value low high : float) : float := Py.max2 low (Py.min2 high value).

(** [compute_regime_score]: [int(round(score))], where [round] raises on a
    NaN or an infinity. *)
Definition compute_regime_score (return_pct volume_accel range_ratio : float) : option Z :=
  let score := 50%float in
  let score := (score + _clamp (return_pct * 2000) (-30) 30)%float in
  let score := (score + _clamp (volume_accel * 20) (-20) 20)%float in
  let score := (score + _clamp ((range_ratio - 1) * 20) (-20) 20)%float in
  let score := _clamp score 0 100 in
  Py.round score.

(** The clamp of the specification: [value] limited to the interval from
    [low] to [high]. *)
Definition clamp_spec (value low high : float) : float :=
  if (value <? low)%float then low
  else if (high <? value)%float then high
  else value.

(** The regime score before rounding, as the specification words it:
    start at 50, add the three clamped contributions, clamp the total to
    0..100. *)
Definition regime_score_spec (return_pct volume_accel range_ratio : float) : float :=
  clamp_spec
    (50 + clamp_spec (return_pct * 2000) (-30) 30
        + clamp_spec (volume_accel * 20) (-20) 20
        + clamp_spec ((range_ratio - 1) * 20) (-20) 20)%float
    0 100.

(** A binary64 value that is a number: neither a NaN nor an infinity. *)
Definition sf_finite (a : spec_float) : bool :=
  match a with
  | S754_zero _ | S754_finite _ _ _ => true
  | S754_infinity _ | S754_nan => false
  end.

(** ** Python list slicing *)

(** A slice bound as Python normalises it: a negative index counts from
    the end, and both ends are clamped to the list. *)
Definition norm_index (len i : Z) : Z :=
  if i <? 0 then Z.max 0 (i + len) else Z.min i len.

(** [xs[start:stop]], an omitted bound being [None]. *)
Definition py_slice {A : Type} (xs : list A) (start stop : option Z) : list A :=
  let n := Z.of_nat (length xs) in
  let a := match start with Some i => norm_index n i | None => 0 end in
  let b := match stop with Some i => norm_index n i | None => n end in
  take (Z.to_nat (b - a)) (drop (Z.to_nat a) xs).

(** [xs[-1]] of a non-empty list. *)
Definition py_last {A : Type} (xs : list A) : option A := last xs.

(** ** Feature extraction (app/signals/features.py) *)

(** [statistics.median] of a non-empty list of floats: the middle of the
    sorted data, or the mean of the two middle values.  [sorted] compares
    with [<] only and is stable; it is modelled by a stable insertion
    sort, which returns the same list whenever no NaN is present.  With a
    NaN in the data the result of Python's sort depends on the order in
    which it compares the items, and the [statistics] module leaves the
    median undefined; what is proved below of the value of a median is
    stated for data without NaN. *)
Fixpoint insert_float (x : float) (xs : list float) : list float :=
  match xs with
  | [] => [x]
  | y :: ys => if (y <? x)%float then y :: insert_float x ys else x :: xs
  end.

Definition sorted_float (xs : list float) : list float := foldr insert_float [] xs.

Definition median (xs : list float) : float :=
  let data := sorted_float xs in
  let n := length data in
  if Nat.odd n then nth (n / 2)%nat data 0%float
  else ((nth (n / 2 - 1)%nat data 0%float + nth (n / 2)%nat data 0%float) / 2)%float.

(** [xs[i]] for an integer index: negative indices count from the end and
    an index out of range raises [IndexError]. *)
Definition py_index {A : Type} (xs : list A) (i : Z) : option A :=
  let n := Z.of_nat (length xs) in
  let j := if i <? 0 then i + n else i in
  if (j <? 0) || (n <=? j) then None else xs !! Z.to_nat j.

(** [xs[-(k+1):-1]], falling back to [xs[:-1]] when that slice is empty. *)
Definition window_before_last {A : Type} (xs : list A) (k : Z) : list A :=
  match py_slice xs (Some (- (k + 1))) (Some (-1)) with
  | [] => py_slice xs None (Some (-1))
  | w => w
  end.

(** The feature map returned for fewer than two candles. *)
Definition default_features : gmap string PyVal :=
  {[ "highest_close" := VFloat 0; "lowest_close" := VFloat 0; "avg_volume" := VFloat 0;
     "breakout" := VBool false; "breakout_strict" := VBool false;
     "price_range_ratio" := VFloat 1; "range_compressed" := VBool false;
     "expansion_pct" := VFloat 0; "price_expanded" := VBool false;
     "return_pct" := VFloat 0; "volume_accel" := VFloat 0; "range_ratio" := VFloat 1;
     "regime_score" := VInt 0 ]}.

(** [compute_features].  [mean] stands for [statistics.mean], which sums
    exactly and rounds once; it is only applied to non-empty windows.
    [vol_multiplier] and [expansion_reference] are accepted and, as in the
    source, have no effect on the result. *)
Definition compute_features (mean : list float -> float) (candles : list Candle)
    (lookback : Z) (vol_multiplier : float) (compression_max_range_ratio : float)
    (compression_lookback : option Z) (expansion_min_pct : float)
    (expansion_reference : string) : option (gmap string PyVal) :=
  if Z.of_nat (length candles) <? 2 then Some default_features
  else
    let closes := map c candles in
    let volumes := map v candles in
    let ranges := map (fun cd => (h cd - l cd)%float) candles in
    current_close ← py_last closes;
    current_vol ← py_last volumes;
    current_range ← py_last ranges;
    let lookback_window := window_before_last closes lookback in
    let vol_window := window_before_last volumes lookback in
    let range_window := window_before_last ranges lookback in
    let highest_close :=
      match lookback_window with x :: xs => Py.max_list x xs | [] => current_close end in
    let lowest_close :=
      match lookback_window with x :: xs => Py.min_list x xs | [] => current_close end in
    let avg_vol := match vol_window with [] => current_vol | _ => mean vol_window end in
    let avg_range := match range_window with [] => current_range | _ => mean range_window end in
    let ref_lookback :=
      match compression_lookback with
      | Some k => if 0 <? k then k else lookback
      | None => lookback
      end in
    let ref_window := window_before_last closes ref_lookback in
    let ref_high := match ref_window with x :: xs => Py.max_list x xs | [] => current_close end in
    let ref_low := match ref_window with x :: xs => Py.min_list x xs | [] => current_close end in
    price_range_ratio ←
      (if (0 <? ref_low)%float then Py.div ref_high ref_low else Some 1%float);
    let range_compressed := (price_range_ratio <=? compression_max_range_ratio)%float in
    let expansion_reference_value := ref_high in
    let expansion_reference_value :=
      if negb (String.eqb expansion_reference "highest_close") then ref_high
      else expansion_reference_value in
    expansion_pct ←
      (if (0 <? expansion_reference_value)%float
       then q ← Py.div current_close expansion_reference_value; Some (q - 1)%float
       else Some 0%float);
    let price_expanded := (expansion_min_pct <=? expansion_pct)%float in
    let breakout_strict := range_compressed && price_expanded in
    return_pct ←
      (if lookback <? Z.of_nat (length closes) then
         prior_close ← py_index closes (- (lookback + 1));
         if (0 <? prior_close)%float
         then q ← Py.div current_close prior_close; Some (q - 1)%float
         else Some 0%float
       else Some 0%float);
    volume_accel ←
      (if (0 <? avg_vol)%float
       then q ← Py.div current_vol avg_vol; Some (q - 1)%float
       else Some 0%float);
    range_ratio ←
      (if (0 <? avg_range)%float then Py.div current_range avg_range else Some 1%float);
    regime_score ← compute_regime_score return_pct volume_accel range_ratio;
    Some ({[ "highest_close" := VFloat highest_close; "lowest_close" := VFloat lowest_close;
             "avg_volume" := VFloat avg_vol;
             "breakout" := VBool breakout_strict; "breakout_strict" := VBool breakout_strict;
             "price_range_ratio" := VFloat price_range_ratio;
             "range_compressed" := VBool range_compressed;
             "expansion_pct" := VFloat expansion_pct; "price_expanded" := VBool price_expanded;
             "return_pct" := VFloat return_pct; "volume_accel" := VFloat volume_accel;
             "range_ratio" := VFloat range_ratio;
             "regime_score" := VInt regime_score ]} : gmap string PyVal).

(** [(h - l) / c] for each candle of [cs] whose close is positive; the
    loop skips ([continue]) the others. *)
Definition relative_ranges (cs : list Candle) : option (list float) :=
  mapM (fun cd => Py.div (h cd - l cd) (c cd))
       (filter (fun cd => (c cd <=? 0)%float = false) cs).

Section Momentum.

(** [math.log1p], a function of the C library, is a parameter. *)
Variable log1p : float -> float.

Definition momentum_score (candles : list Candle) (lookback : Z) : option float :=
  if (Z.of_nat (length candles) <? lookback + 1) || (lookback <=? 0) then Some 0%float
  else
    let window := py_slice candles (Some (- (lookback + 1))) None in
    latest ← py_last window;
    first ← head window;
    let close_now := c latest in
    let close_then := c first in
    if (close_then <=? 0)%float then Some 0%float
    else
      q ← Py.div close_now close_then;
      let ret := (q - 1)%float in
      let vols := map v (py_slice window None (Some (-1))) in
      let median_vol := match vols with [] => 0%float | _ => median vols end in
      vol_mult ←
        (if (0 <? median_vol)%float
         then last_vol ← py_last vols; Py.div last_vol median_vol
         else Some 1%float);
      ranges ← relative_ranges (py_slice window None (Some (-1)));
      let median_range := match ranges with [] => 0%float | _ => median ranges end in
      range_now ← Py.div (h latest - l latest) (Py.max2 close_now 1e-9);
      range_mult ←
        (if (0 <? median_range)%float then Py.div range_now median_range else Some 1%float);
      let score := (100 * ret)%float in
      let score :=
        if (0 <? median_vol)%float
        then (score + 10 * log1p (Py.max2 0 (vol_mult - 1)))%float else score in
      let score :=
        if (0 <? median_range)%float
        then (score + 5 * log1p (Py.max2 0 (range_mult - 1)))%float else score in
      Some score.

(** The score as the specification words it, on a window
    [before ++ [latest]] that starts with [first]: both multiples compare
    the latest bar with the median of the bars before it, the volume
    multiple by its volume and the range multiple by its relative range
    [(h - l) / c]; [ranges] are the relative ranges of the bars before. *)
Definition momentum_score_spec (first latest : Candle) (before : list Candle)
    (ranges : list float) : float :=
  let ret := (c latest / c first - 1)%float in
  let volume_mult := (v latest / median (map v before))%float in
  let range_mult := ((h latest - l latest) / c latest / median ranges)%float in
  (100 * ret + 10 * log1p (Py.max2 0 (volume_mult - 1))
   + 5 * log1p (Py.max2 0 (range_mult - 1)))%float.


End Momentum.

(** [math.log1p] on the two arguments the example below evaluates it at:
    [log1p(0.0) = 0.0] and [log1p(1.0)], the double nearest to ln 2. *)
Definition log1p_sample (x : float) : float :=
  if (x =? 0)%float then 0%float
  else if (x =? 1)%float then 0x1.62e42fefa39efp-1%float
  else x.

(** Three flat candles whose latest bar doubles the volume. *)
Definition spike_first : Candle := {| t := 0; o := 1; h := 1.25; l := 0.75; c := 1; v := 1 |}.
Definition spike_previous : Candle := {| t := 60; o := 1; h := 1.25; l := 0.75; c := 1; v := 1 |}.
Definition spike_latest : Candle := {| t := 120; o := 1; h := 1.25; l := 0.75; c := 1; v := 2 |}.
Definition volume_spike : list Candle := [spike_first; spike_previous; spike_latest].

(** Two candles at price 1 followed by a bar that closes at [2^-40],
    below the floor [1e-9], with a range equal to its close. *)
Definition dust_latest : Candle :=
  {| t := 120; o := 0x1p-40; h := 0x1p-39; l := 0x1p-40; c := 0x1p-40; v := 1 |}.
Definition dust_close : list Candle := [spike_first; spike_previous; dust_latest].

(** Five candles for a lookback of 4.  The volumes of the four bars
    before the latest are 3, 0.5, 1, 4 (median 2, mean 2.125); the second
    bar closes at 0 and has no relative range, the others have 0.25, 1,
    0.5 (median 0.5); the latest bar has risen by half, with a range
    equal to its close. *)
Definition surge_first : Candle := {| t := 0; o := 1; h := 1.125; l := 0.875; c := 1; v := 3 |}.
Definition surge_second : Candle := {| t := 60; o := 1; h := 1; l := 0; c := 0; v := 0.5 |}.
Definition surge_third : Candle := {| t := 120; o := 1; h := 1.5; l := 0.5; c := 1; v := 1 |}.
Definition surge_fourth : Candle := {| t := 180; o := 1; h := 1.25; l := 0.75; c := 1; v := 4 |}.
Definition surge_latest : Candle := {| t := 240; o := 1; h := 2; l := 0.5; c := 1.5; v := 100 |}.
Definition surge_before : list Candle := [surge_first; surge_second; surge_third; surge_fourth].
Definition surge : list Candle := surge_before ++ [surge_latest].

(** A feature value is zero (a number) or false (a boolean). *)
Definition zero_or_false (val : PyVal) : bool :=
  match val with
  | VBool b => negb b
  | VInt n => n =? 0
  | VFloat x => (x =? 0)%float
  end.

(** The two ratio features, whose neutral value is 1. *)
Definition ratio_feature (k : string) : bool :=
  String.eqb k "price_range_ratio" || String.eqb k "range_ratio".

(** ** Backtest metrics (app/backtest/metrics.py) *)

(** [sum(xs)] over floats: the integer start value 0 and then one addition
    per item, left to right.  (CPython 3.12 and later compensate the
    rounding error of these additions; nothing below depends on how the
    sum of a non-empty list is rounded.) *)
Definition py_sum (xs : list float) : float := fold_left PrimFloat.add xs 0%float.

(** [val > 0] and [val < 0] for a dictionary value. *)
Definition py_gt0 (val : PyVal) : bool :=
  match val with
  | VBool b => b
  | VInt n => 0 <? n
  | VFloat x => (0 <? x)%float
  end.

Definition py_lt0 (val : PyVal) : bool :=
  match val with
  | VBool _ => false
  | VInt n => n <? 0
  | VFloat x => (x <? 0)%float
  end.

(** [a / n] for a float and an integer, and [m / n] for two integers:
    both raise [ZeroDivisionError] when [n == 0].  The integers divided
    here are list lengths and counts of list items, which a float holds
    exactly. *)
Definition div_by_int (a : float) (n : Z) : option float :=
  if n =? 0 then None else Some (a / Py.float_of_Z n)%float.

Definition int_div (m n : Z) : option float :=
  if n =? 0 then None else Some (Py.float_of_Z m / Py.float_of_Z n)%float.

(** [t.get("pnl_usd", 0.0)] and [t.get("return_pct", 0.0)]. *)
Definition raw_pnl (trade : gmap string PyVal) : PyVal :=
  default (VFloat 0) (trade !! "pnl_usd").

Definition raw_return (trade : gmap string PyVal) : PyVal :=
  default (VFloat 0) (trade !! "return_pct").

(** [equity_curve]: [float(trade.get("pnl_usd", 0.0))] raises for an
    integer beyond the binary64 range. *)
Fixpoint equity_curve_from (equity : float) (trades : list (gmap string PyVal))
    : option (list float) :=
  match trades with
  | [] => Some []
  | trade :: rest =>
      pnl ← float_of_value (raw_pnl trade);
      let equity := (equity + pnl)%float in
      curve ← equity_curve_from equity rest;
      Some (equity :: curve)
  end.

Definition equity_curve (starting_capital : float) (trades : list (gmap string PyVal))
    : option (list float) :=
  curve ← equity_curve_from starting_capital trades;
  Some (starting_capital :: curve).

Fixpoint max_drawdown_from (peak max_dd : float) (curve : list float) : option float :=
  match curve with
  | [] => Some max_dd
  | value :: rest =>
      let peak := if (peak <? value)%float then value else peak in
      drawdown ← (if (0 <? peak)%float then Py.div (peak - value) peak else Some 0%float);
      let max_dd := if (max_dd <? drawdown)%float then drawdown else max_dd in
      max_drawdown_from peak max_dd rest
  end.

Definition max_drawdown (curve : list float) : option float :=
  let peak := match curve with x :: _ => x | [] => 0%float end in
  max_drawdown_from peak 0 curve.

Definition profit_factor (trades : list (gmap string PyVal)) : option float :=
  wins ← mapM (fun tr => float_of_value (raw_pnl tr))
            (filter (fun tr => py_gt0 (raw_pnl tr) = true) trades);
  let wins := py_sum wins in
  losses ← mapM (fun tr => pnl ← float_of_value (raw_pnl tr); Some (- pnl)%float)
              (filter (fun tr => py_lt0 (raw_pnl tr) = true) trades);
  let losses := py_sum losses in
  if (losses =? 0)%float then
    Some (if (0 <? wins)%float then Py.inf else 0%float)
  else Py.div wins losses.

Definition win_rate (trades : list (gmap string PyVal)) : option float :=
  match trades with
  | [] => Some 0%float
  | _ =>
      let wins := length (filter (fun tr => py_gt0 (raw_pnl tr) = true) trades) in
      int_div (Z.of_nat wins) (Z.of_nat (length trades))
  end.

Definition avg_trade_return (trades : list (gmap string PyVal)) : option float :=
  match trades with
  | [] => Some 0%float
  | _ =>
      returns ← mapM (fun tr => float_of_value (raw_return tr)) trades;
      div_by_int (py_sum returns) (Z.of_nat (length returns))
  end.

Definition trade_count (trades : list (gmap string PyVal)) : Z := Z.of_nat (length trades).

(** The dictionary [compute_metrics] returns, one field per key. *)
Record Metrics := {
  total_return_pct : float;
  max_drawdown_pct : float;
  m_profit_factor : float;
  m_win_rate : float;
  avg_trade_return_pct : float;
  m_trade_count : Z }.

Definition compute_metrics (starting_capital : float) (trades : list (gmap string PyVal))
    : option Metrics :=
  curve ← equity_curve starting_capital trades;
  total ←
    match py_last curve with
    | Some final => q ← Py.div final starting_capital; Some (q - 1)%float
    | None => Some 0%float
    end;
  dd ← max_drawdown curve;
  pf ← profit_factor trades;
  wr ← win_rate trades;
  atr ← avg_trade_return trades;
  Some {| total_return_pct := total; max_drawdown_pct := dd; m_profit_factor := pf;
          m_win_rate := wr; avg_trade_return_pct := atr;
          m_trade_count := trade_count trades |}.

(** Starting capital plus the trades' [pnl_usd], added in trade order. *)
Definition final_equity (starting_capital : float) (trades : list (gmap string PyVal)) : float :=
  fold_left (fun equity tr => (equity + get_float tr "pnl_usd" 0)%float) trades starting_capital.

(** The sum of the winning trades' [pnl_usd]. *)
Definition winning_pnl (trades : list (gmap string PyVal)) : float :=
  py_sum (map (fun tr => get_float tr "pnl_usd" 0)
            (filter (fun tr => py_gt0 (raw_pnl tr) = true) trades)).

Definition no_losing_trade (trades : list (gmap string PyVal)) : Prop :=
  Forall (fun tr => py_lt0 (raw_pnl tr) = false) trades.

Definition no_winning_trade (trades : list (gmap string PyVal)) : Prop :=
  Forall (fun tr => py_gt0 (raw_pnl tr) = false) trades.

(** A trade record whose [pnl_usd] and [return_pct] are values that
    [float] converts: floats, booleans and integers within the binary64
    range. *)
Definition trade_converts (trade : gmap string PyVal) : Prop :=
  is_Some (float_of_value (raw_pnl trade)) /\ is_Some (float_of_value (raw_return trade)).

(** ** Policy (app/policies/rules_v0.py) *)

(** [x or y] on optional floats: [None] and [0.0] are false. *)
Definition or_else (x y : option float) : option float :=
  match x with
  | Some a => if Py.truthy a then x else y
  | None => y
  end.

(** The progress block, which the PROBE and TRADE branches of
    [propose_action] repeat word for word: it updates the state and may
    return an exit proposal ([Some]); otherwise control continues after
    the block ([None]). *)
Definition progress_block (propose : string -> list string -> ActionProposal)
    (snapshot : Snapshot) (state : TokenState) (rules_cfg : RulesCfg)
    : TokenState * option ActionProposal :=
  let progress_cfg := progress_of rules_cfg in
  let entry_price := or_else (entry_price state) (probe_entry_price state) in
  match entry_price with
  | None => (state, None)
  | Some entry_price =>
    if negb (Py.truthy entry_price) then (state, None)
    else
      let state :=
        match max_favorable_price state with
        | None => set_max_favorable_price (Some entry_price) state
        | Some _ => state
        end in
      let state :=
        set_max_favorable_price
          (Some (Py.max2 (default entry_price (max_favorable_price state)) (last_close snapshot)))
          state in
      let min_move := default 0%float (min_move_pct progress_cfg) in
      let max_wait := default 0 (max_wait_candles progress_cfg) in
      let state :=
        if negb (progress_hit state)
           && (entry_price * (1 + min_move) <=? last_high snapshot)%float
        then set_progress_hit true state else state in
      if negb (progress_hit state) then
        let deadline := progress_deadline_index state in
        let '(deadline, state) :=
          match deadline, entry_index state with
          | None, Some ei =>
              if 0 <? max_wait
              then (Some (ei + max_wait), set_progress_deadline_index (Some (ei + max_wait)) state)
              else (deadline, state)
          | _, _ => (deadline, state)
          end in
        match deadline, candle_index snapshot with
        | Some d, Some ci =>
            if d <=? ci then (state, Some (propose ACTION_EXIT_FULL ["PROGRESS_STOP"]))
            else (state, None)
        | _, _ => (state, None)
        end
      else
        let stop_level : option float := None in
        let stop_level :=
          if default false (breakeven_after_progress progress_cfg)
          then Some entry_price else stop_level in
        let stop_level :=
          if default false (trail_after_progress progress_cfg) then
            let lookback_lows := default 1 (trail_lookback_lows progress_cfg) in
            if (0 <? lookback_lows)
               && (lookback_lows + 1 <=? Z.of_nat (length (candles snapshot))) then
              let lows := map l (py_slice (candles snapshot) (Some (- (lookback_lows + 1))) (Some (-1))) in
              match lows with
              | [] => stop_level
              | low0 :: lows' =>
                  let trail_low := Py.min_list low0 lows' in
                  match stop_level with
                  | Some sl => Some (Py.max2 sl trail_low)
                  | None => Some trail_low
                  end
              end
            else stop_level
          else stop_level in
        match stop_level with
        | Some sl =>
            if (last_close snapshot <? sl)%float
            then (state, Some (propose ACTION_EXIT_FULL ["TRAIL_STOP"]))
            else (state, None)
        | None => (state, None)
        end
  end.

(** The structural stop shared by the PROBE and TRADE branches. *)
Definition struct_stop_hit (snapshot : Snapshot) (state : TokenState) (stops_cfg : StopsCfg) : bool :=
  let stop_buffer := default 0%float (stop_buffer_pct stops_cfg) in
  match probe_entry_low state with
  | Some pel => (last_close snapshot <? pel * (1 - stop_buffer))%float
  | None => false
  end.

(** [propose_action]: returns the state as the call leaves it, with the
    proposal. *)
Definition propose_action (snapshot : Snapshot) (state : TokenState) (config : Config)
    : TokenState * ActionProposal :=
  let engine_cfg := engine_of config in
  let rules_cfg := rules_of config in
  let risk_cfg := risk_of config in
  let reentry_cfg := reentry_of config in
  let stops_cfg := stops_of config in
  let expires_at := now_ts snapshot + default 1 (poll_interval_sec engine_cfg) in
  let guards : gmap string Z := {[ "max_slippage_bps" := default 0 (max_slippage_bps risk_cfg) ]} in
  let propose (a : string) (reasons : list string) : ActionProposal :=
    {| action := a; reason_codes := reasons; guards := guards; expires_at := Some expires_at |} in
  if String.eqb (status state) STATE_COOLDOWN then
    (state, propose ACTION_HOLD ["COOLDOWN"])
  else if String.eqb (status state) STATE_SCOUT then
    let interval_sec := infer_interval_sec (candles snapshot) in
    let state :=
      update_reentry_lockout state (now_ts snapshot) config interval_sec (candle_index snapshot) in
    let features := features snapshot in
    let breakout_strict :=
      match features !! "breakout_strict" with
      | Some v => py_bool v
      | None => get_flag features "breakout"
      end in
    let range_compressed := get_flag features "range_compressed" in
    let price_expanded := get_flag features "price_expanded" in
    let chain_override := get_flag features "chain_override" in
    let missing_reasons : list string := [] in
    let missing_reasons :=
      if negb range_compressed then missing_reasons ++ ["NO_RANGE_COMPRESSION"]
      else missing_reasons in
    let missing_reasons :=
      if negb price_expanded then missing_reasons ++ ["NO_PRICE_EXPANSION"]
      else missing_reasons in
    let current_index := candle_index snapshot in
    (* what follows the pending-breakout block *)
    let after_pending (state : TokenState) : TokenState * ActionProposal :=
      if breakout_strict then
        let avg_vol := get_float features "avg_volume" 0 in
        let current_vol :=
          match py_last (candles snapshot) with Some cd => v cd | None => 0%float end in
        let vol_mult := default 0%float (vol_mult_unlock reentry_cfg) in
        let vol_ok :=
          if (0 <? vol_mult)%float && (0 <? avg_vol)%float
          then (vol_mult * avg_vol <? current_vol)%float else false in
        if negb (can_reenter (now_ts snapshot) (last_exit_ts state) (last_exit_index state)
                   (last_exit_price state) (last_close snapshot) config vol_ok
                   (last_exit_was_stop state) (Some interval_sec) (candle_index snapshot))
        then (state, propose ACTION_HOLD ["REENTRY_LOCKOUT"])
        else
          match current_index with
          | None => (state, propose ACTION_PROBE_BUY ["BREAKOUT"])
          | Some ci =>
              let state := set_pending_breakout_index (Some ci) state in
              let state :=
                set_pending_breakout_level
                  (Some (get_float features "highest_close" (last_close snapshot))) state in
              let state := set_pending_breakout_expires_index (Some (ci + 3)) state in
              (state, propose ACTION_HOLD ["BREAKOUT_PENDING"])
          end
      else if chain_override then
        if negb (can_reenter (now_ts snapshot) (last_exit_ts state) (last_exit_index state)
                   (last_exit_price state) (last_close snapshot) config false
                   (last_exit_was_stop state) (Some interval_sec) (candle_index snapshot))
        then (state, propose ACTION_HOLD ["REENTRY_LOCKOUT"])
        else (state, propose ACTION_PROBE_BUY (missing_reasons ++ ["PROVISIONAL_CHAIN_OVERRIDE"]))
      else
        let missing_reasons :=
          match missing_reasons with [] => ["NO_PRICE_EXPANSION"] | _ => missing_reasons end in
        (state, propose ACTION_HOLD missing_reasons) in
    match pending_breakout_index state with
    | None => after_pending state
    | Some _ =>
        match current_index with
        | None => after_pending (clear_pending_breakout state)
        | Some ci =>
            let expires := pending_breakout_expires_index state in
            if match expires with Some e => e <? ci | None => false end then
              (clear_pending_breakout state, propose ACTION_HOLD ["BREAKOUT_EXPIRED"])
            else
              match pending_breakout_level state with
              | None => (clear_pending_breakout state, propose ACTION_HOLD ["BREAKOUT_EXPIRED"])
              | Some level =>
                  let close := last_close snapshot in
                  let low := last_low snapshot in
                  let confirm_close_above :=
                    default 0.01%float (confirm_min_close_above_pct rules_cfg) in
                  let confirm_max_retrace :=
                    default 0.05%float (confirm_max_retrace_pct rules_cfg) in
                  let confirm_close := (level * (1 + confirm_close_above) <=? close)%float in
                  let confirm_retrace_ok := (level * (1 - confirm_max_retrace) <=? low)%float in
                  if (level <? close)%float && confirm_close && confirm_retrace_ok then
                    (clear_pending_breakout state, propose ACTION_PROBE_BUY ["BREAKOUT_CONFIRM"])
                  else (state, propose ACTION_HOLD ["BREAKOUT_WAIT"])
              end
        end
    end
  else if String.eqb (status state) STATE_PROBE then
    match progress_block propose snapshot state rules_cfg with
    | (state, Some exit) => (state, exit)
    | (state, None) =>
        if struct_stop_hit snapshot state stops_cfg then
          (state, propose ACTION_EXIT_FULL ["STRUCT_STOP"])
        else
          let add_trigger := default 0%float (add_trigger_up_pct rules_cfg) in
          let add_hit :=
            match probe_entry_price state, probe_entry_low state with
            | Some pep, Some pel =>
                Py.truthy pep
                && (pep * (1 + add_trigger) <=? last_close snapshot)%float
                && (pel <? last_close snapshot)%float
            | _, _ => false
            end in
          if add_hit then (state, propose ACTION_ADD_BUY ["ADD_TRIGGER"])
          else (state, propose ACTION_HOLD ["WAIT_ADD"])
    end
  else if String.eqb (status state) STATE_TRADE then
    match progress_block propose snapshot state rules_cfg with
    | (state, Some exit) => (state, exit)
    | (state, None) =>
        if struct_stop_hit snapshot state stops_cfg then
          (state, propose ACTION_EXIT_FULL ["STRUCT_STOP"])
        else
          let time_stop := default 0 (time_stop_candles rules_cfg) in
          let time_stop_hit :=
            if time_stop =? 0 then false
            else
              match candle_index snapshot, entry_index state with
              | Some ci, Some ei => time_stop <=? ci - ei
              | _, _ => time_stop <=? time_in_trade state
              end in
          if time_stop_hit then (state, propose ACTION_EXIT_FULL ["TIME_STOP"])
          else if match support_level snapshot with
                  | Some z => (last_close snapshot <? low z)%float
                  | None => false
                  end
          then (state, propose ACTION_EXIT_FULL ["SUPPORT_BREAK"])
          else
            let levels := resistance_levels snapshot in
            let touch (i : nat) : bool :=
              match levels !! i with
              | Some z => (low z <=? last_close snapshot)%float
              | None => false
              end in
            if (scale_out_stage state =? 0) && touch 0%nat then
              (state, propose ACTION_SCALE_OUT_20 ["R1_TOUCH"])
            else if (scale_out_stage state =? 1) && touch 1%nat then
              (state, propose ACTION_SCALE_OUT_20 ["R2_TOUCH"])
            else if (2 <=? scale_out_stage state) && touch 2%nat then
              (state, propose ACTION_EXIT_FULL ["R3_TOUCH"])
            else (state, propose ACTION_HOLD ["HOLD_TRADE"])
    end
  else (state, propose ACTION_HOLD ["DEFAULT_HOLD"]).

(** Vocabulary for stating the pending-breakout protocol: the conditions
    [propose_action] evaluates in its SCOUT branch, named. *)

(** The snapshot's features report a strict breakout. *)
Definition strict_breakout (snapshot : Snapshot) : bool :=
  match features snapshot !! "breakout_strict" with
  | Some v => py_bool v
  | None => get_flag (features snapshot) "breakout"
  end.

(** The re-entry lockout lets a strict breakout through: the
    [can_reenter] call of the SCOUT branch, with its volume override,
    made on the state as [update_reentry_lockout] leaves it. *)
Definition reentry_open (snapshot : Snapshot) (state : TokenState) (config : Config) : bool :=
  let interval_sec := infer_interval_sec (candles snapshot) in
  let state :=
    update_reentry_lockout state (now_ts snapshot) config interval_sec (candle_index snapshot) in
  let avg_vol := get_float (features snapshot) "avg_volume" 0 in
  let current_vol :=
    match py_last (candles snapshot) with Some cd => v cd | None => 0%float end in
  let vol_mult := default 0%float (vol_mult_unlock (reentry_of config)) in
  let vol_ok :=
    if (0 <? vol_mult)%float && (0 <? avg_vol)%float
    then (vol_mult * avg_vol <? current_vol)%float else false in
  can_reenter (now_ts snapshot) (last_exit_ts state) (last_exit_index state)
    (last_exit_price state) (last_close snapshot) config vol_ok
    (last_exit_was_stop state) (Some interval_sec) (candle_index snapshot).

(** The confirmation test of a pending breakout against [level]. *)
Definition breakout_confirmed (snapshot : Snapshot) (config : Config) (level : float) : bool :=
  let rules_cfg := rules_of config in
  let confirm_close_above := default 0.01%float (confirm_min_close_above_pct rules_cfg) in
  let confirm_max_retrace := default 0.05%float (confirm_max_retrace_pct rules_cfg) in
  (level <? last_close snapshot)%float
  && (level * (1 + confirm_close_above) <=? last_close snapshot)%float
  && (level * (1 - confirm_max_retrace) <=? last_low snapshot)%float.

(** All three pending-breakout fields are unset. *)
Definition pending_clear (state : TokenState) : Prop :=
  pending_breakout_index state = None /\
  pending_breakout_level state = None /\
  pending_breakout_expires_index state = None.

(** A breakout seen at index [i] against the level [lvl] is pending. *)
Definition pending_armed (state : TokenState) (i : Z) (lvl : float) : Prop :=
  pending_breakout_index state = Some i /\
  pending_breakout_level state = Some lvl /\
  pending_breakout_expires_index state = Some (i + 3).


(** ** Ranking of entry candidates (app/orchestrator/runner.py) *)

(** One item of a score breakdown. *)
Record Component := { feature : string; contribution : float; value : float }.

(** The dictionary [_momentum_score_detail] returns. *)
Record ScoreDetail := {
  total : float;
  components : list Component;
  top_features : list string }.

(** [xs.sort(key=key, reverse=True)]: a stable sort into descending key
    order, comparing keys with [<] only.  It is modelled by a stable
    insertion sort, which returns the same list whenever no key is a NaN. *)
Fixpoint insert_desc {A : Type} (key : A -> float) (x : A) (xs : list A) : list A :=
  match xs with
  | [] => [x]
  | y :: ys => if (key x <? key y)%float then y :: insert_desc key x ys else x :: xs
  end.

Definition sort_desc {A : Type} (key : A -> float) (xs : list A) : list A :=
  foldr (insert_desc key) [] xs.

(** [not_nan x] is Python's [x == x]. *)
Definition not_nan (x : float) : Prop := (x =? x)%float = true.

(** [a] may stand before [b] in descending key order: its key is not
    smaller. *)
Definition not_below {A : Type} (key : A -> float) (a b : A) : Prop :=
  (key a <? key b)%float = false.

Definition zero_detail : ScoreDetail :=
  {| total := 0; components := []; top_features := [] |}.

Section Ranking.

Variable log1p : float -> float.

Definition _momentum_score_detail (candles : list Candle) (lookback : Z) : option ScoreDetail :=
  if lookback <=? 0 then Some zero_detail
  else
    let lookback :=
      if Z.of_nat (length candles) <? lookback + 1
      then Z.max 1 (Z.of_nat (length candles) - 1) else lookback in
    if Z.of_nat (length candles) <? lookback + 1 then Some zero_detail
    else
      let window := py_slice candles (Some (- (lookback + 1))) None in
      latest ← py_last window;
      first ← head window;
      let close_now := c latest in
      let close_then := c first in
      if (close_then <=? 0)%float then Some zero_detail
      else
        q ← Py.div close_now close_then;
        let ret := (q - 1)%float in
        let vols := map v (py_slice window None (Some (-1))) in
        let median_vol := match vols with [] => 0%float | _ => median vols end in
        vol_mult ←
          (if (0 <? median_vol)%float
           then last_vol ← py_last vols; Py.div last_vol median_vol
           else Some 1%float);
        ranges ← relative_ranges (py_slice window None (Some (-1)));
        let median_range := match ranges with [] => 0%float | _ => median ranges end in
        range_now ← Py.div (h latest - l latest) (Py.max2 close_now 1e-9);
        range_mult ←
          (if (0 <? median_range)%float then Py.div range_now median_range else Some 1%float);
        let return_contrib := (100 * ret)%float in
        let volume_contrib :=
          if (0 <? median_vol)%float
          then (10 * log1p (Py.max2 0 (vol_mult - 1)))%float else 0%float in
        let range_contrib :=
          if (0 <? median_range)%float
          then (5 * log1p (Py.max2 0 (range_mult - 1)))%float else 0%float in
        let components :=
          [ {| feature := "return_pct"; contribution := return_contrib; value := ret |};
            {| feature := "volume_mult"; contribution := volume_contrib; value := vol_mult |};
            {| feature := "range_mult"; contribution := range_contrib; value := range_mult |} ] in
        let components := sort_desc (fun item => abs (contribution item)) components in
        let total := (return_contrib + volume_contrib + range_contrib)%float in
        let top_features := map feature (py_slice components None (Some 2)) in
        Some {| total := total; components := components; top_features := top_features |}.

(** [_apply_score_adjustments]: a feature read as a condition is its truth
    value, an absent key being false. *)
Definition _apply_score_adjustments (score : float) (features : gmap string PyVal)
    (config : Config) : float * list Component :=
  let breakout_cfg := breakout_of config in
  let bonus := default 0%float (chain_override_score_bonus breakout_cfg) in
  let penalty := default 0%float (weak_breakout_score_penalty breakout_cfg) in
  let adjustments : list Component := [] in
  let '(score, adjustments) :=
    if get_flag features "chain_override" then
      ((score + bonus)%float,
       adjustments ++ [ {| feature := "chain_override_bonus"; contribution := bonus;
                           value := bonus |} ])
    else (score, adjustments) in
  if negb (get_flag features "breakout_strict") && get_flag features "provisional_candidate" then
    ((score - penalty)%float,
     adjustments ++ [ {| feature := "weak_breakout_penalty"; contribution := (- penalty)%float;
                         value := penalty |} ])
  else (score, adjustments).

(** One element of the tick's proposal list: the dictionary the engine
    loop builds per instrument, with the two keys ranking adds. *)
Record Entry := {
  e_pair : PairStats;
  e_symbol : string;
  e_token_mint : string;
  e_state : TokenState;
  e_snapshot : Snapshot;
  e_chain_features : gmap string PyVal;
  e_proposal : ActionProposal;
  e_momentum_score : option float;
  e_score_adjustments : option (list Component) }.

Definition set_e_proposal (p : ActionProposal) (e : Entry) : Entry :=
  {| e_pair := e_pair e; e_symbol := e_symbol e; e_token_mint := e_token_mint e;
     e_state := e_state e; e_snapshot := e_snapshot e;
     e_chain_features := e_chain_features e; e_proposal := p;
     e_momentum_score := e_momentum_score e;
     e_score_adjustments := e_score_adjustments e |}.

Definition set_e_scores (score : float) (adjustments : list Component) (e : Entry) : Entry :=
  {| e_pair := e_pair e; e_symbol := e_symbol e; e_token_mint := e_token_mint e;
     e_state := e_state e; e_snapshot := e_snapshot e;
     e_chain_features := e_chain_features e; e_proposal := e_proposal e;
     e_momentum_score := Some score;
     e_score_adjustments := Some adjustments |}.

Definition is_probe_buy (e : Entry) : bool :=
  String.eqb (action (e_proposal e)) ACTION_PROBE_BUY.

(** The positions, from [k] on, of the elements of [xs] that satisfy [p]:
    the list comprehension [[x for x in xs if p(x)]] keeps references to
    the dictionaries of [xs], which are identified here by position. *)
Fixpoint positions_where {A : Type} (p : A -> bool) (k : nat) (xs : list A) : list nat :=
  match xs with
  | [] => []
  | x :: rest =>
      if p x then k :: positions_where p (S k) rest else positions_where p (S k) rest
  end.

(** The body of the scoring loop for one entry. *)
Definition score_entry (config : Config) (lookback : Z) (entry : Entry) : option Entry :=
  score_detail ← _momentum_score_detail (candles (e_snapshot entry)) lookback;
  let raw_score := total score_detail in
  let '(adjusted, adjustments) :=
    _apply_score_adjustments raw_score (features (e_snapshot entry)) config in
  Some (set_e_scores adjusted adjustments entry).

(** The adjusted momentum score the loop stores for an entry. *)
Definition adjusted_score (config : Config) (lookback : Z) (entry : Entry) : option float :=
  score_detail ← _momentum_score_detail (candles (e_snapshot entry)) lookback;
  Some (fst (_apply_score_adjustments (total score_detail) (features (e_snapshot entry)) config)).

(** The scoring loop: each referenced dictionary is updated in place. *)
Fixpoint score_entries (config : Config) (lookback : Z) (entries : list nat)
    (proposals : list Entry) : option (list Entry) :=
  match entries with
  | [] => Some proposals
  | i :: rest =>
      entry ← proposals !! i;
      entry ← score_entry config lookback entry;
      score_entries config lookback rest (<[i := entry]> proposals)
  end.

(** [proposal.model_copy(update={"action": HOLD, "reason_codes": ... + ["RANKED_OUT"]})]. *)
Definition ranked_out (proposal : ActionProposal) : ActionProposal :=
  {| action := ACTION_HOLD;
     reason_codes := reason_codes proposal ++ ["RANKED_OUT"];
     guards := guards proposal;
     expires_at := expires_at proposal |}.

Definition demote (entry : Entry) : Entry :=
  set_e_proposal (ranked_out (e_proposal entry)) entry.

(** [_rank_entry_proposals]: returns the proposal list as the call leaves
    it. *)
Definition _rank_entry_proposals (proposals : list Entry) (config : Config)
    : option (list Entry) :=
  let rules_cfg := rules_of config in
  let top_n := default 0 (top_n_per_tick rules_cfg) in
  let min_candidates := default 0 (min_candidates_before_rank rules_cfg) in
  let lookback := default 20 (momentum_lookback rules_cfg) in
  let entries := positions_where is_probe_buy 0 proposals in
  if (top_n <=? 0) || (Z.of_nat (length entries) <? Z.max 1 min_candidates) then Some proposals
  else
    proposals ← score_entries config lookback entries proposals;
    let key (i : nat) : float :=
      match proposals !! i with
      | Some entry => default 0%float (e_momentum_score entry)
      | None => 0%float
      end in
    let entries := sort_desc key entries in
    Some (foldl (fun ps i => alter demote i ps) proposals (py_slice entries (Some top_n) None)).

End Ranking.

(** [entry.get("momentum_score", 0.0)], the sort key of the ranking. *)
Definition stored_score (entry : Entry) : float := default 0%float (e_momentum_score entry).

Definition is_hold (e : Entry) : bool :=
  String.eqb (action (e_proposal e)) ACTION_HOLD.

(** The number of entries of a tick's list that satisfy [p]; in
    particular the number of PROBE_BUY and of HOLD proposals. *)
Definition count_where (p : Entry -> bool) (proposals : list Entry) : nat :=
  length (filter (fun e => p e = true) proposals).

Definition probe_buy_count (proposals : list Entry) : nat := count_where is_probe_buy proposals.
Definition hold_count (proposals : list Entry) : nat := count_where is_hold proposals.

(** [e'] is [e] as the scoring loop may leave it: untouched, or with the
    two score keys set. *)
Definition scored_from (e e' : Entry) : Prop :=
  e' = e \/ exists score adjustments, e' = set_e_scores score adjustments e.

(** ** Concrete inputs used to exercise the definitions *)

Definition demo_config : Config :=
  {| positioning :=
       Some {| capital_usd := Some 1000%float; probe_pct := Some 0.25%float;
               add_pct := Some 0.5%float; tp1_scale_out_pct := Some 0.25%float;
               tp2_scale_out_pct := Some 0.5%float |};
     engine := Some {| cooldown_candles := Some 3; poll_interval_sec := Some 1 |};
     rules := None;
     risk := Some {| min_liquidity_usd := Some 50000%float; max_slippage_bps := Some 150 |};
     reentry :=
       Some {| lockout_candles := Some 4; min_breakout_pct := Some 0.05%float;
               candle_seconds := None; vol_mult_unlock := None |};
     stops := None;
     breakout := None |}.

Definition demo_pair : PairStats :=
  {| pair_id := "PAIR"; token_mint := "MINT"; price_usd := 2%float;
     liquidity_usd := 100000%float; volume_5m := 0%float; txns_5m := 0 |}.

Definition demo_snapshot : Snapshot :=
  {| pair := demo_pair; candles := []; support_zones := []; resistance_zones := [];
     features := ∅; regime_score := 50; now_ts := 600; candle_index := Some 10;
     last_close := 2%float; last_low := 1.5%float; last_high := 2.5%float;
     resistance_levels := []; support_level := None |}.




Definition demo_calls : list Call :=
  [ CallAdvanceTime;
    CallApplyAction "PROBE_BUY" demo_snapshot None None;
    CallAdvanceTime;
    CallApplyAction "ADD_BUY" demo_snapshot None None;
    CallApplyAction "SCALE_OUT_20" demo_snapshot None None;
    CallApplyAction "EXIT_FULL" demo_snapshot None (Some ["STRUCT_STOP"]);
    CallAdvanceTime ].

(** A strict breakout at candle 10 over the reference high 2.0, and the
    next candle closing 5% above it. *)
Definition demo_first : Snapshot :=
  {| pair := demo_pair; candles := []; support_zones := []; resistance_zones := [];
     features := {[ "breakout_strict" := VBool true; "highest_close" := VFloat 2%float;
                    "avg_volume" := VFloat 100%float ]};
     regime_score := 50; now_ts := 600; candle_index := Some 10;
     last_close := 2.125%float; last_low := 2%float; last_high := 2.25%float;
     resistance_levels := []; support_level := None |}.


(** Two winning trades. *)
Definition demo_trades : list (gmap string PyVal) :=
  [ {[ "pnl_usd" := VFloat 50; "return_pct" := VFloat 0.2 ]};
    {[ "pnl_usd" := VFloat 25; "return_pct" := VFloat 0.1 ]} ].

(** One trade that neither wins nor loses, its values being integers. *)
Definition flat_trades : list (gmap string PyVal) :=
  [ {[ "pnl_usd" := VInt 0; "return_pct" := VInt 0 ]} ].

(** One trade whose [pnl_usd] is the integer [2^1024], beyond every
    binary64 number. *)
Definition huge_pnl_trades : list (gmap string PyVal) :=
  [ {[ "pnl_usd" := VInt (2 ^ 1024); "return_pct" := VFloat 0.1 ]} ].

(** Three entry candidates of one tick: a flat token, one that doubled and
    one that halved. *)
Definition candles_of_closes (c0 c1 c2 : float) : list Candle :=
  [ {| t := 0; o := c0; h := c0 + 0.25; l := c0 - 0.25; c := c0; v := 10 |};
    {| t := 60; o := c1; h := c1 + 0.25; l := c1 - 0.25; c := c1; v := 10 |};
    {| t := 120; o := c2; h := c2 + 0.25; l := c2 - 0.25; c := c2; v := 10 |} ]%float.

Definition demo_entry (symbol : string) (c0 c1 c2 : float) : Entry :=
  let snap :=
    {| pair := demo_pair; candles := candles_of_closes c0 c1 c2; support_zones := [];
       resistance_zones := [];
       features := {[ "breakout_strict" := VBool true ]};
       regime_score := 50; now_ts := 120; candle_index := Some 2;
       last_close := c2; last_low := (c2 - 0.25)%float; last_high := (c2 + 0.25)%float;
       resistance_levels := []; support_level := None |} in
  {| e_pair := demo_pair; e_symbol := symbol; e_token_mint := symbol;
     e_state := initial_state; e_snapshot := snap; e_chain_features := ∅;
     e_proposal := {| action := ACTION_PROBE_BUY; reason_codes := ["BREAKOUT_CONFIRM"];
                      guards := ∅; expires_at := Some 121 |};
     e_momentum_score := None; e_score_adjustments := None |}.

Definition demo_proposals : list Entry :=
  [ demo_entry "FLAT" 1 1 1; demo_entry "UP" 1 1 2; demo_entry "DOWN" 2 2 1 ].

Definition rank_config : Config :=
  {| positioning := None; engine := None;
     rules := Some {| progress := None; confirm_min_close_above_pct := None;
                      confirm_max_retrace_pct := None; add_trigger_up_pct := None;
                      time_stop_candles := None; top_n_per_tick := Some 1;
                      min_candidates_before_rank := Some 2; momentum_lookback := Some 2 |};
     risk := None; reentry := None; stops := None; breakout := None |}.

(** ** The repository's unit tests, as inputs

    tests/test_reentry_lockout.py, tests/test_pending_breakout.py and
    tests/test_struct_stop.py build the values below. *)

Definition test_reentry_cfg : Config :=
  {| positioning := None; engine := None; rules := None; risk := None;
     reentry := Some {| lockout_candles := Some 10; min_breakout_pct := Some 0.10%float;
                        candle_seconds := None; vol_mult_unlock := None |};
     stops := None; breakout := None |}.

Definition test_interval_candles : list Candle :=
  [ {| t := 1000; o := 1; h := 1; l := 1; c := 1; v := 1 |};
    {| t := 1300; o := 1; h := 1; l := 1; c := 1; v := 1 |};
    {| t := 1600; o := 1; h := 1; l := 1; c := 1; v := 1 |} ].

Definition test_pair (close : float) : PairStats :=
  {| pair_id := "PAIR1"; token_mint := "TOKEN1"; price_usd := close;
     liquidity_usd := 100000%float; volume_5m := 1000%float; txns_5m := 10 |}.

(** [_make_snapshot] of tests/test_pending_breakout.py. *)
Definition _make_snapshot (index : Z) (close low high : float) (breakout : bool)
    (highest_close : float) : Snapshot :=
  let candle :=
    {| t := 1700000000 + index * 60; o := close; h := high; l := low; c := close;
       v := 1000%float |} in
  {| pair := test_pair close; candles := [candle]; support_zones := [];
     resistance_zones := [];
     features := {[ "breakout" := VBool breakout; "highest_close" := VFloat highest_close;
                    "avg_volume" := VFloat 1000 ]};
     regime_score := 50; now_ts := t candle; candle_index := Some index;
     last_close := close; last_low := low; last_high := high;
     resistance_levels := []; support_level := None |}.

Definition test_pending_cfg : Config :=
  {| positioning := None;
     engine := Some {| cooldown_candles := None; poll_interval_sec := Some 1 |};
     rules := Some {| progress := None; confirm_min_close_above_pct := Some 0.01%float;
                      confirm_max_retrace_pct := Some 0.05%float;
                      add_trigger_up_pct := Some 0.10%float; time_stop_candles := Some 120;
                      top_n_per_tick := None; min_candidates_before_rank := None;
                      momentum_lookback := None |};
     risk := Some {| min_liquidity_usd := None; max_slippage_bps := Some 150 |};
     reentry := Some {| lockout_candles := Some 1500; min_breakout_pct := Some 0.10%float;
                        candle_seconds := None; vol_mult_unlock := Some 2%float |};
     stops := Some {| stop_buffer_pct := Some 0.15%float |};
     breakout := None |}.

(** A scouting state with a breakout pending since candle 10. *)
Definition test_pending_state (expires : Z) : TokenState :=
  set_pending_breakout_expires_index (Some expires)
    (set_pending_breakout_level (Some 1%float)
       (set_pending_breakout_index (Some 10) initial_state)).

Definition test_struct_stop_cfg : Config :=
  {| positioning := None;
     engine := Some {| cooldown_candles := None; poll_interval_sec := Some 1 |};
     rules := Some {| progress := None; confirm_min_close_above_pct := None;
                      confirm_max_retrace_pct := None;
                      add_trigger_up_pct := Some 0.10%float; time_stop_candles := Some 120;
                      top_n_per_tick := None; min_candidates_before_rank := None;
                      momentum_lookback := None |};
     risk := Some {| min_liquidity_usd := None; max_slippage_bps := Some 150 |};
     reentry := Some {| lockout_candles := Some 480; min_breakout_pct := Some 0.10%float;
                        candle_seconds := None; vol_mult_unlock := Some 2%float |};
     stops := Some {| stop_buffer_pct := Some 0%float |};
     breakout := None |}.

Definition test_struct_stop_snapshot : Snapshot :=
  {| pair := test_pair 0.9;
     candles := [ {| t := 1700000000; o := 1; h := 1; l := 0.8; c := 0.9; v := 1000 |} ];
     support_zones := []; resistance_zones := [];
     features := {[ "avg_volume" := VFloat 1000; "breakout" := VBool false ]};
     regime_score := 50; now_ts := 1700000000; candle_index := None;
     last_close := 0.9%float; last_low := 0.8%float; last_high := 1%float;
     resistance_levels := []; support_level := None |}.

Definition test_struct_stop_state : TokenState :=
  set_probe_entry_low (Some 1%float)
    (set_probe_entry_price (Some 1%float) (set_status STATE_PROBE initial_state)).

(** * Further definitions: the rest of the cited modules and their callers *)

(** [n] successive [advance_time] calls. *)
Fixpoint advance_time_n (n : nat) (state : TokenState) : TokenState :=
  match n with
  | O => state
  | S k => advance_time (advance_time_n k state)
  end.

(** ** Vocabulary for the policy's effect on the state *)

(** The actions [propose_action] can answer in each status. *)
Definition policy_actions (status : string) : list string :=
  if String.eqb status STATE_SCOUT then [ACTION_HOLD; ACTION_PROBE_BUY]
  else if String.eqb status STATE_PROBE then [ACTION_HOLD; ACTION_ADD_BUY; ACTION_EXIT_FULL]
  else if String.eqb status STATE_TRADE then
    [ACTION_HOLD; ACTION_SCALE_OUT_20; ACTION_EXIT_FULL]
  else [ACTION_HOLD].

(** The fields of the state that describe the position and the last exit. *)
Definition position_fields (s : TokenState) :=
  (status s, probe_entry_price s, probe_entry_low s, add_entry_price s, position_usd s,
   time_in_trade s, cooldown_left s, scale_out_stage s, last_exit_ts s, last_exit_price s,
   last_exit_index s, entry_index s, entry_price s).

(** ** The calls made on one token's state

    The orchestrator (app/orchestrator/runner.py) and the backtest
    (app/backtest/simulate.py) mutate a token's state through three
    functions only: [advance_time], [propose_action] and [apply_action]. *)
Inductive EngineCall : Type :=
| EngineAdvanceTime
| EngineProposeAction (snapshot : Snapshot) (config : Config)
| EngineApplyAction (action : string) (snapshot : Snapshot) (config : option Config)
    (exit_reason_codes : option (list string)).

Definition engine_step (get_config : Config) (state : TokenState) (call : EngineCall)
    : TokenState :=
  match call with
  | EngineAdvanceTime => advance_time state
  | EngineProposeAction snap cfg => (propose_action snap state cfg).1
  | EngineApplyAction a snap cfg codes => apply_action get_config state a snap cfg codes
  end.

Definition engine_run (get_config : Config) (calls : list EngineCall) (state : TokenState)
    : TokenState :=
  fold_left (engine_step get_config) calls state.

(** The status is one of the four the state machine knows. *)
Definition valid_status (state : TokenState) : Prop :=
  status state ∈ [STATE_SCOUT; STATE_PROBE; STATE_TRADE; STATE_COOLDOWN].

(** The pending-breakout fields are set together or not at all, the expiry
    three candles after the breakout, and only while scouting. *)
Definition pending_consistent (state : TokenState) : Prop :=
  pending_clear state \/
  (status state = STATE_SCOUT /\ exists i lvl, pending_armed state i lvl).

Definition engine_invariant (state : TokenState) : Prop :=
  valid_status state /\ pending_consistent state /\ flat_when_idle state.

(** The status changes one tick (an [advance_time], a [propose_action] and
    the [apply_action] of the decided action) can make. *)
Definition status_edge (from to : string) : bool :=
  String.eqb from to
  || String.eqb from STATE_SCOUT && String.eqb to STATE_PROBE
  || String.eqb from STATE_PROBE && (String.eqb to STATE_TRADE || String.eqb to STATE_COOLDOWN)
  || String.eqb from STATE_TRADE && String.eqb to STATE_COOLDOWN
  || String.eqb from STATE_COOLDOWN && (String.eqb to STATE_SCOUT || String.eqb to STATE_PROBE).

(** ** Comparing floats as Python values *)

(** [a == b], or both are NaN: the two floats print and compare alike,
    up to the sign of a zero. *)
Definition float_same (a b : float) : Prop :=
  (a =? b)%float = true \/ (Prim2SF a = S754_nan /\ Prim2SF b = S754_nan).

(** The same on specification floats: equal, or zeros of either sign. *)
Definition sf_same (a b : spec_float) : Prop :=
  a = b \/ exists s s', a = S754_zero s /\ b = S754_zero s'.

(** ** Support and resistance zones (app/signals/sr_levels.py) *)

(** [zones.sort(key=key)]: a stable sort into ascending key order,
    comparing keys with [<] only.  It is modelled by a stable insertion
    sort, which returns the same list whenever no key is a NaN. *)
Fixpoint insert_asc {A : Type} (key : A -> float) (x : A) (xs : list A) : list A :=
  match xs with
  | [] => [x]
  | y :: ys => if (key y <? key x)%float then y :: insert_asc key x ys else x :: xs
  end.

Definition sort_asc {A : Type} (key : A -> float) (xs : list A) : list A :=
  foldr (insert_asc key) [] xs.

(** [a] may stand before [b] in ascending key order: the key of [b] is not
    smaller. *)
Definition not_above {A : Type} (key : A -> float) (a b : A) : Prop :=
  (key b <? key a)%float = false.

(** The body of the loop over [levels]: the first zone that contains
    [price] absorbs it; when there is none, a new zone of strength 1 is
    appended.  [lo] and [hi] are the source's [low] and [high]. *)
Fixpoint absorb_level (price lo hi : float) (zones : list Zone) : list Zone :=
  match zones with
  | [] => [ {| low := lo; high := hi; strength := 1 |} ]
  | zone :: rest =>
      if (low zone <=? price)%float && (price <=? high zone)%float then
        {| low := Py.min2 (low zone) lo; high := Py.max2 (high zone) hi;
           strength := strength zone + 1 |} :: rest
      else zone :: absorb_level price lo hi rest
  end.

Definition cluster_level (zones : list Zone) (price : float) : list Zone :=
  let width := (price * 0.01)%float in
  let lo := (price - width / 2)%float in
  let hi := (price + width / 2)%float in
  absorb_level price lo hi zones.

Definition _cluster_levels (levels : list float) : list Zone :=
  let zones := fold_left cluster_level levels [] in
  sort_asc low zones.

(** The loop [for i in range(2, len(candles) - 2)] as a window of five
    candles sliding over the list: the middle candle is a swing high when
    its high exceeds the highs of its four neighbours. *)
Fixpoint swing_highs (candles : list Candle) : list float :=
  match candles with
  | c0 :: ((c1 :: c2 :: c3 :: c4 :: _) as rest) =>
      let neighbors_high := Py.max_list (h c0) [h c1; h c3; h c4] in
      if (neighbors_high <? h c2)%float then h c2 :: swing_highs rest else swing_highs rest
  | _ => []
  end.

Fixpoint swing_lows (candles : list Candle) : list float :=
  match candles with
  | c0 :: ((c1 :: c2 :: c3 :: c4 :: _) as rest) =>
      let neighbors_low := Py.min_list (l c0) [l c1; l c3; l c4] in
      if (l c2 <? neighbors_low)%float then l c2 :: swing_lows rest else swing_lows rest
  | _ => []
  end.

(** [compute_sr_zones] returns [(support, resistance)]. *)
Definition compute_sr_zones (candles : list Candle) : list Zone * list Zone :=
  if Z.of_nat (length candles) <? 5 then ([], [])
  else
    let resistance := _cluster_levels (swing_highs candles) in
    let support := _cluster_levels (swing_lows candles) in
    (support, resistance).

(** The sum of the strengths of a list of zones. *)
Definition total_strength (zones : list Zone) : Z :=
  foldr (fun zone acc => strength zone + acc) 0 zones.

(** ** Chain risk and chain override (app/orchestrator/runner.py)

    Chain features are a dictionary of booleans, integers and floats. *)

(** [_safe_float]: the value as a float, [None] for a missing value
    ([float(None)] raises [TypeError], which the function catches).  It
    catches [TypeError] and [ValueError] only: on an integer beyond the
    binary64 range [float] raises [OverflowError], which escapes, where
    [py_float] gives an infinity.  Statements that assert an outcome for
    given chain features carry the premise [chain_features_convert]. *)
Definition _safe_float (value : option PyVal) : option float := py_float <$> value.

(** The chain features that [_apply_chain_risk] hands to [_safe_float]. *)
Definition chain_risk_keys : list string :=
  [ "chain_net_native"; "chain_net_token"; "chain_liquidity_events";
    "chain_liquidity_remove_events"; "chain_tx_count"; "chain_tx_velocity_per_min" ].

(** Each of them, where present, is a value [float] converts. *)
Definition chain_features_convert (chain_features : gmap string PyVal) : Prop :=
  forall key value,
    key ∈ chain_risk_keys -> chain_features !! key = Some value ->
    is_Some (float_of_value value).

(** [if reason not in merged: merged.append(reason)]. *)
Definition append_new (merged : list string) (reason : string) : list string :=
  if str_in reason merged then merged else merged ++ [reason].

(** The risk reasons [_apply_chain_risk] collects from the chain features. *)
Definition chain_risk_reasons (chain_features : gmap string PyVal) : list string :=
  let reasons : list string := [] in
  let net_native := _safe_float (chain_features !! "chain_net_native") in
  let net_token := _safe_float (chain_features !! "chain_net_token") in
  let reasons :=
    if match net_native with Some x => (x <? 0)%float | None => false end
    then reasons ++ ["NET_OUTFLOW"] else reasons in
  let reasons :=
    if match net_token with Some x => (x <? 0)%float | None => false end
       && negb (str_in "NET_OUTFLOW" reasons)
    then reasons ++ ["NET_OUTFLOW"] else reasons in
  let liquidity_events := _safe_float (chain_features !! "chain_liquidity_events") in
  let liquidity_removes := _safe_float (chain_features !! "chain_liquidity_remove_events") in
  let reasons :=
    if match liquidity_removes with Some x => (0 <? x)%float | None => false end
    then reasons ++ ["LIQUIDITY_RISK"]
    else if match liquidity_events with Some x => (x <? 0)%float | None => false end
    then reasons ++ ["LIQUIDITY_RISK"]
    else reasons in
  let tx_count := _safe_float (chain_features !! "chain_tx_count") in
  let velocity := _safe_float (chain_features !! "chain_tx_velocity_per_min") in
  match velocity, tx_count with
  | Some velocity, Some tx_count =>
      if (8 <=? velocity)%float && (tx_count <? 40)%float
      then reasons ++ ["DEAD_AFTER_SPIKE"] else reasons
  | _, _ => reasons
  end.

(** [_apply_chain_risk]: [chain_features] may be [None] or empty. *)
Definition _apply_chain_risk (proposal : ActionProposal)
    (chain_features : option (gmap string PyVal)) : ActionProposal :=
  match chain_features with
  | None => proposal
  | Some chain_features =>
      if bool_decide (chain_features = ∅) then proposal
      else if str_in (action proposal) [ACTION_EXIT_FULL; ACTION_SCALE_OUT_20] then proposal
      else
        match chain_risk_reasons chain_features with
        | [] => proposal
        | reasons =>
            let merged := fold_left append_new reasons (reason_codes proposal) in
            if str_in (action proposal) [ACTION_PROBE_BUY; ACTION_ADD_BUY] then
              {| action := ACTION_HOLD; reason_codes := merged;
                 guards := guards proposal; expires_at := expires_at proposal |}
            else if String.eqb (action proposal) ACTION_HOLD then
              {| action := action proposal; reason_codes := merged;
                 guards := guards proposal; expires_at := expires_at proposal |}
            else proposal
        end
  end.

(** The keys of [config["breakout"]] that [_apply_chain_override_flags]
    reads. *)
Record ChainOverrideCfg := {
  chain_override_min_tx_velocity_per_min : option float;
  chain_override_min_swap_count : option float;
  chain_override_min_net_native : option float;
  chain_override_min_liquidity_events : option float;
  chain_override_enabled : option bool }.

(** [x or 0.0] for an optional float: [None] and zero give [0.0]. *)
Definition or_zero (x : option float) : float :=
  match x with
  | Some a => if Py.truthy a then a else 0%float
  | None => 0%float
  end.

Definition set_features (features : gmap string PyVal) (s : Snapshot) : Snapshot :=
  {| pair := pair s; candles := candles s; support_zones := support_zones s;
     resistance_zones := resistance_zones s; features := features;
     regime_score := regime_score s; now_ts := now_ts s; candle_index := candle_index s;
     last_close := last_close s; last_low := last_low s; last_high := last_high s;
     resistance_levels := resistance_levels s; support_level := support_level s |}.

(** [_apply_chain_override_flags]: returns the snapshot as the call leaves
    it. *)
Definition _apply_chain_override_flags (snapshot : Snapshot)
    (chain_features : gmap string PyVal) (breakout_cfg : ChainOverrideCfg) : Snapshot :=
  let breakout_strict :=
    match features snapshot !! "breakout_strict" with
    | Some v => py_bool v
    | None => get_flag (features snapshot) "breakout"
    end in
  let chain_confirmed :=
    if bool_decide (chain_features = ∅) then false
    else
      let min_velocity := default 0%float (chain_override_min_tx_velocity_per_min breakout_cfg) in
      let min_swaps := default 0%float (chain_override_min_swap_count breakout_cfg) in
      let min_net_native := default 0%float (chain_override_min_net_native breakout_cfg) in
      let min_liquidity_events :=
        default 0%float (chain_override_min_liquidity_events breakout_cfg) in
      let velocity := or_zero (_safe_float (chain_features !! "chain_tx_velocity_per_min")) in
      let swap_count := or_zero (_safe_float (chain_features !! "chain_swap_count")) in
      let net_native := or_zero (_safe_float (chain_features !! "chain_net_native")) in
      let liquidity_events :=
        or_zero (_safe_float (chain_features !! "chain_liquidity_events")) in
      (min_velocity <=? velocity)%float
      && (min_swaps <=? swap_count)%float
      && (min_net_native <=? net_native)%float
      && (min_liquidity_events <=? liquidity_events)%float in
  let chain_override_enabled := default true (chain_override_enabled breakout_cfg) in
  let chain_override := negb breakout_strict && chain_override_enabled && chain_confirmed in
  let provisional_candidate := breakout_strict || chain_override in
  let features := features snapshot in
  let features := <["breakout_strict" := VBool breakout_strict]> features in
  let features := <["chain_confirmed" := VBool chain_confirmed]> features in
  let features := <["chain_override" := VBool chain_override]> features in
  let features := <["provisional_candidate" := VBool provisional_candidate]> features in
  set_features features snapshot.

(** [_score_for_entry]: the stored score, or the adjusted momentum score
    computed afresh. *)
Definition _score_for_entry (log1p : float -> float) (entry : Entry) (config : Config)
    : option float :=
  match e_momentum_score entry with
  | Some score => Some score
  | None =>
      let lookback := default 20 (momentum_lookback (rules_of config)) in
      let snapshot := e_snapshot entry in
      score_detail ← _momentum_score_detail log1p (candles snapshot) lookback;
      Some (fst (_apply_score_adjustments (total score_detail) (features snapshot) config))
  end.

(** ** Snapshots (app/orchestrator/snapshot.py) *)

(** The keys of the configuration that [build_snapshot] reads:
    [breakout_lookback] and [vol_multiplier] of [config["rules"]], the
    others of [config["breakout"]]. *)
Record SnapshotCfg := {
  breakout_lookback : option Z;
  vol_multiplier : option float;
  compression_max_range_ratio : option float;
  compression_lookback_bars : option Z;
  expansion_min_pct : option float;
  expansion_reference : option string }.

(** [int(v)] for a feature value; raises on a NaN or an infinity. *)
Definition py_int (v : PyVal) : option Z :=
  match v with
  | VBool b => Some (if b then 1 else 0)
  | VInt n => Some n
  | VFloat x => Py.int_of_float x
  end.

(** [build_snapshot].  [mean] stands for [statistics.mean], as in
    [compute_features]; [features.update(extra_features)] lets the extra
    features win over the computed ones. *)
Definition build_snapshot (mean : list float -> float) (pair : PairStats)
    (candles : list Candle) (config : SnapshotCfg) (candle_index : option Z)
    (extra_features : option (gmap string PyVal)) : option Snapshot :=
  let '(support_raw, resistance_raw) := compute_sr_zones candles in
  let support_zones := support_raw in
  let resistance_zones := resistance_raw in
  let lookback := default 20 (breakout_lookback config) in
  let vol_multiplier := default 1%float (vol_multiplier config) in
  let compression_max_range_ratio :=
    default 1.25%float (compression_max_range_ratio config) in
  let compression_lookback := compression_lookback_bars config in
  let expansion_min_pct := default 0.06%float (expansion_min_pct config) in
  let expansion_reference := default "highest_close" (expansion_reference config) in
  features ←
    compute_features mean candles lookback vol_multiplier compression_max_range_ratio
      compression_lookback expansion_min_pct expansion_reference;
  let features :=
    match extra_features with
    | Some extra => if bool_decide (extra = ∅) then features else extra ∪ features
    | None => features
    end in
  regime_score ← py_int (default (VInt 0) (features !! "regime_score"));
  last ← py_last candles;
  let last_close := c last in
  let last_low := l last in
  let last_high := h last in
  let now_ts := t last in
  let resistance_levels :=
    filter (fun zone => (last_close <=? low zone)%float = true) resistance_zones in
  let resistance_levels := sort_asc low resistance_levels in
  let resistance_levels := py_slice resistance_levels None (Some 3) in
  let support_levels :=
    filter (fun zone => (high zone <=? last_close)%float = true) support_zones in
  let support_levels := sort_asc low support_levels in
  let support_level := py_last support_levels in
  Some {| pair := pair; candles := candles; support_zones := support_zones;
          resistance_zones := resistance_zones; features := features;
          regime_score := regime_score; now_ts := now_ts; candle_index := candle_index;
          last_close := last_close; last_low := last_low; last_high := last_high;
          resistance_levels := resistance_levels; support_level := support_level |}.

(** A trending market for exercising [build_snapshot] with the policy:
    one swing high at 2.0, whose zone starts exactly at the last close. *)
Definition touch_candles : list Candle :=
  [ {| t := 0; o := 1; h := 1; l := 1; c := 1; v := 10 |};
    {| t := 60; o := 1; h := 1; l := 1; c := 1; v := 10 |};
    {| t := 120; o := 1; h := 2; l := 1; c := 1; v := 10 |};
    {| t := 180; o := 1; h := 1; l := 1; c := 1; v := 10 |};
    {| t := 240; o := 1; h := 1; l := 1; c := 2 - 2 * 0.01 / 2; v := 10 |} ]%float.

Definition default_snapshot_cfg : SnapshotCfg :=
  {| breakout_lookback := None; vol_multiplier := None;
     compression_max_range_ratio := None; compression_lookback_bars := None;
     expansion_min_pct := None; expansion_reference := None |}.

(** ** Chain flows (app/data/chain_types.py, app/data/helius/features.py) *)

Record NativeTransfer := {
  from_user : string;
  to_user : string;
  amount : Z }.

(** The fields of [EnhancedTx] that the flow computations read. *)
Record EnhancedTx := {
  signature : string;
  timestamp : Z;
  native_transfers : list NativeTransfer }.

(** The body of the loop over the native transfers. *)
Definition flow_step (address : string) (net : Z) (transfer : NativeTransfer) : Z :=
  let net := if String.eqb (to_user transfer) address then net + amount transfer else net in
  if String.eqb (from_user transfer) address then net - amount transfer else net.

(** [compute_net_native_flow]: what [address] receives minus what it
    sends, over the native transfers of [tx]. *)
Definition compute_net_native_flow (tx : EnhancedTx) (address : string) : Z :=
  fold_left (flow_step address) (native_transfers tx) 0.

(** [sum(xs)] over integers. *)
Definition sum_Z (xs : list Z) : Z := foldr Z.add 0 xs.

(** ** The decision on a proposal (app/orchestrator/runner.py, run_engine)

    [validated = validate_action(proposal, snapshot, state, cfg)] followed
    by [validated = _apply_chain_risk(validated, item.get("chain_features"))]. *)
Definition decide_action (proposal : ActionProposal) (snapshot : Snapshot)
    (state : TokenState) (config : Config) (chain_features : option (gmap string PyVal))
    : option ActionProposal :=
  validated ← validate_action proposal snapshot state config;
  Some (_apply_chain_risk validated chain_features).

(** The chain features give [_apply_chain_risk] no reason to object. *)
Definition no_chain_risk (chain_features : option (gmap string PyVal)) : Prop :=
  match chain_features with
  | None => True
  | Some m => m = ∅ \/ chain_risk_reasons m = []
  end.

(** * Properties *)

(** ** Float comparison facts *)

Lemma float_zero_mul_not_pos (p y : float) :
  (p =? 0)%float = true -> (0 <? p * y)%float = false.
Proof.
  rewrite FloatAxioms.eqb_spec, FloatAxioms.ltb_spec, FloatAxioms.mul_spec.
  destruct (Prim2SF p) as [sp|sp| |sp mp ep], (Prim2SF y) as [sy|sy| |sy my ey];
    cbn; try discriminate; auto;
    destruct sp; discriminate.
Qed.

(** ** State machine *)

Lemma advance_time_flat (state : TokenState) :
  flat_when_idle state -> flat_when_idle (advance_time state).
Proof.
  unfold flat_when_idle, advance_time.
  unfold STATE_SCOUT, STATE_PROBE, STATE_TRADE, STATE_COOLDOWN.
  destruct state as [st ? ? ? pos tit cl ? ? ? ? ? ? ? ? ? ? ? ? ?]; cbn.
  intros Inv.
  destruct (String.eqb_spec st "PROBE") as [->|NP]; cbn.
  { intros [H|H]; discriminate H. }
  destruct (String.eqb_spec st "TRADE") as [->|NT]; cbn.
  { intros [H|H]; discriminate H. }
  destruct (String.eqb_spec st "COOLDOWN") as [->|NC]; cbn.
  - destruct (0 <? cl); cbn; [destruct (cl - 1 <=? 0); cbn|]; intros _; apply Inv; now right.
  - exact Inv.
Qed.

Lemma apply_action_flat (get_config : Config) (state : TokenState) (a : string)
    (snap : Snapshot) (config : option Config) (codes : option (list string)) :
  flat_when_idle state -> flat_when_idle (apply_action get_config state a snap config codes).
Proof.
  unfold flat_when_idle, apply_action.
  unfold STATE_SCOUT, STATE_PROBE, STATE_TRADE, STATE_COOLDOWN.
  destruct state as [st ? ? ? pos tit cl ? ? ? ? ei ? ? ? ? ep ? ? ?]; cbn.
  intros Inv.
  destruct (String.eqb a "PROBE_BUY").
  { destruct (candle_index snap); [destruct (0 <? _)|]; cbn; intros [H|H]; discriminate H. }
  destruct (String.eqb a "ADD_BUY").
  { destruct ei, ep; cbn; intros [H|H]; discriminate H. }
  destruct (String.eqb a "SCALE_OUT_20").
  { cbn. intros Idle. unfold Py.max2.
    rewrite float_zero_mul_not_pos by auto. reflexivity. }
  destruct (String.eqb a "EXIT_FULL").
  { cbn. intros _. reflexivity. }
  exact Inv.
Qed.

Lemma run_flat (get_config : Config) (calls : list Call) (state : TokenState) :
  flat_when_idle state -> flat_when_idle (run get_config calls state).
Proof.
  unfold run. revert state.
  induction calls as [|call calls IH]; intros state Inv; cbn; [exact Inv|].
  apply IH. destruct call; cbn.
  - now apply advance_time_flat.
  - now apply apply_action_flat.
Qed.

(** C1: starting from the initial [TokenState], every sequence of
    [advance_time] and [apply_action] calls (with any action string, any
    snapshot, configuration and reason codes) ends in a state whose
    [position_usd == 0] whenever its status is SCOUT or COOLDOWN. *)
Theorem state_machine_flat_when_idle (get_config : Config) (calls : list Call) :
  let state := run get_config calls initial_state in
  status state = STATE_SCOUT \/ status state = STATE_COOLDOWN ->
  (position_usd state =? 0)%float = true.
Proof.
  apply (run_flat get_config calls initial_state). intros _. reflexivity.
Qed.

Lemma state_machine_flat_when_idle_witness :
  (position_usd (run demo_config demo_calls initial_state) =? 0)%float = true.
Proof.
  apply (state_machine_flat_when_idle demo_config demo_calls).
  right. reflexivity.
Defined.

(** ** Re-entry lockout *)

(** C3: after a stop exit ([last_exit_was_stop] true, exit price and both
    candle indices known, [lockout_candles > 0], no volume override),
    [can_reenter] is false while fewer than [3 * lockout_candles] bars have
    elapsed unless the close has reached
    [last_exit_price * (1 + min_breakout_pct)], and true once
    [3 * lockout_candles] bars have elapsed. *)
Theorem can_reenter_after_stop (state : TokenState) (cfg : Config)
    (now_ts now_index exit_index lockout : Z) (exit_price current_close : float)
    (interval_sec : option Z) :
  last_exit_was_stop state = true ->
  last_exit_price state = Some exit_price ->
  last_exit_index state = Some exit_index ->
  lockout_candles (reentry_of cfg) = Some lockout ->
  0 < lockout ->
  let min_breakout := default 0%float (min_breakout_pct (reentry_of cfg)) in
  let breakout := (exit_price * (1 + min_breakout) <=? current_close)%float in
  let result :=
    can_reenter now_ts (last_exit_ts state) (last_exit_index state) (last_exit_price state)
      current_close cfg false (last_exit_was_stop state) interval_sec (Some now_index) in
  (now_index - exit_index < 3 * lockout -> breakout = false -> result = false) /\
  (now_index - exit_index < 3 * lockout -> breakout = true -> result = true) /\
  (3 * lockout <= now_index - exit_index -> result = true).
Proof.
  intros Hstop Hprice Hindex Hlock Hpos min_breakout breakout result.
  subst result breakout min_breakout.
  unfold can_reenter, _lockout_candles.
  rewrite Hstop, Hprice, Hindex, Hlock. cbn.
  assert (Hnz : (lockout * 3 <=? 0) = false) by lia.
  rewrite Hnz.
  destruct (last_exit_ts state);
    (repeat split; intros Hidx;
     [ intros ->; replace (now_index - exit_index <? lockout * 3) with true by lia; reflexivity
     | intros ->; replace (now_index - exit_index <? lockout * 3) with true by lia; reflexivity
     | replace (now_index - exit_index <? lockout * 3) with false by lia; reflexivity ]).
Qed.

Lemma can_reenter_after_stop_witness :
  let state := set_last_exit_index (Some 10)
                 (set_last_exit_price (Some 2%float)
                    (set_last_exit_was_stop true initial_state)) in
  let cfg := {| positioning := None; engine := None; rules := None; risk := None;
                reentry := Some (Build_ReentryCfg (Some 4) (Some 0.05%float) None None);
                stops := None; breakout := None |} in
  can_reenter 0 (last_exit_ts state) (last_exit_index state) (last_exit_price state)
    2%float cfg false (last_exit_was_stop state) None (Some 21) = false
  /\ can_reenter 0 (last_exit_ts state) (last_exit_index state) (last_exit_price state)
    2%float cfg false (last_exit_was_stop state) None (Some 22) = true.
Proof.
  intros state cfg.
  split.
  - apply (can_reenter_after_stop state cfg 0 21 10 4 2%float 2%float None);
      try reflexivity; lia.
  - apply (can_reenter_after_stop state cfg 0 22 10 4 2%float 2%float None);
      try reflexivity; lia.
Defined.

(** ** Risk validator *)

(** C10: a HOLD proposal passes through [validate_action] unchanged,
    whatever the snapshot, state and configuration (no rejection check is
    evaluated, so it gains no REJECT_ code). *)
Theorem validate_action_hold_identity (proposal : ActionProposal) (snapshot : Snapshot)
    (state : TokenState) (config : Config) :
  action proposal = ACTION_HOLD ->
  validate_action proposal snapshot state config = Some proposal.
Proof.
  intros Hhold. unfold validate_action. rewrite Hhold. reflexivity.
Qed.

Lemma validate_action_hold_identity_witness :
  validate_action
    {| action := "HOLD"; reason_codes := ["COOLDOWN"]; guards := ∅; expires_at := None |}
    demo_snapshot (set_status STATE_COOLDOWN initial_state) demo_config
  = Some {| action := "HOLD"; reason_codes := ["COOLDOWN"]; guards := ∅; expires_at := None |}.
Proof.
  apply validate_action_hold_identity. reflexivity.
Defined.




(** ** Pending-breakout protocol *)

Lemma update_reentry_lockout_fields (state : TokenState) (now : Z) (cfg : Config)
    (interval : Z) (idx : option Z) :
  let state' := update_reentry_lockout state now cfg interval idx in
  status state' = status state /\
  pending_breakout_index state' = pending_breakout_index state /\
  pending_breakout_level state' = pending_breakout_level state /\
  pending_breakout_expires_index state' = pending_breakout_expires_index state.
Proof.
  unfold update_reentry_lockout.
  destruct (negb _); [easy|]. destruct (_lockout_expired _ _ _ _ _ _ _); [|easy].
  destruct state; easy.
Qed.

Lemma clear_pending_breakout_clear (state : TokenState) :
  pending_clear (clear_pending_breakout state) /\
  status (clear_pending_breakout state) = status state.
Proof. destruct state; repeat split. Qed.




(** ** Regime score *)

Lemma digits2_pos_bound (m : positive) : Z.pos m < 2 ^ Z.pos (digits2_pos m).
Proof.
  induction m as [m IH|m IH|]; cbn [digits2_pos].
  - rewrite Pos2Z.inj_succ, Z.pow_succ_r by lia. lia.
  - rewrite Pos2Z.inj_succ, Z.pow_succ_r by lia. lia.
  - reflexivity.
Qed.

(** A valid binary64 mantissa has at most 53 bits. *)
Lemma valid_mantissa_bound (s : bool) (m : positive) (e : Z) :
  valid_binary (S754_finite s m e) = true -> Z.pos m < 2 ^ 53.
Proof.
  cbn. unfold bounded, canonical_mantissa, fexp.
  intros H. apply andb_prop in H as [H _]. apply Z.eqb_eq in H.
  pose proof (digits2_pos_bound m) as Hd.
  assert (Hle : Z.pos (digits2_pos m) <= 53).
  { change prec with 53 in H. lia. }
  eapply Z.lt_le_trans; [exact Hd|].
  apply Z.pow_le_mono_r; lia.
Qed.

Lemma round_half_even_pos_bounds (m : positive) (e : Z) :
  e < 0 ->
  Z.pos m / 2 ^ (- e) <= Py.round_half_even_pos m e <= Z.pos m / 2 ^ (- e) + 1.
Proof.
  intros He. unfold Py.round_half_even_pos.
  replace (0 <=? e) with false by lia.
  rewrite Z.shiftr_div_pow2 by lia.
  destruct (_ || _)%bool; lia.
Qed.

(** Rounding a float strictly between 0 and 100 gives an integer of 0..100. *)
Lemma round_between_0_100 (x : float) :
  (0 <? x)%float = true -> (x <? 100)%float = true ->
  exists n, Py.round x = Some n /\ 0 <= n <= 100.
Proof.
  rewrite !FloatAxioms.ltb_spec.
  change (Prim2SF 0) with (S754_zero false).
  change (Prim2SF 100) with (S754_finite false 7036874417766400 (-46)).
  pose proof (Prim2SF_valid x) as Hvalid.
  unfold Py.round.
  destruct (Prim2SF x) as [s|s| |s m e]; try discriminate.
  - destruct s; discriminate.
  - intros Hpos Hlt. destruct s; [discriminate|].
    apply valid_mantissa_bound in Hvalid.
    unfold SFltb, SFcompare in Hlt.
    destruct (Z.compare_spec e (-46)) as [->|He|He]; try discriminate.
    + (* same exponent: the mantissa is below that of 100 *)
      destruct (Pos.compare_cont Eq m 7036874417766400) eqn:Hc; try discriminate.
      assert (Hm : Z.pos m < 7036874417766400) by (apply Pos2Z.pos_lt_pos; exact Hc).
      pose proof (round_half_even_pos_bounds m (-46) ltac:(lia)) as Hr.
      assert (E : 2 ^ (- -46) * 100 = 7036874417766400) by reflexivity.
      assert (Hq : Z.pos m / 2 ^ (- -46) < 100).
      { apply Z.div_lt_upper_bound; [lia|]. rewrite E. exact Hm. }
      assert (0 <= Z.pos m / 2 ^ (- -46)) by (apply Z.div_pos; lia).
      eexists; split; [reflexivity|]. lia.
    + (* smaller exponent: at most 53 bits shifted right by at least 47 *)
      pose proof (round_half_even_pos_bounds m e ltac:(lia)) as Hr.
      assert (E : 2 ^ 53 = 2 ^ 47 * 64) by reflexivity.
      assert (Hq : Z.pos m / 2 ^ (- e) < 64).
      { apply Z.div_lt_upper_bound; [lia|].
        assert (2 ^ 47 <= 2 ^ (- e)) by (apply Z.pow_le_mono_r; lia).
        rewrite E in Hvalid. nia. }
      assert (0 <= Z.pos m / 2 ^ (- e)) by (apply Z.div_pos; lia).
      eexists; split; [reflexivity|]. lia.
Qed.

(** The final clamp to [0, 100] followed by rounding always yields an
    integer of 0..100. *)
Lemma round_clamp_0_100 (x : float) :
  exists n, Py.round (_clamp x 0 100) = Some n /\ 0 <= n <= 100.
Proof.
  unfold _clamp, Py.max2, Py.min2.
  destruct (x <? 100)%float eqn:Hlt.
  - destruct (0 <? x)%float eqn:Hpos.
    + now apply round_between_0_100.
    + exists 0. split; [reflexivity|lia].
  - exists 100. split; [reflexivity|lia].
Qed.


(** ** Feature extraction on short candle lists *)

Lemma default_features_values (k : string) (val : PyVal) :
  default_features !! k = Some val ->
  if ratio_feature k then val = VFloat 1 else zero_or_false val = true.
Proof.
  unfold default_features. intros H.
  repeat (rewrite lookup_insert in H;
          destruct (decide (_ = k)) as [<-|?]; [injection H as <-; reflexivity|]).
  rewrite lookup_singleton in H.
  destruct (decide (_ = k)) as [<-|?]; [injection H as <-; reflexivity|discriminate].
Qed.

(** C9 as stated fails: with no candle at all the returned map holds
    [range_ratio = 1.0], a numeric feature that is not zero. *)
Lemma compute_features_short_counterexample :
  exists (m : gmap string PyVal) (k : string) (val : PyVal),
    compute_features (fun _ => 0%float) [] 20 1 1.25 None 0.06 "highest_close" = Some m /\
    m !! k = Some val /\ zero_or_false val = false.
Proof.
  exists default_features, "range_ratio", (VFloat 1). repeat split.
Qed.

(** C9 (amended): for fewer than two candles [compute_features] does not
    raise and returns a map in which every boolean feature is false and
    every numeric feature is zero except the two ratio features
    [price_range_ratio] and [range_ratio], which are 1.0; [regime_score]
    is 0. *)
Theorem compute_features_short (mean : list float -> float) (candles : list Candle)
    (lookback : Z) (vol_multiplier compression_max_range_ratio : float)
    (compression_lookback : option Z) (expansion_min_pct : float)
    (expansion_reference : string) :
  (length candles < 2)%nat ->
  exists m : gmap string PyVal,
    compute_features mean candles lookback vol_multiplier compression_max_range_ratio
      compression_lookback expansion_min_pct expansion_reference = Some m /\
    (forall k val, m !! k = Some val ->
       if ratio_feature k then val = VFloat 1 else zero_or_false val = true) /\
    m !! "price_range_ratio" = Some (VFloat 1) /\
    m !! "range_ratio" = Some (VFloat 1) /\
    m !! "regime_score" = Some (VInt 0).
Proof.
  intros Hlen. exists default_features. unfold compute_features.
  replace (Z.of_nat (length candles) <? 2) with true by lia.
  repeat split. apply default_features_values.
Qed.

Lemma compute_features_short_witness :
  exists m : gmap string PyVal,
    compute_features (fun _ => 0%float)
      [ {| t := 0; o := 1; h := 2; l := 1; c := 2; v := 10 |} ]
      20 1 1.25 None 0.06 "highest_close" = Some m /\
    (forall k val, m !! k = Some val ->
       if ratio_feature k then val = VFloat 1 else zero_or_false val = true) /\
    m !! "price_range_ratio" = Some (VFloat 1) /\
    m !! "range_ratio" = Some (VFloat 1) /\
    m !! "regime_score" = Some (VInt 0).
Proof.
  apply compute_features_short. cbn. lia.
Defined.

(** ** Backtest metrics *)

Lemma float_pos_not_zero (x : float) : (0 <? x)%float = true -> (x =? 0)%float = false.
Proof.
  rewrite FloatAxioms.ltb_spec, FloatAxioms.eqb_spec.
  change (Prim2SF 0) with (S754_zero false).
  destruct (Prim2SF x) as [[]|[]| |[] m e]; cbn; auto; discriminate.
Qed.

Lemma div_not_zero_defined (a b : float) :
  (b =? 0)%float = false -> Py.div a b = Some (a / b)%float.
Proof. intros H. unfold Py.div. now rewrite H. Qed.

Lemma div_pos_defined (a b : float) : (0 <? b)%float = true -> Py.div a b = Some (a / b)%float.
Proof. intros H. apply div_not_zero_defined. now apply float_pos_not_zero. Qed.

Lemma float_of_value_py_float (val : PyVal) (x : float) :
  float_of_value val = Some x -> py_float val = x.
Proof.
  destruct val as [b|n|y]; cbn [float_of_value py_float].
  - now intros [= <-].
  - unfold Py.float_of_int. destruct (is_infinity (Py.float_of_Z n)); [discriminate|].
    now intros [= <-].
  - now intros [= <-].
Qed.

Lemma get_float_raw_pnl (trade : gmap string PyVal) :
  get_float trade "pnl_usd" 0 = py_float (raw_pnl trade).
Proof. unfold get_float, raw_pnl. now destruct (trade !! "pnl_usd"). Qed.

Lemma trade_converts_pnl (trade : gmap string PyVal) :
  trade_converts trade ->
  float_of_value (raw_pnl trade) = Some (get_float trade "pnl_usd" 0).
Proof.
  intros [[x Hx] _]. rewrite Hx, get_float_raw_pnl.
  now rewrite (float_of_value_py_float _ _ Hx).
Qed.

Lemma mapM_total {A B : Type} (f : A -> option B) (g : A -> B) (xs : list A) :
  Forall (fun x => f x = Some (g x)) xs -> mapM f xs = Some (map g xs).
Proof.
  induction 1 as [|x xs Hx _ IH]; [reflexivity|].
  cbn [mapM map]. rewrite Hx. cbn [mbind option_bind]. rewrite IH. reflexivity.
Qed.

Lemma Forall_filter_of {A : Type} (P : A -> Prop) `{!forall x, Decision (P x)}
    (Q : A -> Prop) (xs : list A) :
  Forall Q xs -> Forall Q (filter P xs).
Proof.
  induction 1 as [|x xs Hx _ IH]; [constructor|].
  rewrite filter_cons. destruct (decide (P x)); [now constructor|exact IH].
Qed.

(** The equity curve of trades that convert ends with the final equity. *)
Lemma equity_curve_from_converts (equity : float) (trades : list (gmap string PyVal)) :
  Forall trade_converts trades ->
  exists curve, equity_curve_from equity trades = Some curve /\
                last (equity :: curve) = Some (final_equity equity trades).
Proof.
  unfold final_equity. intros H. revert equity.
  induction H as [|tr rest Htr _ IH]; intros equity.
  - exists []. split; reflexivity.
  - cbn [equity_curve_from fold_left]. rewrite (trade_converts_pnl tr Htr).
    cbn [mbind option_bind].
    destruct (IH (equity + get_float tr "pnl_usd" 0)%float) as (curve & -> & Hlast).
    cbn [mbind option_bind]. eexists. split; [reflexivity|].
    rewrite last_cons, Hlast. reflexivity.
Qed.

Lemma max_drawdown_from_defined (curve : list float) (peak max_dd : float) :
  is_Some (max_drawdown_from peak max_dd curve).
Proof.
  revert peak max_dd. induction curve as [|value rest IH]; intros peak max_dd; cbn.
  - eauto.
  - destruct (0 <? (if (peak <? value)%float then value else peak))%float eqn:Hpos.
    + rewrite div_pos_defined by exact Hpos. cbn. apply IH.
    + cbn. apply IH.
Qed.

(** On trades that convert, the sums of [profit_factor] are those of the
    winning and of the losing [pnl_usd]. *)
Lemma profit_factor_converts (trades : list (gmap string PyVal)) :
  Forall trade_converts trades ->
  profit_factor trades =
  let wins := winning_pnl trades in
  let losses :=
    py_sum (map (fun tr => (- get_float tr "pnl_usd" 0)%float)
              (filter (fun tr => py_lt0 (raw_pnl tr) = true) trades)) in
  if (losses =? 0)%float then Some (if (0 <? wins)%float then Py.inf else 0%float)
  else Py.div wins losses.
Proof.
  intros H. unfold profit_factor, winning_pnl.
  rewrite (mapM_total (fun tr => float_of_value (raw_pnl tr))
             (fun tr => get_float tr "pnl_usd" 0)).
  2:{ apply Forall_filter_of. eapply Forall_impl; [exact H|].
      intros tr Htr. now apply trade_converts_pnl. }
  cbn [mbind option_bind].
  rewrite (mapM_total (fun tr => pnl ← float_of_value (raw_pnl tr); Some (- pnl)%float)
             (fun tr => (- get_float tr "pnl_usd" 0)%float)).
  2:{ apply Forall_filter_of. eapply Forall_impl; [exact H|].
      intros tr Htr. cbn beta. now rewrite (trade_converts_pnl tr Htr). }
  reflexivity.
Qed.

Lemma profit_factor_defined (trades : list (gmap string PyVal)) :
  Forall trade_converts trades -> is_Some (profit_factor trades).
Proof.
  intros H. rewrite (profit_factor_converts trades H). cbv zeta.
  destruct (_ =? 0)%float eqn:Hz; [eauto|].
  unfold Py.div. rewrite Hz. eauto.
Qed.

Lemma win_rate_defined (trades : list (gmap string PyVal)) : is_Some (win_rate trades).
Proof.
  destruct trades as [|tr rest]; [cbn; eauto|].
  unfold win_rate, int_div.
  destruct (Z.eqb_spec (Z.of_nat (length (tr :: rest))) 0) as [E|E]; [|eauto].
  cbn [length] in E. lia.
Qed.

Lemma avg_trade_return_defined (trades : list (gmap string PyVal)) :
  Forall trade_converts trades -> is_Some (avg_trade_return trades).
Proof.
  intros H. destruct trades as [|tr rest]; [cbn; eauto|].
  unfold avg_trade_return.
  assert (Hm : is_Some (mapM (fun tr0 => float_of_value (raw_return tr0)) (tr :: rest))).
  { apply mapM_is_Some. eapply Forall_impl; [exact H|]. intros tr0 [_ Hr]. exact Hr. }
  destruct Hm as [returns Hm]. rewrite Hm. cbn [mbind option_bind].
  apply length_mapM in Hm. unfold div_by_int.
  destruct (Z.eqb_spec (Z.of_nat (length returns)) 0) as [E|E]; [|eauto].
  rewrite <- Hm in E. cbn [length] in E. lia.
Qed.

Lemma filter_none {A : Type} (P : A -> Prop) `{!forall x, Decision (P x)} (xs : list A) :
  Forall (fun x => ~ P x) xs -> filter P xs = [].
Proof.
  induction 1 as [|x xs Hx _ IH]; [reflexivity|].
  rewrite filter_cons. destruct (decide (P x)); [contradiction|exact IH].
Qed.

Lemma no_losing_filter (trades : list (gmap string PyVal)) :
  no_losing_trade trades -> filter (fun tr => py_lt0 (raw_pnl tr) = true) trades = [].
Proof.
  intros H. apply filter_none. eapply Forall_impl; [exact H|].
  cbn. intros tr ->. discriminate.
Qed.

Lemma no_winning_filter (trades : list (gmap string PyVal)) :
  no_winning_trade trades -> filter (fun tr => py_gt0 (raw_pnl tr) = true) trades = [].
Proof.
  intros H. apply filter_none. eapply Forall_impl; [exact H|].
  cbn. intros tr ->. discriminate.
Qed.

Lemma profit_factor_no_losses (trades : list (gmap string PyVal)) :
  Forall trade_converts trades -> no_losing_trade trades ->
  profit_factor trades = Some (if (0 <? winning_pnl trades)%float then Py.inf else 0%float).
Proof.
  intros Hc H. rewrite (profit_factor_converts trades Hc). cbv zeta.
  rewrite (no_losing_filter trades H). reflexivity.
Qed.

(** C7 as stated fails: a trade whose [pnl_usd] is the integer [2^1024]
    makes [float(trade.get("pnl_usd", 0.0))] raise [OverflowError], so
    [compute_metrics] returns nothing although the starting capital is
    positive. *)
Lemma compute_metrics_round_trip_counterexample :
  (0 <? 1000)%float = true /\ compute_metrics 1000 huge_pnl_trades = None.
Proof. split; vm_compute; reflexivity. Qed.

(** C7 (amended): for a positive starting capital and every trade list
    whose [pnl_usd] and [return_pct] values convert to float (floats,
    booleans, integers within the binary64 range), [compute_metrics]
    returns a [total_return_pct] equal to
    [final_equity / starting_capital - 1], the final equity being the
    starting capital plus the trades' [pnl_usd]; its [profit_factor] is
    positive infinity when the winning pnl sums to a positive value and no
    trade loses, and 0 when no trade wins and none loses. *)
Theorem compute_metrics_round_trip (starting_capital : float)
    (trades : list (gmap string PyVal)) :
  (0 <? starting_capital)%float = true ->
  Forall trade_converts trades ->
  exists m : Metrics,
    compute_metrics starting_capital trades = Some m /\
    total_return_pct m = (final_equity starting_capital trades / starting_capital - 1)%float /\
    (no_losing_trade trades -> (0 <? winning_pnl trades)%float = true ->
     m_profit_factor m = Py.inf) /\
    (no_winning_trade trades -> no_losing_trade trades -> m_profit_factor m = 0%float).
Proof.
  intros Hpos Hconv. unfold compute_metrics, py_last, equity_curve.
  destruct (equity_curve_from_converts starting_capital trades Hconv) as (curve & -> & Hlast).
  cbn [mbind option_bind]. rewrite Hlast, (div_pos_defined _ _ Hpos). cbn [mbind option_bind].
  destruct (max_drawdown_from_defined (starting_capital :: curve) starting_capital 0)
    as [dd Hdd].
  unfold max_drawdown. rewrite Hdd. cbn [mbind option_bind].
  destruct (profit_factor_defined trades Hconv) as [pf Hpf].
  destruct (win_rate_defined trades) as [wr Hwr].
  destruct (avg_trade_return_defined trades Hconv) as [atr Hatr].
  rewrite Hpf, Hwr, Hatr. cbn [mbind option_bind].
  eexists. split; [reflexivity|]. cbn [total_return_pct m_profit_factor].
  split; [reflexivity|]. split.
  - intros Hnl Hwin. rewrite (profit_factor_no_losses trades Hconv Hnl), Hwin in Hpf.
    now injection Hpf as <-.
  - intros Hnw Hnl. rewrite (profit_factor_no_losses trades Hconv Hnl) in Hpf.
    unfold winning_pnl in Hpf. rewrite (no_winning_filter trades Hnw) in Hpf.
    now injection Hpf as <-.
Qed.

(** Two winning trades, and one trade that neither wins nor loses and
    records its values as integers. *)
Lemma compute_metrics_round_trip_witness :
  (exists m : Metrics,
     compute_metrics 1000 demo_trades = Some m /\
     total_return_pct m = (1075 / 1000 - 1)%float /\
     m_profit_factor m = Py.inf) /\
  (exists m : Metrics,
     compute_metrics 1000 flat_trades = Some m /\
     total_return_pct m = 0%float /\
     m_profit_factor m = 0%float).
Proof.
  split.
  - assert (Hconv : Forall trade_converts demo_trades).
    { unfold demo_trades.
      repeat (constructor; [split; vm_compute; eexists; reflexivity|]). constructor. }
    destruct (compute_metrics_round_trip 1000 demo_trades eq_refl Hconv)
      as (m & Hm & Ht & Hinf & _).
    exists m. split; [exact Hm|]. split.
    + rewrite Ht. vm_compute. reflexivity.
    + apply Hinf.
      * repeat constructor.
      * vm_compute. reflexivity.
  - assert (Hconv : Forall trade_converts flat_trades).
    { unfold flat_trades.
      repeat (constructor; [split; vm_compute; eexists; reflexivity|]). constructor. }
    destruct (compute_metrics_round_trip 1000 flat_trades eq_refl Hconv)
      as (m & Hm & Ht & _ & Hzero).
    exists m. split; [exact Hm|]. split.
    + rewrite Ht. vm_compute. reflexivity.
    + apply Hzero; repeat constructor.
Defined.

(** ** Momentum score *)

Lemma float_not_le_zero_not_zero (x : float) :
  (x <=? 0)%float = false -> (x =? 0)%float = false.
Proof.
  rewrite FloatAxioms.leb_spec, FloatAxioms.eqb_spec.
  change (Prim2SF 0) with (S754_zero false).
  destruct (Prim2SF x) as [[]|[]| |[] m e]; cbn; auto; discriminate.
Qed.


(** The floor [max(x, 1e-9)] is never zero. *)
Lemma max2_floor_not_zero (x : float) : (Py.max2 x 1e-9 =? 0)%float = false.
Proof.
  unfold Py.max2. destruct (x <? 1e-9)%float eqn:Hlt; [reflexivity|].
  revert Hlt. rewrite FloatAxioms.ltb_spec, FloatAxioms.eqb_spec.
  assert (E : Prim2SF 1e-9 = S754_finite false 4835703278458517 (-82)) by reflexivity.
  rewrite E. change (Prim2SF 0) with (S754_zero false).
  intros Hlt.
  destruct (Prim2SF x) as [[]|[]| |[] m e]; try reflexivity;
    vm_compute in Hlt; discriminate Hlt.
Qed.

Lemma py_slice_all_but_last {A : Type} (xs : list A) (x : A) :
  py_slice (xs ++ [x]) None (Some (-1)) = xs.
Proof.
  unfold py_slice, norm_index. rewrite length_app. cbn [length].
  replace (-1 <? 0) with true by reflexivity.
  replace (Z.to_nat (Z.max 0 (-1 + Z.of_nat (length xs + 1)) - 0)) with (length xs) by lia.
  cbn [Z.to_nat drop]. apply take_app_length.
Qed.

Lemma py_last_snoc {A : Type} (xs : list A) (x : A) : py_last (xs ++ [x]) = Some x.
Proof. apply last_snoc. Qed.

Lemma relative_ranges_defined (cs : list Candle) :
  relative_ranges cs =
  Some (map (fun cd => ((h cd - l cd) / c cd)%float)
            (filter (fun cd => (c cd <=? 0)%float = false) cs)).
Proof.
  unfold relative_ranges.
  induction cs as [|cd cs IH]; [reflexivity|].
  rewrite filter_cons. destruct (decide ((c cd <=? 0)%float = false)) as [Hc|Hc]; [|exact IH].
  cbn [mapM map]. rewrite (div_not_zero_defined _ _ (float_not_le_zero_not_zero _ Hc)).
  cbn [mbind option_bind]. rewrite IH. reflexivity.
Qed.

Lemma last_map {A B : Type} (f : A -> B) (xs : list A) (x : A) :
  last xs = Some x -> last (map f xs) = Some (f x).
Proof.
  induction xs as [|y ys IH]; [discriminate|].
  destruct ys as [|z zs]; cbn in *; [now intros [= ->]|exact IH].
Qed.

Section MomentumFacts.

Variable log1p : float -> float.

Lemma momentum_score_short (candles : list Candle) (lookback : Z) :
  Z.of_nat (length candles) < lookback + 1 \/ lookback <= 0 ->
  momentum_score log1p candles lookback = Some 0%float.
Proof.
  intros H. unfold momentum_score.
  replace ((Z.of_nat (length candles) <? lookback + 1) || (lookback <=? 0)) with true;
    [reflexivity|].
  destruct H; [replace (Z.of_nat (length candles) <? lookback + 1) with true by lia; reflexivity|].
  replace (lookback <=? 0) with true by lia. now rewrite orb_true_r.
Qed.



End MomentumFacts.


(** On [volume_spike] with a lookback of 2 the source hands [log1p] the
    excess of the previous bar's volume over the median, which is 0, where
    the specification's wording would hand it the excess of the latest
    bar's volume, which is 1. *)
Lemma momentum_score_volume_spike (log1p : float -> float) :
  momentum_score log1p volume_spike 2
  = Some (100 * 0 + 10 * log1p 0 + 5 * log1p 0)%float /\
  momentum_score_spec log1p spike_first spike_latest [spike_first; spike_previous] [0.5; 0.5]%float
  = (100 * 0 + 10 * log1p 1 + 5 * log1p 0)%float.
Proof. split; vm_compute; reflexivity. Qed.

(** On [dust_close] with a lookback of 2 the latest bar's range equals its
    close, [2^-40]: relative to the close it is 1, twice the median 0.5,
    and the specification's wording hands [log1p] the excess 1; the
    source divides the range by [max(close, 1e-9) = 1e-9], gets a multiple
    below 1 and hands [log1p] the excess 0. *)
Lemma momentum_score_dust_close (log1p : float -> float) :
  momentum_score log1p dust_close 2
  = Some (100 * (0x1p-40 - 1) + 10 * log1p 0 + 5 * log1p 0)%float /\
  momentum_score_spec log1p spike_first dust_latest [spike_first; spike_previous] [0.5; 0.5]%float
  = (100 * (0x1p-40 - 1) + 10 * log1p 0 + 5 * log1p 1)%float.
Proof. split; vm_compute; reflexivity. Qed.




(** The score of [surge]: the return 0.5 gives 50, the volume multiple
    [4 / 2] and the range multiple [1 / 0.5] each hand [log1p] the
    excess 1. *)
Example momentum_score_surge :
  momentum_score log1p_sample surge 4 = Some 0x1.e32d7b3c2a594p+5%float /\
  (100 * 0.5 + 10 * log1p_sample 1 + 5 * log1p_sample 1)%float = 0x1.e32d7b3c2a594p+5%float.
Proof. split; vm_compute; reflexivity. Qed.

(** [statistics.median] on the volumes and the relative ranges of
    [surge]: an even and an odd number of items, neither in order. *)
Example median_surge :
  median (map v surge_before) = 2%float /\ median [0.25; 1; 0.5]%float = 0.5%float /\
  sorted_float (map v surge_before) = [0.5; 1; 3; 4]%float.
Proof. repeat split; vm_compute; reflexivity. Qed.

(** ** Order facts for float comparison *)

Ltac compare_cases :=
  repeat match goal with
    | |- context [Z.compare ?x ?y] => destruct (Z.compare_spec x y); subst
    | |- context [Pos.compare_cont Eq ?x ?y] =>
        change (Pos.compare_cont Eq x y) with (Pos.compare x y);
        destruct (Pos.compare_spec x y); subst
    end;
  cbn; try congruence; try discriminate; try reflexivity; try lia.

Lemma SFltb_not_lt_trans (a b c : spec_float) :
  b <> S754_nan -> SFltb a b = false -> SFltb b c = false -> SFltb a c = false.
Proof.
  unfold SFltb, SFcompare.
  destruct a as [[]|[]| |[] ma ea], b as [[]|[]| |[] mb eb], c as [[]|[]| |[] mc ec];
    intros Hb; try congruence; try reflexivity; try discriminate; clear Hb;
    compare_cases.
Qed.

Lemma SFltb_asym (a b : spec_float) : SFltb a b = true -> SFltb b a = false.
Proof.
  unfold SFltb, SFcompare.
  destruct a as [[]|[]| |[] ma ea], b as [[]|[]| |[] mb eb];
    try congruence; try reflexivity; try discriminate; compare_cases.
Qed.

Lemma not_nan_spec (x : float) : not_nan x -> Prim2SF x <> S754_nan.
Proof.
  unfold not_nan. rewrite FloatAxioms.eqb_spec. intros H E. rewrite E in H. discriminate H.
Qed.

Lemma float_not_lt_trans (a b c : float) :
  not_nan b -> (a <? b)%float = false -> (b <? c)%float = false -> (a <? c)%float = false.
Proof.
  rewrite !FloatAxioms.ltb_spec. intros Hb. apply SFltb_not_lt_trans. now apply not_nan_spec.
Qed.

Lemma float_lt_asym (a b : float) : (a <? b)%float = true -> (b <? a)%float = false.
Proof. rewrite !FloatAxioms.ltb_spec. apply SFltb_asym. Qed.

Lemma SFeqb_refl (a : spec_float) : a <> S754_nan -> SFeqb a a = true.
Proof.
  unfold SFeqb, SFcompare.
  destruct a as [[]|[]| |[] m e]; intros H; try reflexivity; try congruence;
    rewrite Z.compare_refl;
    change (Pos.compare_cont Eq m m) with (Pos.compare m m);
    now rewrite Pos.compare_refl.
Qed.

(** ** The descending stable sort *)

Section SortDesc.

Context {A : Type} (key : A -> float).

Lemma insert_desc_perm (x : A) (xs : list A) : insert_desc key x xs ≡ₚ x :: xs.
Proof.
  induction xs as [|y ys IH]; cbn; [reflexivity|].
  destruct (key x <? key y)%float; [|reflexivity].
  rewrite IH. apply Permutation_swap.
Qed.

Lemma sort_desc_perm (xs : list A) : sort_desc key xs ≡ₚ xs.
Proof.
  induction xs as [|x xs IH]; cbn; [reflexivity|].
  fold (sort_desc key xs). rewrite insert_desc_perm. now rewrite IH.
Qed.

Lemma insert_desc_sorted (x : A) (xs : list A) :
  Forall (fun a => not_nan (key a)) xs ->
  StronglySorted (not_below key) xs -> StronglySorted (not_below key) (insert_desc key x xs).
Proof.
  intros Hnan Hs. induction Hs as [|y ys Hys IH Hy]; cbn.
  - repeat constructor.
  - apply Forall_cons in Hnan as [Hny Hnan].
    destruct (key x <? key y)%float eqn:Hlt.
    + constructor; [now apply IH|].
      rewrite insert_desc_perm. constructor; [|exact Hy].
      now apply float_lt_asym.
    + constructor; [now constructor|].
      constructor; [exact Hlt|].
      eapply Forall_impl; [exact Hy|]. cbn. intros z Hz.
      now apply (float_not_lt_trans _ (key y)).
Qed.

Lemma sort_desc_sorted (xs : list A) :
  Forall (fun a => not_nan (key a)) xs -> StronglySorted (not_below key) (sort_desc key xs).
Proof.
  induction 1 as [|x xs Hx Hxs IH]; cbn; [constructor|].
  fold (sort_desc key xs). apply insert_desc_sorted; [|exact IH].
  now rewrite sort_desc_perm.
Qed.

End SortDesc.

(** ** Ranking *)

Lemma py_slice_suffix_length {A : Type} (xs : list A) (k : Z) :
  0 < k <= Z.of_nat (length xs) ->
  length (py_slice xs (Some (- k)) None) = Z.to_nat k.
Proof.
  intros Hk. unfold py_slice, norm_index.
  replace (- k <? 0) with true by lia.
  rewrite length_take, length_drop. lia.
Qed.

Lemma list_snoc_of_length {A : Type} (xs : list A) (n : nat) :
  length xs = S n -> exists ys y, xs = ys ++ [y] /\ length ys = n.
Proof.
  intros Hlen. destruct xs as [|x xs _] using rev_ind; [discriminate|].
  exists xs, x. split; [reflexivity|]. rewrite length_app in Hlen. cbn in Hlen. lia.
Qed.

Section RankingFacts.

Variable log1p : float -> float.

(** [_momentum_score_detail] never raises. *)
Lemma momentum_score_detail_defined (cs : list Candle) (lookback : Z) :
  is_Some (_momentum_score_detail log1p cs lookback).
Proof.
  unfold _momentum_score_detail.
  destruct (Z.leb_spec lookback 0) as [|Hlb]; [eauto|].
  set (lb := if Z.of_nat (length cs) <? lookback + 1
             then Z.max 1 (Z.of_nat (length cs) - 1) else lookback).
  assert (Hlb' : 0 < lb) by (subst lb; destruct (_ <? _); lia).
  destruct (Z.ltb_spec (Z.of_nat (length cs)) (lb + 1)) as [|Hlen]; [eauto|].
  pose proof (py_slice_suffix_length cs (lb + 1) ltac:(lia)) as Hwlen.
  destruct (list_snoc_of_length (py_slice cs (Some (- (lb + 1))) None) (Z.to_nat lb))
    as (before & latest & Hw & Hblen); [lia|].
  rewrite Hw, py_last_snoc. cbn [mbind option_bind].
  destruct before as [|first rest]; [cbn in Hblen; lia|].
  cbn [head app mbind option_bind].
  destruct (c first <=? 0)%float eqn:Hc; [eauto|].
  rewrite (div_not_zero_defined _ _ (float_not_le_zero_not_zero _ Hc)).
  cbn [mbind option_bind].
  change (first :: rest ++ [latest]) with ((first :: rest) ++ [latest]).
  rewrite py_slice_all_but_last, relative_ranges_defined. cbn [mbind option_bind].
  rewrite (div_not_zero_defined _ _ (max2_floor_not_zero (c latest))).
  cbn [mbind option_bind].
  assert (Hvol : is_Some
            (if (0 <? match map v (first :: rest) with
                      | [] => 0 | _ => median (map v (first :: rest)) end)%float
             then last_vol ← py_last (map v (first :: rest));
                  Py.div last_vol (match map v (first :: rest) with
                                   | [] => 0%float | _ => median (map v (first :: rest)) end)
             else Some 1%float)).
  { destruct (0 <? _)%float eqn:Hpos; [|eauto].
    destruct (list_snoc_of_length (first :: rest) (length rest) eq_refl) as (ys & y & Hsn & _).
    unfold py_last. rewrite Hsn, (last_map v (ys ++ [y]) y (last_snoc _ _)).
    cbn [mbind option_bind]. rewrite <- Hsn.
    rewrite (div_pos_defined _ _ Hpos). eauto. }
  destruct Hvol as [vol_mult Hvol]. rewrite Hvol. cbn [mbind option_bind].
  match goal with
  | |- context [if (0 <? ?m)%float then Py.div ?a ?m else Some 1%float] =>
      assert (Hrm : is_Some (if (0 <? m)%float then Py.div a m else Some 1%float))
        by (destruct (0 <? m)%float eqn:Hpos;
            [rewrite (div_pos_defined _ _ Hpos)|]; eauto);
      destruct Hrm as [range_mult Hrm]; rewrite Hrm
  end.
  cbn [mbind option_bind]. eauto.
Qed.

Lemma score_entry_defined (config : Config) (lookback : Z) (entry : Entry) :
  exists score adjustments,
    adjusted_score log1p config lookback entry = Some score /\
    score_entry log1p config lookback entry = Some (set_e_scores score adjustments entry).
Proof.
  unfold score_entry, adjusted_score.
  destruct (momentum_score_detail_defined (candles (e_snapshot entry)) lookback)
    as [detail ->].
  cbn [mbind option_bind].
  destruct (_apply_score_adjustments _ _ _) as [adjusted adjustments]. eauto.
Qed.

End RankingFacts.

(** ** Positions of the entry candidates *)

Lemma positions_where_length {A : Type} (p : A -> bool) (k : nat) (xs : list A) :
  length (positions_where p k xs) = length (filter (fun x => p x = true) xs).
Proof.
  revert k. induction xs as [|x xs IH]; intros k; [reflexivity|].
  cbn [positions_where]. rewrite filter_cons.
  destruct (p x) eqn:Hp; destruct (decide _) as [Hd|Hd]; try congruence; cbn; auto.
Qed.

Lemma positions_where_elem {A : Type} (p : A -> bool) (k : nat) (xs : list A) (i : nat) :
  i ∈ positions_where p k xs <->
  (k <= i)%nat /\ exists x, xs !! (i - k)%nat = Some x /\ p x = true.
Proof.
  revert k. induction xs as [|x xs IH]; intros k; cbn [positions_where].
  - split; [intros H; inversion H|intros (_ & y & Hy & _); discriminate].
  - assert (Hrest : i ∈ positions_where p (S k) xs <->
                    (k < i)%nat /\ exists y, (x :: xs) !! (i - k)%nat = Some y /\ p y = true).
    { rewrite IH. split.
      - intros (Hk & y & Hy & Hp). split; [lia|]. exists y. split; [|exact Hp].
        replace (i - k)%nat with (S (i - S k)) by lia. exact Hy.
      - intros (Hk & y & Hy & Hp). split; [lia|]. exists y. split; [|exact Hp].
        replace (i - k)%nat with (S (i - S k)) in Hy by lia. exact Hy. }
    destruct (p x) eqn:Hp.
    + rewrite elem_of_cons, Hrest. split.
      * intros [->|(Hk & Hy)]; [|split; [lia|exact Hy]].
        split; [lia|]. exists x. rewrite Nat.sub_diag. auto.
      * intros (Hk & y & Hy & Hpy).
        destruct (decide (i = k)) as [->|Hne]; [now left|].
        right. split; [lia|]. eauto.
    + rewrite Hrest. split.
      * intros (Hk & Hy). split; [lia|exact Hy].
      * intros (Hk & y & Hy & Hpy).
        destruct (decide (i = k)) as [->|Hne].
        -- rewrite Nat.sub_diag in Hy. cbn in Hy. congruence.
        -- split; [lia|]. eauto.
Qed.

Lemma positions_where_NoDup {A : Type} (p : A -> bool) (k : nat) (xs : list A) :
  NoDup (positions_where p k xs).
Proof.
  revert k. induction xs as [|x xs IH]; intros k; cbn [positions_where]; [constructor|].
  destruct (p x); [|apply IH].
  constructor; [|apply IH].
  rewrite positions_where_elem. lia.
Qed.

Lemma positions_where_bound {A : Type} (p : A -> bool) (xs : list A) :
  Forall (fun i => (i < length xs)%nat) (positions_where p 0 xs).
Proof.
  apply Forall_forall. intros i Hi.
  apply positions_where_elem in Hi as (_ & x & Hx & _).
  rewrite Nat.sub_0_r in Hx. eapply lookup_lt_Some, Hx.
Qed.

(** ** In-place updates and the PROBE_BUY count *)

Lemma scored_from_proposal (e e' : Entry) : scored_from e e' -> e_proposal e' = e_proposal e.
Proof. intros [->|(s & a & ->)]; reflexivity. Qed.

Lemma scored_from_trans (e1 e2 e3 : Entry) :
  scored_from e1 e2 -> scored_from e2 e3 -> scored_from e1 e3.
Proof.
  intros [->|(s & a & ->)] [->|(s' & a' & ->)]; unfold scored_from; eauto.
Qed.

(** Scoring leaves every count that depends on the proposals alone. *)
Lemma count_where_scored (p : Entry -> bool) (ps ps' : list Entry) :
  (forall e e', scored_from e e' -> p e' = p e) ->
  Forall2 scored_from ps ps' -> count_where p ps' = count_where p ps.
Proof.
  intros Hp. unfold count_where.
  induction 1 as [|e e' ps ps' He _ IH]; [reflexivity|].
  rewrite !filter_cons. pose proof (Hp e e' He) as Hpe.
  destruct (decide (p e' = true)), (decide (p e = true)); cbn; try congruence; auto.
Qed.

Lemma is_probe_buy_scored (e e' : Entry) : scored_from e e' -> is_probe_buy e' = is_probe_buy e.
Proof. intros H. unfold is_probe_buy. now rewrite (scored_from_proposal e e' H). Qed.

Lemma is_hold_scored (e e' : Entry) : scored_from e e' -> is_hold e' = is_hold e.
Proof. intros H. unfold is_hold. now rewrite (scored_from_proposal e e' H). Qed.

(** An in-place update moves a count by the change at that position. *)
Lemma count_where_alter (p : Entry -> bool) (f : Entry -> Entry) (ps : list Entry)
    (i : nat) (e : Entry) :
  ps !! i = Some e ->
  (count_where p (alter f i ps) + Nat.b2n (p e)
   = count_where p ps + Nat.b2n (p (f e)))%nat.
Proof.
  unfold count_where. revert i.
  induction ps as [|x ps IH]; intros i Hi; [discriminate|].
  destruct i as [|i]; cbn in Hi.
  - injection Hi as ->. cbn [alter list_alter]. rewrite !filter_cons.
    destruct (decide (p (f e) = true)) as [->|Hf], (decide (p e = true)) as [->|He];
      try apply not_true_is_false in Hf; try apply not_true_is_false in He;
      rewrite ?Hf, ?He; cbn; lia.
  - cbn [alter list_alter]. rewrite !filter_cons. specialize (IH i Hi).
    destruct (decide (p x = true)); cbn; lia.
Qed.

Lemma is_probe_buy_not_hold (e : Entry) : is_probe_buy e = true -> is_hold e = false.
Proof.
  unfold is_probe_buy, is_hold. intros H. apply String.eqb_eq in H. now rewrite H.
Qed.

Lemma demote_fold_lookup (dropped : list nat) (ps : list Entry) (i : nat) :
  NoDup dropped ->
  foldl (fun qs j => alter demote j qs) ps dropped !! i =
  if decide (i ∈ dropped) then demote <$> ps !! i else ps !! i.
Proof.
  intros Hnd. revert ps. induction Hnd as [|j dropped Hj Hnd IH]; intros ps; cbn [foldl].
  - destruct (decide _) as [H|_]; [inversion H|reflexivity].
  - rewrite IH. destruct (decide (i = j)) as [->|Hne].
    + destruct (decide (j ∈ dropped)); [contradiction|].
      destruct (decide (j ∈ j :: dropped)) as [_|H]; [|exfalso; apply H; left].
      apply list_lookup_alter_eq.
    + rewrite list_lookup_alter_ne by congruence.
      destruct (decide (i ∈ dropped)) as [Hin|Hnin].
      * destruct (decide (i ∈ j :: dropped)) as [_|H]; [reflexivity|].
        exfalso. apply H. now right.
      * destruct (decide (i ∈ j :: dropped)) as [H|_]; [|reflexivity].
        apply elem_of_cons in H as [?|?]; [congruence|contradiction].
Qed.

(** Demoting distinct PROBE_BUY entries in place turns each of them from
    a PROBE_BUY into a HOLD. *)
Lemma demote_fold_count (dropped : list nat) (ps : list Entry) :
  NoDup dropped ->
  (forall j, j ∈ dropped -> exists e, ps !! j = Some e /\ is_probe_buy e = true) ->
  let ranked := foldl (fun qs j => alter demote j qs) ps dropped in
  (probe_buy_count ranked + length dropped = probe_buy_count ps)%nat /\
  (hold_count ranked = hold_count ps + length dropped)%nat.
Proof.
  intros Hnd. revert ps. induction Hnd as [|j dropped Hj Hnd IH]; intros ps Hpb; cbn [foldl length].
  - cbn. lia.
  - destruct (Hpb j ltac:(left)) as (e & He & Hp).
    pose proof (count_where_alter is_probe_buy demote ps j e He) as Hc1.
    pose proof (count_where_alter is_hold demote ps j e He) as Hc2.
    rewrite Hp in Hc1. rewrite (is_probe_buy_not_hold e Hp) in Hc2. cbn in Hc1, Hc2.
    destruct (IH (alter demote j ps)) as [IH1 IH2].
    { intros k Hk. destruct (Hpb k ltac:(now right)) as (ek & Hek & Hpk).
      exists ek. split; [|exact Hpk].
      rewrite list_lookup_alter_ne; [exact Hek|]. intros ->. contradiction. }
    unfold probe_buy_count, hold_count in *. cbn zeta in IH1, IH2. lia.
Qed.

Lemma foldl_alter_length (dropped : list nat) (ps : list Entry) :
  length (foldl (fun qs j => alter demote j qs) ps dropped) = length ps.
Proof.
  revert ps. induction dropped as [|j dropped IH]; intros ps; cbn [foldl]; [reflexivity|].
  rewrite IH. apply length_alter.
Qed.

Section ScoreLoop.

Variable log1p : float -> float.

Lemma score_entries_spec (config : Config) (lookback : Z) (idxs : list nat) (ps : list Entry) :
  NoDup idxs ->
  Forall (fun i => (i < length ps)%nat) idxs ->
  exists ps', score_entries log1p config lookback idxs ps = Some ps' /\
              Forall2 scored_from ps ps' /\
              (forall k, k ∉ idxs -> ps' !! k = ps !! k) /\
              (forall i e e', i ∈ idxs -> ps !! i = Some e -> ps' !! i = Some e' ->
                 e_momentum_score e' = adjusted_score log1p config lookback e).
Proof.
  intros Hnd. revert ps.
  induction Hnd as [|i idxs Hi Hnd IH]; intros ps Hb; cbn [score_entries].
  - exists ps. split; [reflexivity|]. split; [|split; [reflexivity|]].
    + apply Forall2_same_length_lookup.
      split; [reflexivity|]. intros k x y Hx Hy. left. congruence.
    + intros i e e' Hin. inversion Hin.
  - apply Forall_cons in Hb as [Hlt Hb].
    destruct (lookup_lt_is_Some_2 ps i Hlt) as [e He]. rewrite He. cbn [mbind option_bind].
    destruct (score_entry_defined log1p config lookback e) as (s & a & Hadj & Hs).
    rewrite Hs. cbn [mbind option_bind].
    destruct (IH (<[i := set_e_scores s a e]> ps)) as (ps' & Hps' & Hrel & Hother & Hscores).
    { eapply Forall_impl; [exact Hb|]. cbn. intros k Hk. now rewrite length_insert. }
    exists ps'. split; [exact Hps'|]. split; [|split].
    + apply Forall2_same_length_lookup.
      apply Forall2_same_length_lookup in Hrel as [Hlen Hrel].
      rewrite length_insert in Hlen. split; [exact Hlen|].
      intros k x y Hx Hy.
      destruct (decide (k = i)) as [->|Hne].
      * apply (scored_from_trans _ (set_e_scores s a e)).
        -- right. exists s, a. congruence.
        -- apply (Hrel i); [|exact Hy]. now apply list_lookup_insert_eq.
      * apply (Hrel k); [|exact Hy]. rewrite list_lookup_insert_ne by congruence. exact Hx.
    + intros k Hk. apply not_elem_of_cons in Hk as [Hne Hk].
      rewrite (Hother k Hk). now apply list_lookup_insert_ne.
    + intros j ej ej' Hj Hej Hej'. apply elem_of_cons in Hj as [->|Hj].
      * rewrite (Hother i Hi), list_lookup_insert_eq in Hej' by exact Hlt.
        injection Hej' as <-. rewrite He in Hej. injection Hej as <-.
        cbn. now rewrite Hadj.
      * apply (Hscores j ej ej' Hj); [|exact Hej'].
        rewrite list_lookup_insert_ne; [exact Hej|]. intros ->. contradiction.
Qed.

End ScoreLoop.

Lemma py_slice_from {A : Type} (xs : list A) (k : Z) :
  0 <= k <= Z.of_nat (length xs) -> py_slice xs (Some k) None = drop (Z.to_nat k) xs.
Proof.
  intros Hk. unfold py_slice, norm_index.
  replace (k <? 0) with false by lia.
  rewrite Z.min_l by lia.
  apply take_ge. rewrite length_drop. lia.
Qed.

Lemma demote_not_probe_buy (e : Entry) : is_probe_buy (demote e) = false.
Proof. reflexivity. Qed.

Lemma demote_stored_score (e : Entry) : stored_score (demote e) = stored_score e.
Proof. reflexivity. Qed.

Lemma candidates_length (proposals : list Entry) :
  length (positions_where is_probe_buy 0 proposals) = probe_buy_count proposals.
Proof. apply positions_where_length. Qed.

Section RankTheorem.

Variable log1p : float -> float.

Lemma rank_noop (proposals : list Entry) (config : Config) :
  default 0 (top_n_per_tick (rules_of config)) <= 0 \/
  Z.of_nat (probe_buy_count proposals)
    < Z.max 1 (default 0 (min_candidates_before_rank (rules_of config))) ->
  _rank_entry_proposals log1p proposals config = Some proposals.
Proof.
  intros H. unfold _rank_entry_proposals.
  rewrite candidates_length.
  destruct (Z.leb_spec (default 0 (top_n_per_tick (rules_of config))) 0) as [|Hn];
    [reflexivity|].
  destruct (Z.ltb_spec (Z.of_nat (probe_buy_count proposals))
              (Z.max 1 (default 0 (min_candidates_before_rank (rules_of config)))));
    [reflexivity|lia].
Qed.

Lemma rank_top_n (proposals : list Entry) (config : Config) :
  let top_n := default 0 (top_n_per_tick (rules_of config)) in
  0 < top_n ->
  Z.max 1 (default 0 (min_candidates_before_rank (rules_of config)))
    <= Z.of_nat (probe_buy_count proposals) ->
  top_n <= Z.of_nat (probe_buy_count proposals) ->
  exists ranked : list Entry,
    _rank_entry_proposals log1p proposals config = Some ranked /\
    length ranked = length proposals /\
    (Z.of_nat (probe_buy_count ranked) = top_n /\
     Z.of_nat (hold_count ranked)
     = Z.of_nat (hold_count proposals) + (Z.of_nat (probe_buy_count proposals) - top_n)) /\
    (forall i e, proposals !! i = Some e ->
       exists e', ranked !! i = Some e' /\
         (is_probe_buy e = false -> e' = e) /\
         (is_probe_buy e = true ->
            e_momentum_score e'
            = adjusted_score log1p config (default 20 (momentum_lookback (rules_of config))) e /\
            (e_proposal e' = e_proposal e \/
             action (e_proposal e') = ACTION_HOLD /\
             reason_codes (e_proposal e') = reason_codes (e_proposal e) ++ ["RANKED_OUT"] /\
             guards (e_proposal e') = guards (e_proposal e) /\
             expires_at (e_proposal e') = expires_at (e_proposal e)))) /\
    ((forall k e, ranked !! k = Some e -> not_nan (stored_score e)) ->
     forall i j kept out e,
       ranked !! i = Some kept -> is_probe_buy kept = true ->
       proposals !! j = Some e -> is_probe_buy e = true ->
       ranked !! j = Some out -> is_probe_buy out = false ->
       (stored_score kept <? stored_score out)%float = false).
Proof.
  intros top_n Hn Hmin Htop. unfold _rank_entry_proposals. fold top_n.
  set (idxs := positions_where is_probe_buy 0 proposals).
  assert (Hlen : length idxs = probe_buy_count proposals)
    by apply candidates_length.
  rewrite Hlen.
  replace ((top_n <=? 0) || (Z.of_nat (probe_buy_count proposals) <? _)) with false
    by (symmetry; apply orb_false_iff; lia).
  destruct (score_entries_spec log1p config (default 20 (momentum_lookback (rules_of config)))
              idxs proposals (positions_where_NoDup _ _ _) (positions_where_bound _ _))
    as (ps1 & Hscore & Hrel & Hother & Hadj).
  rewrite Hscore. cbn [mbind option_bind].
  set (key := fun i : nat =>
         match ps1 !! i with
         | Some entry => default 0%float (e_momentum_score entry)
         | None => 0%float
         end).
  set (sorted := sort_desc key idxs).
  assert (Hperm : sorted ≡ₚ idxs) by apply sort_desc_perm.
  assert (Hslen : length sorted = length idxs) by now rewrite Hperm.
  rewrite py_slice_from by lia.
  set (dropped := drop (Z.to_nat top_n) sorted).
  assert (Hnd : NoDup sorted) by (rewrite Hperm; apply positions_where_NoDup).
  assert (Hsplit : sorted = take (Z.to_nat top_n) sorted ++ dropped)
    by (symmetry; apply take_drop).
  assert (Hndd : NoDup dropped).
  { rewrite Hsplit in Hnd. now apply NoDup_app in Hnd as (_ & _ & ?). }
  assert (Hidx : forall i, i ∈ idxs <->
            exists e, proposals !! i = Some e /\ is_probe_buy e = true).
  { intros i. unfold idxs. rewrite positions_where_elem, Nat.sub_0_r.
    split; [intros (_ & H); exact H|intros H; split; [lia|exact H]]. }
  apply Forall2_same_length_lookup in Hrel as [Hlen1 Hrel].
  assert (Hps1 : forall i e, proposals !! i = Some e ->
            exists e1, ps1 !! i = Some e1 /\ scored_from e e1).
  { intros i e He.
    destruct (lookup_lt_is_Some_2 ps1 i) as [e1 He1].
    { rewrite <- Hlen1. eapply lookup_lt_Some, He. }
    exists e1. split; [exact He1|]. now apply (Hrel i). }
  assert (Hdrop_pb : forall j, j ∈ dropped ->
            exists e1, ps1 !! j = Some e1 /\ is_probe_buy e1 = true).
  { intros j Hj.
    assert (Hjs : j ∈ sorted) by (rewrite Hsplit; apply elem_of_app; now right).
    rewrite Hperm in Hjs. apply Hidx in Hjs as (e & He & Hp).
    destruct (Hps1 j e He) as (e1 & He1 & Hsc).
    exists e1. split; [exact He1|].
    unfold is_probe_buy in *. now rewrite (scored_from_proposal e e1 Hsc). }
  set (ranked := foldl (fun qs j => alter demote j qs) ps1 dropped).
  assert (Hlook : forall i, ranked !! i =
            if decide (i ∈ dropped) then demote <$> ps1 !! i else ps1 !! i)
    by (intros i; now apply demote_fold_lookup).
  exists ranked. split; [reflexivity|]. split; [|split; [|split]].
  - unfold ranked. now rewrite foldl_alter_length.
  - destruct (demote_fold_count dropped ps1 Hndd Hdrop_pb) as [Hcount Hholds].
    fold ranked in Hcount, Hholds.
    assert (Hc1 : probe_buy_count ps1 = probe_buy_count proposals).
    { apply count_where_scored; [apply is_probe_buy_scored|].
      apply Forall2_same_length_lookup. now split. }
    assert (Hc2 : hold_count ps1 = hold_count proposals).
    { apply count_where_scored; [apply is_hold_scored|].
      apply Forall2_same_length_lookup. now split. }
    assert (Hdl : length dropped = (length sorted - Z.to_nat top_n)%nat)
      by apply length_drop.
    lia.
  - intros i e He. destruct (Hps1 i e He) as (e1 & He1 & Hsc).
    rewrite Hlook, He1. destruct (decide (i ∈ dropped)) as [Hin|Hnin]; cbn [fmap option_fmap option_map].
    + exists (demote e1). split; [reflexivity|]. split.
      * intros Hnp. exfalso.
        destruct (Hdrop_pb i Hin) as (e1' & He1' & Hp1). rewrite He1 in He1'.
        injection He1' as <-. unfold is_probe_buy in *.
        rewrite (scored_from_proposal e e1 Hsc) in Hp1. congruence.
      * intros Hp. split.
        -- apply (Hadj i e e1); [|exact He|exact He1]. apply Hidx. eauto.
        -- right. cbn. rewrite (scored_from_proposal e e1 Hsc).
           split; [reflexivity|]. split; [reflexivity|]. split; reflexivity.
    + exists e1. split; [reflexivity|]. split.
      * intros Hnp.
        assert (Hni : i ∉ idxs).
        { intros Hi. apply Hidx in Hi as (e0 & He0 & Hp0). congruence. }
        rewrite (Hother i Hni), He in He1. congruence.
      * intros Hp. split.
        -- apply (Hadj i e e1); [|exact He|exact He1]. apply Hidx. eauto.
        -- left. apply (scored_from_proposal e e1 Hsc).
  - intros Hnan i j kept out e Hi Hkept Hj Hpj Hout Hnot.
    assert (Hin_j : j ∈ dropped).
    { destruct (decide (j ∈ dropped)) as [H|H]; [exact H|exfalso].
      rewrite Hlook in Hout. destruct (decide (j ∈ dropped)); [contradiction|].
      destruct (Hps1 j e Hj) as (e1 & He1 & Hsc). rewrite He1 in Hout. injection Hout as <-.
      unfold is_probe_buy in *. rewrite (scored_from_proposal e e1 Hsc) in Hnot. congruence. }
    assert (Hnin_i : i ∉ dropped).
    { intros H. rewrite Hlook in Hi. destruct (decide (i ∈ dropped)); [|contradiction].
      destruct (ps1 !! i); [|discriminate]. injection Hi as <-.
      rewrite demote_not_probe_buy in Hkept. discriminate. }
    assert (Hi1 : ps1 !! i = Some kept).
    { rewrite Hlook in Hi. now destruct (decide (i ∈ dropped)). }
    assert (Hin_i : i ∈ take (Z.to_nat top_n) sorted).
    { assert (His : i ∈ sorted).
      { rewrite Hperm. apply Hidx.
        destruct (lookup_lt_is_Some_2 proposals i) as [e0 He0].
        { rewrite Hlen1. eapply lookup_lt_Some, Hi1. }
        exists e0. split; [exact He0|].
        destruct (Hps1 i e0 He0) as (e1 & He1 & Hsc). rewrite Hi1 in He1. injection He1 as <-.
        unfold is_probe_buy in *. now rewrite <- (scored_from_proposal e0 kept Hsc). }
      rewrite Hsplit in His. apply elem_of_app in His as [?|?]; [assumption|contradiction]. }
    assert (Hkeys : forall a e1, ps1 !! a = Some e1 -> not_nan (key a)).
    { intros a e1 Ha. unfold key. rewrite Ha.
      destruct (decide (a ∈ dropped)) as [Hd|Hd].
      - change (not_nan (stored_score (demote e1))).
        apply (Hnan a). now rewrite Hlook, Ha, decide_True.
      - change (not_nan (stored_score e1)).
        apply (Hnan a). now rewrite Hlook, Ha, decide_False. }
    assert (Hsorted : StronglySorted (not_below key) sorted).
    { apply sort_desc_sorted. apply Forall_forall. intros a Ha.
      apply Hidx in Ha as (e0 & He0 & _). destruct (Hps1 a e0 He0) as (e1 & He1 & _).
      now apply (Hkeys a e1). }
    rewrite Hsplit in Hsorted.
    pose proof (StronglySorted_app_1_elem_of _ _ _ i j Hsorted Hin_i Hin_j) as Hij.
    unfold not_below, key in Hij. rewrite Hi1 in Hij.
    destruct (Hdrop_pb j Hin_j) as (e1 & He1 & _). rewrite He1 in Hij.
    rewrite Hlook, He1, decide_True in Hout by assumption. injection Hout as <-.
    exact Hij.
Qed.

End RankTheorem.

(** C5: with [top_n_per_tick = N > 0] and at least [max(1,
    min_candidates_before_rank)] and at least [N] PROBE_BUY candidates,
    ranking does not raise and leaves exactly [N] proposals with action
    PROBE_BUY; every other candidate becomes HOLD, its reason codes being
    its former reason codes followed by RANKED_OUT and its guards and
    expiry kept (so the HOLD count grows by the number of
    candidates minus [N]: with [N = 1] and 3 candidates, 1 stays
    PROBE_BUY and 2 become HOLD); entries that were not PROBE_BUY are
    untouched; every candidate carries its adjusted momentum score; and,
    no stored score being a NaN, no kept candidate's score is below a
    demoted one's.  With
    [top_n_per_tick <= 0] or fewer candidates than the threshold the list
    is returned unchanged. *)
Theorem rank_entry_proposals_top_n (log1p : float -> float) (proposals : list Entry)
    (config : Config) :
  let top_n := default 0 (top_n_per_tick (rules_of config)) in
  let threshold := Z.max 1 (default 0 (min_candidates_before_rank (rules_of config))) in
  let candidates := Z.of_nat (probe_buy_count proposals) in
  (0 < top_n -> threshold <= candidates -> top_n <= candidates ->
   exists ranked : list Entry,
     _rank_entry_proposals log1p proposals config = Some ranked /\
     length ranked = length proposals /\
     (Z.of_nat (probe_buy_count ranked) = top_n /\
      Z.of_nat (hold_count ranked) = Z.of_nat (hold_count proposals) + (candidates - top_n)) /\
     (forall i e, proposals !! i = Some e ->
        exists e', ranked !! i = Some e' /\
          (is_probe_buy e = false -> e' = e) /\
          (is_probe_buy e = true ->
             e_momentum_score e'
             = adjusted_score log1p config (default 20 (momentum_lookback (rules_of config))) e /\
             (e_proposal e' = e_proposal e \/
              action (e_proposal e') = ACTION_HOLD /\
              reason_codes (e_proposal e') = reason_codes (e_proposal e) ++ ["RANKED_OUT"] /\
              guards (e_proposal e') = guards (e_proposal e) /\
              expires_at (e_proposal e') = expires_at (e_proposal e)))) /\
     ((forall k e, ranked !! k = Some e -> not_nan (stored_score e)) ->
      forall i j kept out e,
        ranked !! i = Some kept -> is_probe_buy kept = true ->
        proposals !! j = Some e -> is_probe_buy e = true ->
        ranked !! j = Some out -> is_probe_buy out = false ->
        (stored_score kept <? stored_score out)%float = false)) /\
  (top_n <= 0 \/ candidates < threshold ->
   _rank_entry_proposals log1p proposals config = Some proposals).
Proof.
  intros top_n threshold candidates. split.
  - apply rank_top_n.
  - apply rank_noop.
Qed.

Lemma rank_entry_proposals_top_n_witness :
  exists ranked : list Entry,
    _rank_entry_proposals log1p_sample demo_proposals rank_config = Some ranked /\
    probe_buy_count ranked = 1%nat /\ hold_count ranked = 2%nat.
Proof.
  destruct (proj1 (rank_entry_proposals_top_n log1p_sample demo_proposals rank_config))
    as (ranked & Hrank & _ & (Hpb & Hhold) & _).
  - vm_compute. reflexivity.
  - vm_compute. discriminate.
  - vm_compute. discriminate.
  - exists ranked. split; [exact Hrank|].
    change (default 0 (top_n_per_tick (rules_of rank_config))) with 1 in Hpb, Hhold.
    change (Z.of_nat (hold_count demo_proposals)) with 0 in Hhold.
    change (Z.of_nat (probe_buy_count demo_proposals)) with 3 in Hhold.
    lia.
Defined.

(** The example tick evaluated: only the token that doubled stays a
    PROBE_BUY. *)
Example rank_entry_proposals_demo :
  (fun ranked => map (fun e => (e_symbol e, action (e_proposal e), reason_codes (e_proposal e)))
                   ranked)
    <$> _rank_entry_proposals log1p_sample demo_proposals rank_config
  = Some [ ("FLAT", "HOLD", ["BREAKOUT_CONFIRM"; "RANKED_OUT"]);
           ("UP", "PROBE_BUY", ["BREAKOUT_CONFIRM"]);
           ("DOWN", "HOLD", ["BREAKOUT_CONFIRM"; "RANKED_OUT"]) ].
Proof. vm_compute. reflexivity. Qed.

(** ** Regime score against the specification *)

(** *** Rounding to binary64 never yields a NaN *)

Lemma shr_1_nonneg (mrs : shr_record) : 0 <= shr_m mrs -> 0 <= shr_m (shr_1 mrs).
Proof.
  destruct mrs as [m r s]. cbn [shr_m shr_1].
  destruct m as [|[p|p|]|p]; cbn [shr_m]; lia.
Qed.

Lemma iter_pos_shr_1_nonneg (p : positive) (mrs : shr_record) :
  0 <= shr_m mrs -> 0 <= shr_m (SpecFloat.iter_pos shr_1 p mrs).
Proof.
  revert mrs. induction p as [p IH|p IH|]; intros mrs H; cbn [SpecFloat.iter_pos].
  - apply IH, IH, shr_1_nonneg, H.
  - apply IH, IH, H.
  - apply shr_1_nonneg, H.
Qed.

Lemma shr_fexp_nonneg (m e : Z) (l : location) :
  0 <= m -> 0 <= shr_m (fst (shr_fexp prec emax m e l)).
Proof.
  intros H. unfold shr_fexp, shr.
  assert (H0 : 0 <= shr_m (shr_record_of_loc m l)) by (destruct l as [|[]]; exact H).
  destruct (fexp prec emax (Zdigits2 m + e) - e); cbn [fst]; try exact H0.
  apply iter_pos_shr_1_nonneg, H0.
Qed.

Lemma round_nearest_even_nonneg (m : Z) (l : location) :
  0 <= m -> 0 <= round_nearest_even m l.
Proof.
  intros H. unfold round_nearest_even.
  destruct l as [|[]]; try destruct (Z.even m); lia.
Qed.

Lemma binary_round_aux_not_nan (sx : bool) (mx ex : Z) (lx : location) :
  0 <= mx -> binary_round_aux prec emax sx mx ex lx <> S754_nan.
Proof.
  intros H. unfold binary_round_aux.
  pose proof (shr_fexp_nonneg mx ex lx H) as H1.
  destruct (shr_fexp prec emax mx ex lx) as [mrs' e']. cbn [fst] in H1.
  pose proof (shr_fexp_nonneg _ e' loc_Exact
                (round_nearest_even_nonneg _ (loc_of_shr_record mrs') H1)) as H2.
  destruct (shr_fexp prec emax _ e' loc_Exact) as [mrs'' e'']. cbn [fst] in H2.
  destruct (shr_m mrs''); [discriminate| |lia].
  destruct (_ <=? _); discriminate.
Qed.

Lemma binary_normalize_not_nan (m e : Z) (szero : bool) :
  binary_normalize prec emax m e szero <> S754_nan.
Proof.
  unfold binary_normalize, binary_round.
  destruct m as [|p|p]; [discriminate| |];
    destruct (shl_align _ _ _) as [mz ez]; apply binary_round_aux_not_nan; lia.
Qed.

Lemma SFmul_not_nan (x y : spec_float) :
  x <> S754_nan -> sf_finite y = true -> SFeqb y (S754_zero false) = false ->
  SFmul prec emax x y <> S754_nan.
Proof.
  destruct x as [sx|sx| |sx mx ex], y as [sy|sy| |sy my ey]; cbn [sf_finite SFmul];
    intros Hx Hy Hz; try discriminate; try congruence.
  apply binary_round_aux_not_nan. lia.
Qed.

Lemma SFadd_not_nan (x y : spec_float) :
  x <> S754_nan -> sf_finite y = true -> SFadd prec emax x y <> S754_nan.
Proof.
  destruct x as [sx|sx| |sx mx ex], y as [sy|sy| |sy my ey]; cbn [sf_finite SFadd];
    intros Hx Hy; try discriminate; try congruence.
  - destruct sx, sy; discriminate.
  - apply binary_normalize_not_nan.
Qed.

Lemma SFsub_not_nan (x y : spec_float) :
  x <> S754_nan -> sf_finite y = true -> SFsub prec emax x y <> S754_nan.
Proof.
  destruct x as [sx|sx| |sx mx ex], y as [sy|sy| |sy my ey]; cbn [sf_finite SFsub];
    intros Hx Hy; try discriminate; try congruence.
  - destruct sx, sy; discriminate.
  - apply binary_normalize_not_nan.
Qed.

Lemma not_nan_of_spec (x : float) : Prim2SF x <> S754_nan -> not_nan x.
Proof.
  intros H. unfold not_nan. rewrite FloatAxioms.eqb_spec. now apply SFeqb_refl.
Qed.

Lemma float_mul_not_nan (x y : float) :
  not_nan x -> sf_finite (Prim2SF y) = true -> (y =? 0)%float = false -> not_nan (x * y).
Proof.
  intros Hx Hy Hz. apply not_nan_of_spec. rewrite FloatAxioms.mul_spec.
  rewrite FloatAxioms.eqb_spec in Hz.
  apply SFmul_not_nan; [now apply not_nan_spec|exact Hy|exact Hz].
Qed.

Lemma float_add_not_nan (x y : float) :
  not_nan x -> sf_finite (Prim2SF y) = true -> not_nan (x + y).
Proof.
  intros Hx Hy. apply not_nan_of_spec. rewrite FloatAxioms.add_spec.
  apply SFadd_not_nan; [now apply not_nan_spec|exact Hy].
Qed.

Lemma float_sub_not_nan (x y : float) :
  not_nan x -> sf_finite (Prim2SF y) = true -> not_nan (x - y).
Proof.
  intros Hx Hy. apply not_nan_of_spec. rewrite FloatAxioms.sub_spec.
  apply SFsub_not_nan; [now apply not_nan_spec|exact Hy].
Qed.

Lemma is_finite_not_nan (x : float) : is_finite x = true -> not_nan x.
Proof.
  unfold is_finite, is_nan, not_nan. destruct (x =? x)%float; [reflexivity|discriminate].
Qed.

(** *** The two clamps *)

(** Two numbers neither of which is below the other are the same float,
    or both are zeros. *)
Lemma SF_incomparable (a b : spec_float) :
  a <> S754_nan -> b <> S754_nan -> SFltb a b = false -> SFltb b a = false ->
  a = b \/ (exists s s', a = S754_zero s /\ b = S754_zero s').
Proof.
  unfold SFltb, SFcompare.
  destruct a as [[]|[]| |[] ma ea], b as [[]|[]| |[] mb eb];
    intros Ha Hb; try congruence; try (intros; left; reflexivity);
    try (intros; right; eauto; fail); try discriminate;
    try (intros _ H; discriminate H).
  all: intros H1 H2;
    change (Pos.compare_cont Eq ma mb) with (Pos.compare ma mb) in H1;
    change (Pos.compare_cont Eq mb ma) with (Pos.compare mb ma) in H2;
    destruct (Z.compare_spec ea eb) as [->|He|He];
    [ rewrite Z.compare_refl in H2;
      destruct (Pos.compare_spec ma mb) as [->|Hm|Hm];
      [ now left
      | destruct (Pos.compare_spec mb ma); cbn in H1, H2; first [discriminate | lia]
      | destruct (Pos.compare_spec mb ma); cbn in H1, H2; first [discriminate | lia] ]
    | destruct (Z.compare_spec eb ea); cbn in H1, H2; first [discriminate | lia]
    | destruct (Z.compare_spec eb ea); cbn in H1, H2; first [discriminate | lia] ].
Qed.

Lemma float_incomparable (a b : float) :
  not_nan a -> not_nan b -> (a <? b)%float = false -> (b <? a)%float = false ->
  a = b \/ (exists s s', Prim2SF a = S754_zero s /\ Prim2SF b = S754_zero s').
Proof.
  rewrite !FloatAxioms.ltb_spec. intros Ha Hb H1 H2.
  destruct (SF_incomparable _ _ (not_nan_spec a Ha) (not_nan_spec b Hb) H1 H2) as [E|E].
  - left. now apply Prim2SF_inj.
  - now right.
Qed.

Lemma float_zero_eqb (a : float) (s : bool) :
  Prim2SF a = S754_zero s -> (a =? 0)%float = true.
Proof. intros E. rewrite FloatAxioms.eqb_spec, E. reflexivity. Qed.

(** Between bounds that are not zero, [max(low, min(high, value))] is the
    clamp of the specification for every value that is not a NaN. *)
Lemma clamp_agree (x lo hi : float) :
  not_nan x -> not_nan lo -> not_nan hi -> (lo <? hi)%float = true ->
  (lo =? 0)%float = false -> (hi =? 0)%float = false ->
  _clamp x lo hi = clamp_spec x lo hi.
Proof.
  intros Hx Hlo Hhi Hlh Hlz Hhz. unfold _clamp, clamp_spec, Py.max2, Py.min2.
  destruct (x <? hi)%float eqn:Hxh.
  - rewrite (float_lt_asym _ _ Hxh).
    destruct (lo <? x)%float eqn:Hlx.
    + rewrite (float_lt_asym _ _ Hlx). reflexivity.
    + destruct (x <? lo)%float eqn:Hxl; [reflexivity|].
      destruct (float_incomparable x lo Hx Hlo Hxl Hlx) as [->|(s & s' & _ & E)];
        [reflexivity|].
      rewrite (float_zero_eqb lo s' E) in Hlz. discriminate Hlz.
  - rewrite Hlh.
    assert (Hxl : (x <? lo)%float = false).
    { destruct (x <? lo)%float eqn:Hxl; [|reflexivity].
      pose proof (float_not_lt_trans lo x hi Hx (float_lt_asym _ _ Hxl) Hxh). congruence. }
    rewrite Hxl. destruct (hi <? x)%float eqn:Hhx; [reflexivity|].
    destruct (float_incomparable x hi Hx Hhi Hxh Hhx) as [->|(s & s' & _ & E)];
      [reflexivity|].
    rewrite (float_zero_eqb hi s' E) in Hhz. discriminate Hhz.
Qed.

(** The final clamps to 0..100 differ at most in the sign of a zero, which
    rounding forgets. *)
Lemma round_clamp_agree (x : float) :
  not_nan x -> Py.round (_clamp x 0 100) = Py.round (clamp_spec x 0 100).
Proof.
  intros Hx. unfold _clamp, clamp_spec, Py.max2, Py.min2.
  destruct (x <? 100)%float eqn:Hxh.
  - rewrite (float_lt_asym _ _ Hxh).
    destruct (0 <? x)%float eqn:Hlx.
    + rewrite (float_lt_asym _ _ Hlx). reflexivity.
    + destruct (x <? 0)%float eqn:Hxl; [reflexivity|].
      destruct (float_incomparable x 0 Hx eq_refl Hxl Hlx) as [->|(s & s' & E & _)];
        [reflexivity|].
      unfold Py.round. rewrite E. reflexivity.
  - assert (Hlh : (0 <? 100)%float = true) by reflexivity.
    rewrite Hlh.
    assert (Hxl : (x <? 0)%float = false).
    { destruct (x <? 0)%float eqn:Hxl; [|reflexivity].
      pose proof (float_not_lt_trans 0 x 100 Hx (float_lt_asym _ _ Hxl) Hxh). congruence. }
    rewrite Hxl. destruct (100 <? x)%float eqn:Hhx; [reflexivity|].
    destruct (float_incomparable x 100 Hx eq_refl Hxh Hhx) as [->|(s & s' & _ & E)];
      [reflexivity|].
    apply float_zero_eqb in E. vm_compute in E. discriminate E.
Qed.

(** A clamp between two numbers is a number, whatever is clamped. *)
Lemma clamp_finite (x lo hi : float) :
  sf_finite (Prim2SF lo) = true -> sf_finite (Prim2SF hi) = true ->
  sf_finite (Prim2SF (_clamp x lo hi)) = true.
Proof.
  intros Hlo Hhi. unfold _clamp, Py.max2, Py.min2.
  destruct (x <? hi)%float eqn:Hxh; [|now destruct (lo <? hi)%float].
  destruct (lo <? x)%float eqn:Hlx; [|exact Hlo].
  revert Hxh Hlx Hlo Hhi. rewrite !FloatAxioms.ltb_spec.
  unfold SFltb, SFcompare.
  destruct (Prim2SF x) as [[]|[]| |[] m e], (Prim2SF lo) as [[]|[]| |[] ml el],
    (Prim2SF hi) as [[]|[]| |[] mh eh];
    cbn [sf_finite]; intros Hxh Hlx Hlo Hhi; try reflexivity; try discriminate.
Qed.

(** [compute_regime_score] never raises and stays within 0..100. *)
Lemma compute_regime_score_total (return_pct volume_accel range_ratio : float) :
  exists n : Z,
    compute_regime_score return_pct volume_accel range_ratio = Some n /\ 0 <= n <= 100.
Proof. unfold compute_regime_score. apply round_clamp_0_100. Qed.

(** On inputs that are not NaN the source's nested [max]/[min] compute
    the score of the specification. *)
Lemma compute_regime_score_agrees (return_pct volume_accel range_ratio : float) :
  not_nan return_pct -> not_nan volume_accel -> not_nan range_ratio ->
  compute_regime_score return_pct volume_accel range_ratio
  = Py.round (regime_score_spec return_pct volume_accel range_ratio).
Proof.
  intros Hr Hv Hg. unfold compute_regime_score, regime_score_spec. cbv zeta.
  assert (H1 : not_nan (return_pct * 2000))
    by (apply float_mul_not_nan; [exact Hr|reflexivity|reflexivity]).
  assert (H2 : not_nan (volume_accel * 20))
    by (apply float_mul_not_nan; [exact Hv|reflexivity|reflexivity]).
  assert (H3 : not_nan ((range_ratio - 1) * 20)).
  { apply float_mul_not_nan; [|reflexivity|reflexivity].
    apply float_sub_not_nan; [exact Hg|reflexivity]. }
  rewrite <- (clamp_agree (return_pct * 2000) (-30) 30 H1) by reflexivity.
  rewrite <- (clamp_agree (volume_accel * 20) (-20) 20 H2) by reflexivity.
  rewrite <- (clamp_agree ((range_ratio - 1) * 20) (-20) 20 H3) by reflexivity.
  apply round_clamp_agree.
  apply float_add_not_nan; [|apply clamp_finite; reflexivity].
  apply float_add_not_nan; [|apply clamp_finite; reflexivity].
  apply float_add_not_nan; [reflexivity|apply clamp_finite; reflexivity].
Qed.

(** C8: for all finite inputs [compute_regime_score] returns an integer
    in [0, 100], and that integer is the rounding of the specification's
    score: 50 plus [return_pct*2000] limited to -30..30, [volume_accel*20]
    limited to -20..20 and [(range_ratio-1)*20] limited to -20..20, the
    total limited to 0..100.  ([clamp_spec] limits a value to an interval
    by comparing it with the two bounds; the source nests [max] and
    [min].) *)
Theorem compute_regime_score_range (return_pct volume_accel range_ratio : float) :
  is_finite return_pct = true -> is_finite volume_accel = true ->
  is_finite range_ratio = true ->
  exists n : Z,
    compute_regime_score return_pct volume_accel range_ratio = Some n /\
    0 <= n <= 100 /\
    Py.round (regime_score_spec return_pct volume_accel range_ratio) = Some n.
Proof.
  intros Hr Hv Hg.
  destruct (compute_regime_score_total return_pct volume_accel range_ratio) as (n & Hn & Hrange).
  exists n. split; [exact Hn|]. split; [exact Hrange|].
  rewrite <- Hn. symmetry.
  apply compute_regime_score_agrees; now apply is_finite_not_nan.
Qed.

(** A tie that rounds down to the even 52, a tie that rounds up to the
    even 58, the repository's fixture, and the two ends of the range. *)
Lemma compute_regime_score_range_witness :
  compute_regime_score 0 0.125 1 = Some 52 /\
  compute_regime_score 0 0.125 1.25 = Some 58 /\
  compute_regime_score 0.75 0.2857142857142858 1.125 = Some 88 /\
  compute_regime_score (-1) (-5) 0 = Some 0 /\
  compute_regime_score 1 5 5 = Some 100.
Proof.
  split; [|split; [|split; [|split]]].
  - destruct (compute_regime_score_range 0 0.125 1 eq_refl eq_refl eq_refl)
      as (n & Hn & _ & Hs).
    rewrite Hn, <- Hs. vm_compute. reflexivity.
  - destruct (compute_regime_score_range 0 0.125 1.25 eq_refl eq_refl eq_refl)
      as (n & Hn & _ & Hs).
    rewrite Hn, <- Hs. vm_compute. reflexivity.
  - destruct (compute_regime_score_range 0.75 0.2857142857142858 1.125 eq_refl eq_refl eq_refl)
      as (n & Hn & _ & Hs).
    rewrite Hn, <- Hs. vm_compute. reflexivity.
  - destruct (compute_regime_score_range (-1) (-5) 0 eq_refl eq_refl eq_refl)
      as (n & Hn & _ & Hs).
    rewrite Hn, <- Hs. vm_compute. reflexivity.
  - destruct (compute_regime_score_range 1 5 5 eq_refl eq_refl eq_refl)
      as (n & Hn & _ & Hs).
    rewrite Hn, <- Hs. vm_compute. reflexivity.
Defined.

(** The premise is needed: on a NaN the source's [min(high, value)] keeps
    [high], so a NaN return counts as the full +30, where the clamp of the
    specification has no value to round. *)
Example regime_score_nan :
  compute_regime_score nan 0 1 = Some 80 /\
  Py.round (regime_score_spec nan 0 1) = None.
Proof. split; vm_compute; reflexivity. Qed.

(** ** The repository's unit tests, replayed on the embedding *)

(** tests/test_reentry_lockout.py::test_reentry_lockout_index_based *)
Example test_reentry_lockout_index_based :
  can_reenter 0 None (Some 100) (Some 100%float) 105 test_reentry_cfg false false None (Some 105)
    = false /\
  can_reenter 0 None (Some 100) (Some 100%float) 111 test_reentry_cfg false false None (Some 105)
    = true /\
  can_reenter 0 None (Some 100) (Some 100%float) 101 test_reentry_cfg false false None (Some 111)
    = true.
Proof. repeat split; vm_compute; reflexivity. Qed.

(** tests/test_reentry_lockout.py::test_stop_loss_multiplier_blocks_reentry *)
Example test_stop_loss_multiplier_blocks_reentry :
  can_reenter 0 None (Some 100) (Some 100%float) 105 test_reentry_cfg false true None (Some 120)
    = false /\
  can_reenter 0 None (Some 100) (Some 100%float) 111 test_reentry_cfg false true None (Some 120)
    = true /\
  can_reenter 0 None (Some 100) (Some 100%float) 101 test_reentry_cfg false true None (Some 131)
    = true.
Proof. repeat split; vm_compute; reflexivity. Qed.

(** tests/test_reentry_lockout.py::test_infer_interval_sec_uses_median_spacing *)
Example test_infer_interval_sec_uses_median_spacing :
  infer_interval_sec test_interval_candles = 300.
Proof. reflexivity. Qed.

(** tests/test_pending_breakout.py::test_pending_breakout_sets_on_breakout_and_holds *)
Example test_pending_breakout_sets_on_breakout_and_holds :
  let '(state, proposal) :=
    propose_action (_make_snapshot 10 1.2 1.1 1.25 true 1) initial_state test_pending_cfg in
  action proposal = ACTION_HOLD /\ reason_codes proposal = ["BREAKOUT_PENDING"] /\
  pending_breakout_index state = Some 10 /\
  pending_breakout_level state = Some 1%float /\
  pending_breakout_expires_index state = Some 13.
Proof. vm_compute. repeat split. Qed.

(** tests/test_pending_breakout.py::test_confirm_breakout_enters_on_next_bar *)
Example test_confirm_breakout_enters_on_next_bar :
  let '(state, proposal) :=
    propose_action (_make_snapshot 11 1.08 0.97 1.1 false 1) (test_pending_state 13)
      test_pending_cfg in
  action proposal = ACTION_PROBE_BUY /\ reason_codes proposal = ["BREAKOUT_CONFIRM"] /\
  pending_clear state.
Proof. vm_compute. repeat split. Qed.

(** tests/test_pending_breakout.py::test_pending_expires_if_no_confirm *)
Example test_pending_expires_if_no_confirm :
  let '(state, proposal) :=
    propose_action (_make_snapshot 13 0.99 0.95 1 false 1) (test_pending_state 12)
      test_pending_cfg in
  action proposal = ACTION_HOLD /\ reason_codes proposal = ["BREAKOUT_EXPIRED"] /\
  pending_clear state.
Proof. vm_compute. repeat split. Qed.

(** tests/test_pending_breakout.py::test_confirm_fails_when_retrace_too_deep *)
Example test_confirm_fails_when_retrace_too_deep :
  let '(state, proposal) :=
    propose_action (_make_snapshot 11 1.08 0.92 1.1 false 1) (test_pending_state 13)
      test_pending_cfg in
  action proposal = ACTION_HOLD /\ reason_codes proposal = ["BREAKOUT_WAIT"] /\
  pending_breakout_index state = Some 10.
Proof. vm_compute. repeat split. Qed.

(** tests/test_struct_stop.py::test_struct_stop_triggers_exit *)
Example test_struct_stop_triggers_exit :
  let '(_, proposal) :=
    propose_action test_struct_stop_snapshot test_struct_stop_state test_struct_stop_cfg in
  action proposal = ACTION_EXIT_FULL /\ reason_codes proposal = ["STRUCT_STOP"].
Proof. vm_compute. repeat split. Qed.

(** tests/test_birdeye_provider_offline.py: the regime score of the
    fixture's features is 88. *)
Example test_regime_score_fixture :
  compute_regime_score 0.75 0.2857142857142858 1.125 = Some 88.
Proof. vm_compute. reflexivity. Qed.

(** * Further properties *)

(** ** Cooldown countdown *)

Lemma advance_time_cooldown_more (state : TokenState) (c : Z) :
  status state = STATE_COOLDOWN -> 1 < c ->
  advance_time (set_cooldown_left c state) = set_cooldown_left (c - 1) state.
Proof.
  intros Hst Hc. destruct state; cbn in *. subst.
  unfold advance_time; cbn.
  replace (0 <? c) with true by lia. cbn.
  now replace (c - 1 <=? 0) with false by lia.
Qed.

Lemma advance_time_cooldown_last (state : TokenState) :
  status state = STATE_COOLDOWN ->
  advance_time (set_cooldown_left 1 state) = set_cooldown_left 0 (set_status STATE_SCOUT state).
Proof.
  intros Hst. destruct state; cbn in *. now subst.
Qed.

Lemma set_cooldown_left_same (state : TokenState) :
  set_cooldown_left (cooldown_left state) state = state.
Proof. now destruct state. Qed.

Lemma advance_time_n_cooldown (n k : nat) (state : TokenState) :
  status state = STATE_COOLDOWN -> cooldown_left state = Z.of_nat n -> (k < n)%nat ->
  advance_time_n k state = set_cooldown_left (Z.of_nat n - Z.of_nat k) state.
Proof.
  intros Hst Hcl. induction k as [|k IH]; intros Hk.
  - cbn [advance_time_n]. change (Z.of_nat 0) with 0.
    now rewrite Z.sub_0_r, <- Hcl, set_cooldown_left_same.
  - cbn [advance_time_n]. rewrite IH by lia.
    rewrite advance_time_cooldown_more by (trivial; lia).
    f_equal. lia.
Qed.

(** X1: a token that enters COOLDOWN with [cooldown_left = n > 0] stays in
    COOLDOWN, counting down by one, for the next [n - 1] calls of
    [advance_time], and the [n]-th call returns it to SCOUT with
    [cooldown_left = 0]; no other field changes. *)
Theorem advance_time_cooldown_countdown (n : nat) (state : TokenState) :
  status state = STATE_COOLDOWN -> cooldown_left state = Z.of_nat n -> (0 < n)%nat ->
  (forall k, (k < n)%nat ->
     advance_time_n k state = set_cooldown_left (Z.of_nat n - Z.of_nat k) state) /\
  advance_time_n n state = set_cooldown_left 0 (set_status STATE_SCOUT state).
Proof.
  intros Hst Hcl Hn. split.
  - intros k Hk. now apply advance_time_n_cooldown.
  - destruct n as [|n]; [lia|].
    cbn [advance_time_n].
    rewrite (advance_time_n_cooldown (S n) n state Hst Hcl) by lia.
    replace (Z.of_nat (S n) - Z.of_nat n) with 1 by lia.
    now apply advance_time_cooldown_last.
Qed.

Lemma advance_time_cooldown_countdown_witness :
  advance_time_n 2 (run demo_config demo_calls initial_state)
  = set_cooldown_left 0 (set_status STATE_SCOUT (run demo_config demo_calls initial_state)).
Proof.
  apply (proj2 (advance_time_cooldown_countdown 2 (run demo_config demo_calls initial_state)
                  eq_refl eq_refl ltac:(lia))).
Defined.

(** ** A cooldown of zero candles *)

Lemma advance_time_cooldown_stuck (state : TokenState) :
  status state = STATE_COOLDOWN -> cooldown_left state <= 0 -> advance_time state = state.
Proof.
  intros Hst Hcl. destruct state; cbn in *. subst.
  unfold advance_time; cbn.
  now replace (0 <? cooldown_left0) with false by lia.
Qed.

(** X2: when the configured [cooldown_candles] is zero, negative or
    absent, a token that exits with EXIT_FULL is never returned to SCOUT
    by [advance_time]: every later call leaves the state as the exit left
    it, in COOLDOWN. *)
Theorem exit_without_cooldown_never_scouts (get_config : Config) (state : TokenState)
    (snapshot : Snapshot) (codes : option (list string)) (n : nat) :
  default 0 (cooldown_candles (engine_of get_config)) <= 0 ->
  let exited := apply_action get_config state "EXIT_FULL" snapshot None codes in
  status exited = STATE_COOLDOWN /\ advance_time_n n exited = exited.
Proof.
  intros Hcfg exited.
  assert (Hst : status exited = STATE_COOLDOWN) by (subst exited; now destruct state).
  assert (Hcl : cooldown_left exited <= 0) by (subst exited; now destruct state).
  split; [exact Hst|].
  induction n as [|n IH]; [reflexivity|].
  cbn [advance_time_n]. rewrite IH.
  now apply advance_time_cooldown_stuck.
Qed.

Lemma exit_without_cooldown_never_scouts_witness :
  status (advance_time_n 100
            (apply_action empty_config initial_state "EXIT_FULL" demo_snapshot None None))
  = STATE_COOLDOWN.
Proof.
  destruct (exit_without_cooldown_never_scouts empty_config initial_state demo_snapshot None 100)
    as [Hst Hfix]; [cbn; lia|].
  rewrite Hfix. exact Hst.
Defined.

(** ** The inferred candle interval *)

Lemma insert_Z_Forall (P : Z -> Prop) (x : Z) (xs : list Z) :
  P x -> Forall P xs -> Forall P (insert_Z x xs).
Proof.
  intros Hx Hxs. induction Hxs as [|y ys Hy Hys IH]; cbn.
  - now constructor.
  - destruct (x <=? y); repeat constructor; auto.
Qed.

Lemma insert_Z_length (x : Z) (xs : list Z) : length (insert_Z x xs) = S (length xs).
Proof.
  induction xs as [|y ys IH]; cbn; [reflexivity|].
  destruct (x <=? y); cbn; congruence.
Qed.

Lemma sorted_Z_Forall (P : Z -> Prop) (xs : list Z) : Forall P xs -> Forall P (sorted_Z xs).
Proof.
  induction 1 as [|x xs Hx Hxs IH]; cbn; [constructor|].
  now apply insert_Z_Forall.
Qed.

Lemma sorted_Z_length (xs : list Z) : length (sorted_Z xs) = length xs.
Proof.
  induction xs as [|x xs IH]; cbn; [reflexivity|].
  fold (sorted_Z xs). now rewrite insert_Z_length, IH.
Qed.

(** The positive steps between timestamps of [0 .. bound - 1] are within
    [1 .. bound - 1]. *)
Lemma positive_diffs_bounds (bound : Z) (cs : list Candle) :
  Forall (fun cd => 0 <= t cd < bound) cs ->
  Forall (fun d => 1 <= d < bound) (positive_diffs cs).
Proof.
  induction cs as [|c0 [|c1 rest] IH]; intros H; cbn [positive_diffs]; try constructor.
  pose proof (Forall_inv H) as H0. pose proof (Forall_inv_tail H) as Ht.
  pose proof (Forall_inv Ht) as H1. cbv beta in H0, H1.
  destruct (0 <? t c1 - t c0) eqn:E; [constructor; [lia|]|]; now apply IH.
Qed.

(** The median of integers of [1 .. bound - 1] lies there too. *)
Lemma median_Z_bounds (bound : Z) (xs : list Z) :
  xs <> [] -> Forall (fun d => 1 <= d < bound) xs -> 1 <= median_Z xs < bound.
Proof.
  intros Hne Hxs. unfold median_Z.
  pose proof (sorted_Z_Forall _ _ Hxs) as Hs.
  pose proof (sorted_Z_length xs) as Hl.
  assert (Hpos : (0 < length (sorted_Z xs))%nat).
  { rewrite Hl. destruct xs; [congruence|cbn; lia]. }
  rewrite (Forall_nth _ 0) in Hs.
  assert (Hhalf : (length (sorted_Z xs) / 2 < length (sorted_Z xs))%nat)
    by (apply Nat.div_lt; lia).
  destruct (Nat.odd _).
  - now apply Hs.
  - pose proof (Hs (length (sorted_Z xs) / 2)%nat Hhalf) as H1.
    pose proof (Hs (length (sorted_Z xs) / 2 - 1)%nat ltac:(lia)) as H2.
    cbv beta in H1, H2.
    rewrite Z.quot_div_nonneg by lia. split.
    + apply Z.div_le_lower_bound; lia.
    + apply Z.div_lt_upper_bound; lia.
Qed.

(** X3: for candles whose timestamps are non-negative and below [2^52]
    (unordered or repeated timestamps included), [infer_interval_sec]
    returns a positive number of seconds below [2^52], and the default 60
    when there are fewer than two candles.  (Within this range the float
    mean [statistics.median] takes of two middle steps is exact, and its
    truncation is the integer quotient of [median_Z].) *)
Theorem infer_interval_sec_positive (cs : list Candle) :
  Forall (fun cd => 0 <= t cd < 2 ^ 52) cs ->
  1 <= infer_interval_sec cs < 2 ^ 52 /\
  ((length cs < 2)%nat -> infer_interval_sec cs = 60).
Proof.
  intros Hts. split.
  - unfold infer_interval_sec.
    pose proof (positive_diffs_bounds _ cs Hts) as Hpos.
    destruct (positive_diffs cs) as [|d ds] eqn:E.
    + split; [lia|reflexivity].
    + now apply median_Z_bounds.
  - intros Hlen. destruct cs as [|c0 [|c1 rest]]; cbn in *; try reflexivity; lia.
Qed.

Lemma infer_interval_sec_positive_witness :
  1 <= infer_interval_sec test_interval_candles < 2 ^ 52.
Proof.
  apply (infer_interval_sec_positive test_interval_candles).
  unfold test_interval_candles.
  repeat (constructor; [split; [apply Z.leb_le|apply Z.ltb_lt]; reflexivity|]).
  constructor.
Defined.

(** ** Re-entry after an exit *)

(** X4: each of these conditions alone opens re-entry, whatever the other
    arguments: no recorded exit price, a lockout of zero candles or less,
    a volume override, or a close at or above the exit price raised by
    [min_breakout_pct]. *)
Theorem can_reenter_unlocks (now_ts : Z) (last_exit_ts last_exit_index : option Z)
    (last_exit_price : option float) (current_close : float) (cfg : Config)
    (vol_ok last_exit_was_stop : bool) (interval_sec now_index : option Z) :
  last_exit_price = None \/
  _lockout_candles cfg last_exit_was_stop <= 0 \/
  vol_ok = true \/
  (exists exit_price, last_exit_price = Some exit_price /\
     (exit_price * (1 + default 0%float (min_breakout_pct (reentry_of cfg)))
        <=? current_close)%float = true) ->
  can_reenter now_ts last_exit_ts last_exit_index last_exit_price current_close cfg
    vol_ok last_exit_was_stop interval_sec now_index = true.
Proof.
  intros H. unfold can_reenter.
  destruct last_exit_price as [exit_price|]; [|reflexivity].
  cbv zeta.
  destruct (_lockout_candles cfg last_exit_was_stop <=? 0) eqn:Hl.
  { destruct last_exit_ts, last_exit_index; reflexivity. }
  assert (Hcase : (exit_price * (1 + default 0%float (min_breakout_pct (reentry_of cfg)))
             <=? current_close)%float = true \/ vol_ok = true).
  { destruct H as [H|[H|[H|(p & Hp & H)]]]; [discriminate|lia|now right|].
    left. now injection Hp as ->. }
  assert (Hin : (if (exit_price * (1 + default 0%float (min_breakout_pct (reentry_of cfg)))
                      <=? current_close)%float then true else if vol_ok then true else false)
                = true).
  { destruct Hcase as [-> | ->]; [reflexivity|]. now destruct (_ <=? _)%float. }
  destruct last_exit_ts, last_exit_index, now_index; try reflexivity; rewrite Hin;
    now destruct (_ <? _).
Qed.

Lemma can_reenter_unlocks_witness :
  can_reenter 160 (Some 100) None (Some 1%float) 1%float test_reentry_cfg
    true true None None = true.
Proof.
  apply can_reenter_unlocks. right; right; left. reflexivity.
Defined.

(** X5: when the candle index of the exit and the current candle index are
    both known, the lockout is counted in candles only: the timestamps and
    the candle interval have no influence on the answer. *)
Theorem can_reenter_index_priority (now_ts now_ts' : Z) (last_exit_ts : option Z)
    (last_exit_ts' : option Z) (li ni : Z)
    (last_exit_price : option float) (current_close : float) (cfg : Config)
    (vol_ok last_exit_was_stop : bool) (interval_sec interval_sec' : option Z) :
  can_reenter now_ts last_exit_ts (Some li) last_exit_price current_close cfg
    vol_ok last_exit_was_stop interval_sec (Some ni) =
  can_reenter now_ts' last_exit_ts' (Some li) last_exit_price current_close cfg
    vol_ok last_exit_was_stop interval_sec' (Some ni).
Proof.
  unfold can_reenter.
  destruct last_exit_price; [|reflexivity].
  destruct last_exit_ts, last_exit_ts'; reflexivity.
Qed.

(** ** The slippage estimate *)

(** X6: [estimate_slippage_bps] answers 10000 whenever the liquidity is
    zero or negative; otherwise its answer, when it gives one, lies between
    10 and 5000 basis points; and a NaN liquidity makes it raise. *)
Theorem estimate_slippage_bps_range (amount_usd liquidity_usd : float) :
  match estimate_slippage_bps amount_usd liquidity_usd with
  | Some bps =>
      if (liquidity_usd <=? 0)%float then bps = 10000 else 10 <= bps <= 5000
  | None => (liquidity_usd <=? 0)%float = false
  end /\
  (Prim2SF liquidity_usd = S754_nan ->
   estimate_slippage_bps amount_usd liquidity_usd = None).
Proof.
  unfold estimate_slippage_bps. split.
  - destruct (liquidity_usd <=? 0)%float; [reflexivity|].
    destruct (Py.div amount_usd liquidity_usd) as [impact|]; cbn; [|reflexivity].
    destruct (Py.int_of_float (impact * 10000)) as [bps|]; cbn; [lia|reflexivity].
  - intros Hnan.
    assert (Hle : (liquidity_usd <=? 0)%float = false)
      by (rewrite FloatAxioms.leb_spec, Hnan; reflexivity).
    assert (Heq : (liquidity_usd =? 0)%float = false)
      by (rewrite FloatAxioms.eqb_spec, Hnan; reflexivity).
    rewrite Hle. unfold Py.div. rewrite Heq. cbn.
    unfold Py.int_of_float.
    rewrite FloatAxioms.mul_spec, FloatAxioms.div_spec, Hnan.
    now destruct (Prim2SF amount_usd) as [[]|[]| |[] m e].
Qed.

(** ** What a validated action guarantees *)

Lemma validate_action_passed (proposal validated : ActionProposal) (snapshot : Snapshot)
    (state : TokenState) (config : Config) :
  validate_action proposal snapshot state config = Some validated ->
  action validated <> ACTION_HOLD ->
  validated = proposal /\
  status state <> STATE_COOLDOWN /\
  (liquidity_usd (pair snapshot) <? default 0 (min_liquidity_usd (risk_of config)))%float
    = false /\
  (action proposal = ACTION_SCALE_OUT_20 \/ action proposal = ACTION_EXIT_FULL ->
   (position_usd state <=? 0)%float = false) /\
  exists slippage_bps,
    estimate_slippage_bps (_action_notional_usd (action proposal) state config)
      (liquidity_usd (pair snapshot)) = Some slippage_bps /\
    slippage_bps <= default 0 (max_slippage_bps (risk_of config)).
Proof.
  unfold validate_action. intros Hv Hact.
  destruct (String.eqb (action proposal) ACTION_HOLD) eqn:Hhold.
  { injection Hv as <-. apply String.eqb_eq in Hhold. contradiction. }
  destruct (estimate_slippage_bps _ _) as [bps|]; [|discriminate Hv].
  cbn in Hv. unfold append_if in Hv.
  destruct (String.eqb_spec (status state) "COOLDOWN") as [Hc|Hc];
  destruct (liquidity_usd (pair snapshot) <? _)%float eqn:Hliq;
  destruct ((String.eqb (action proposal) ACTION_SCALE_OUT_20
             || String.eqb (action proposal) ACTION_EXIT_FULL)
            && (position_usd state <=? 0)%float) eqn:Hpos;
  destruct (default 0 (max_slippage_bps (risk_of config)) <? bps) eqn:Hslip;
  cbn in Hv; injection Hv as <-; try (cbn in Hact; congruence).
  repeat split; auto.
  - intros Hsell. apply andb_false_iff in Hpos as [Hpos|Hpos]; [|exact Hpos].
    apply orb_false_iff in Hpos as [H1 H2].
    apply String.eqb_neq in H1, H2. now destruct Hsell.
  - exists bps. split; [reflexivity|lia].
Qed.

(** X7: an action other than HOLD that comes out of [validate_action] is
    the proposal itself, unchanged, and every check passed: the token is
    not in COOLDOWN, the liquidity is not below the minimum, an exit or a
    scale-out has a position to sell, and the estimated slippage is within
    [max_slippage_bps]. *)
Theorem validate_action_sound (proposal validated : ActionProposal) (snapshot : Snapshot)
    (state : TokenState) (config : Config) :
  validate_action proposal snapshot state config = Some validated ->
  action validated <> ACTION_HOLD ->
  validated = proposal /\
  status state <> STATE_COOLDOWN /\
  (liquidity_usd (pair snapshot) <? default 0 (min_liquidity_usd (risk_of config)))%float
    = false /\
  (action proposal = ACTION_SCALE_OUT_20 \/ action proposal = ACTION_EXIT_FULL ->
   (position_usd state <=? 0)%float = false) /\
  exists slippage_bps,
    estimate_slippage_bps (_action_notional_usd (action proposal) state config)
      (liquidity_usd (pair snapshot)) = Some slippage_bps /\
    slippage_bps <= default 0 (max_slippage_bps (risk_of config)).
Proof. apply validate_action_passed. Qed.

Lemma validate_action_sound_witness :
  status initial_state <> STATE_COOLDOWN /\
  (liquidity_usd (pair demo_snapshot)
     <? default 0 (min_liquidity_usd (risk_of demo_config)))%float = false.
Proof.
  pose proof (validate_action_sound
    {| action := "PROBE_BUY"; reason_codes := ["BREAKOUT_CONFIRM"]; guards := ∅;
       expires_at := None |}
    {| action := "PROBE_BUY"; reason_codes := ["BREAKOUT_CONFIRM"]; guards := ∅;
       expires_at := None |}
    demo_snapshot initial_state demo_config eq_refl ltac:(discriminate)) as H.
  split; apply H.
Defined.

(** ** What the policy answers, and what it writes *)

Lemma progress_block_exit (propose : string -> list string -> ActionProposal)
    (snapshot : Snapshot) (state state' : TokenState) (rules_cfg : RulesCfg)
    (p : ActionProposal) :
  progress_block propose snapshot state rules_cfg = (state', Some p) ->
  p = propose ACTION_EXIT_FULL ["PROGRESS_STOP"] \/ p = propose ACTION_EXIT_FULL ["TRAIL_STOP"].
Proof.
  unfold progress_block. intros H.
  repeat case_match; simplify_eq; auto.
Qed.

Lemma propose_action_allowed (snapshot : Snapshot) (state : TokenState) (config : Config) :
  action (propose_action snapshot state config).2 ∈ policy_actions (status state).
Proof.
  unfold propose_action, policy_actions. cbv zeta.
  destruct (String.eqb_spec (status state) STATE_COOLDOWN) as [E|_].
  { rewrite E. cbn. set_solver. }
  destruct (String.eqb (status state) STATE_SCOUT).
  { repeat case_match; cbn; set_solver. }
  destruct (String.eqb (status state) STATE_PROBE).
  { destruct (progress_block _ _ _ _) as [state' [p|]] eqn:Hp.
    - apply progress_block_exit in Hp as [-> | ->]; cbn; set_solver.
    - repeat case_match; cbn; set_solver. }
  destruct (String.eqb (status state) STATE_TRADE).
  { destruct (progress_block _ _ _ _) as [state' [p|]] eqn:Hp.
    - apply progress_block_exit in Hp as [-> | ->]; cbn; set_solver.
    - repeat case_match; cbn; set_solver. }
  cbn. set_solver.
Qed.

(** X8: the action [propose_action] answers is one the token's status
    allows: HOLD or PROBE_BUY while scouting, HOLD, ADD_BUY or EXIT_FULL in
    PROBE, HOLD, SCALE_OUT_20 or EXIT_FULL in TRADE, and only HOLD in
    COOLDOWN or any other status. *)
Theorem propose_action_by_status (snapshot : Snapshot) (state : TokenState) (config : Config) :
  action (propose_action snapshot state config).2 ∈ policy_actions (status state).
Proof. apply propose_action_allowed. Qed.

Lemma position_fields_update_reentry_lockout (state : TokenState) (now : Z) (cfg : Config)
    (interval : Z) (idx : option Z) :
  position_fields (update_reentry_lockout state now cfg interval idx) = position_fields state.
Proof.
  unfold update_reentry_lockout. repeat case_match; try reflexivity. now destruct state.
Qed.

Lemma position_fields_clear_pending_breakout (state : TokenState) :
  position_fields (clear_pending_breakout state) = position_fields state.
Proof. now destruct state. Qed.

Lemma position_fields_arm (state : TokenState) (i e : option Z) (lvl : option float) :
  position_fields
    (set_pending_breakout_expires_index e
       (set_pending_breakout_level lvl (set_pending_breakout_index i state)))
  = position_fields state.
Proof. now destruct state. Qed.

Lemma position_fields_progress_block (propose : string -> list string -> ActionProposal)
    (snapshot : Snapshot) (state : TokenState) (rules_cfg : RulesCfg) :
  position_fields (progress_block propose snapshot state rules_cfg).1 = position_fields state.
Proof.
  unfold progress_block.
  repeat case_match; simplify_eq; try reflexivity; destruct state; reflexivity.
Qed.

Lemma position_fields_propose_action (snapshot : Snapshot) (state : TokenState) (config : Config) :
  position_fields (propose_action snapshot state config).1 = position_fields state.
Proof.
  unfold propose_action. cbv zeta.
  destruct (String.eqb (status state) STATE_COOLDOWN); [reflexivity|].
  destruct (String.eqb (status state) STATE_SCOUT).
  { repeat case_match; cbn [fst];
      rewrite ?position_fields_arm, ?position_fields_clear_pending_breakout;
      apply position_fields_update_reentry_lockout. }
  destruct (String.eqb (status state) STATE_PROBE).
  { pose proof (position_fields_progress_block
      (fun a reasons =>
         {| action := a; reason_codes := reasons;
            guards := {[ "max_slippage_bps" := default 0 (max_slippage_bps (risk_of config)) ]};
            expires_at := Some (now_ts snapshot
                                + default 1 (poll_interval_sec (engine_of config))) |})
      snapshot state (rules_of config)) as Hpb.
    destruct (progress_block _ _ _ _) as [state' [p|]]; cbn [fst] in *;
      repeat case_match; exact Hpb. }
  destruct (String.eqb (status state) STATE_TRADE); [|reflexivity].
  pose proof (position_fields_progress_block
    (fun a reasons =>
       {| action := a; reason_codes := reasons;
          guards := {[ "max_slippage_bps" := default 0 (max_slippage_bps (risk_of config)) ]};
          expires_at := Some (now_ts snapshot
                              + default 1 (poll_interval_sec (engine_of config))) |})
    snapshot state (rules_of config)) as Hpb.
  destruct (progress_block _ _ _ _) as [state' [p|]]; cbn [fst] in *;
    repeat case_match; exact Hpb.
Qed.

(** X9: [propose_action] never writes the fields that describe the
    position or the last exit: status, entry prices and index, position
    size, time in trade, cooldown counter, scale-out stage and the
    timestamp, price and index of the last exit come back as they went in.
    (It writes only the pending-breakout fields, the progress tracking
    fields and the stop flag of the last exit.) *)
Theorem propose_action_frame (snapshot : Snapshot) (state : TokenState) (config : Config) :
  position_fields (propose_action snapshot state config).1 = position_fields state.
Proof. apply position_fields_propose_action. Qed.

(** ** Invariants of the calls on a token's state *)

Ltac in_list := repeat first [apply list_elem_of_here | apply list_elem_of_further].

Lemma pending_consistent_same (s s' : TokenState) :
  status s' = status s ->
  pending_breakout_index s' = pending_breakout_index s ->
  pending_breakout_level s' = pending_breakout_level s ->
  pending_breakout_expires_index s' = pending_breakout_expires_index s ->
  pending_consistent s -> pending_consistent s'.
Proof.
  unfold pending_consistent, pending_clear, pending_armed.
  intros -> -> -> ->. auto.
Qed.

Lemma advance_time_invariant (state : TokenState) :
  engine_invariant state -> engine_invariant (advance_time state).
Proof.
  intros (Hv & Hp & Hf). split; [|split].
  - unfold valid_status in *. destruct state; unfold advance_time; cbn in *.
    repeat case_match; cbn; first [exact Hv | in_list].
  - destruct Hp as [Hc | (Hst & Ha)].
    + left. destruct state; unfold pending_clear, advance_time in *; cbn in *.
      repeat case_match; cbn; auto.
    + right. assert (E : advance_time state = state)
        by (destruct state; cbn in Hst; subst; reflexivity).
      now rewrite E.
  - now apply advance_time_flat.
Qed.

Lemma apply_action_invariant (get_config : Config) (state : TokenState) (a : string)
    (snap : Snapshot) (config : option Config) (codes : option (list string)) :
  engine_invariant state ->
  engine_invariant (apply_action get_config state a snap config codes).
Proof.
  intros (Hv & Hp & Hf). split; [|split].
  - unfold valid_status in *. destruct state; unfold apply_action; cbn in *.
    repeat case_match; cbn; first [exact Hv | in_list].
  - unfold apply_action.
    destruct (String.eqb a "PROBE_BUY");
      [left; destruct state; cbn; repeat case_match; repeat split|].
    destruct (String.eqb a "ADD_BUY");
      [left; destruct state; cbn; repeat case_match; repeat split|].
    destruct (String.eqb a "SCALE_OUT_20");
      [revert Hp; apply pending_consistent_same; now destruct state|].
    destruct (String.eqb a "EXIT_FULL"); [|exact Hp].
    left; destruct state; cbn; repeat case_match; repeat split.
  - now apply apply_action_flat.
Qed.

Lemma progress_block_pending (propose : string -> list string -> ActionProposal)
    (snapshot : Snapshot) (state : TokenState) (rules_cfg : RulesCfg) :
  let state' := (progress_block propose snapshot state rules_cfg).1 in
  pending_breakout_index state' = pending_breakout_index state /\
  pending_breakout_level state' = pending_breakout_level state /\
  pending_breakout_expires_index state' = pending_breakout_expires_index state.
Proof.
  unfold progress_block.
  repeat case_match; simplify_eq; cbn; try (repeat split; reflexivity);
    destruct state; repeat split; reflexivity.
Qed.

Lemma propose_action_status (snapshot : Snapshot) (state : TokenState) (config : Config) :
  status (propose_action snapshot state config).1 = status state /\
  position_usd (propose_action snapshot state config).1 = position_usd state.
Proof.
  pose proof (position_fields_propose_action snapshot state config) as H.
  unfold position_fields in H. now simplify_eq.
Qed.

Lemma propose_action_pending_consistent (snapshot : Snapshot) (state : TokenState)
    (config : Config) :
  pending_consistent state -> pending_consistent (propose_action snapshot state config).1.
Proof.
  intros Hp.
  pose proof (propose_action_status snapshot state config) as [Hstatus _].
  revert Hstatus. unfold propose_action. cbv zeta.
  destruct (String.eqb (status state) STATE_COOLDOWN); [auto|].
  destruct (String.eqb_spec (status state) STATE_SCOUT) as [Hst|_].
  { pose proof (update_reentry_lockout_fields state (now_ts snapshot) config
                  (infer_interval_sec (candles snapshot)) (candle_index snapshot))
      as (U1 & U2 & U3 & U4).
    assert (Hu : pending_consistent
                   (update_reentry_lockout state (now_ts snapshot) config
                      (infer_interval_sec (candles snapshot)) (candle_index snapshot)))
      by (revert Hp; now apply pending_consistent_same).
    repeat case_match; cbn [fst]; intros Hstatus; try exact Hu;
      try (left; apply clear_pending_breakout_clear);
      right; (split; [congruence|]); eexists _, _;
      match goal with |- pending_armed (_ (_ (_ ?s))) _ _ => destruct s end;
      repeat split. }
  intros Hstatus.
  destruct (String.eqb (status state) STATE_PROBE).
  { match goal with |- context [progress_block ?p _ _ _] =>
      pose proof (progress_block_pending p snapshot state (rules_of config)) as (P1 & P2 & P3);
      destruct (progress_block p snapshot state (rules_of config)) as [state' [q|]]
    end; cbn [fst] in *;
    repeat case_match; cbn [fst] in *; revert Hp; now apply pending_consistent_same. }
  destruct (String.eqb (status state) STATE_TRADE); [|exact Hp].
  match goal with |- context [progress_block ?p _ _ _] =>
    pose proof (progress_block_pending p snapshot state (rules_of config)) as (P1 & P2 & P3);
    destruct (progress_block p snapshot state (rules_of config)) as [state' [q|]]
  end; cbn [fst] in *;
  repeat case_match; cbn [fst] in *; revert Hp; now apply pending_consistent_same.
Qed.

Lemma propose_action_invariant (snapshot : Snapshot) (state : TokenState) (config : Config) :
  engine_invariant state -> engine_invariant (propose_action snapshot state config).1.
Proof.
  intros (Hv & Hp & Hf).
  pose proof (propose_action_status snapshot state config) as [Hst Hpos].
  split; [|split].
  - unfold valid_status. now rewrite Hst.
  - now apply propose_action_pending_consistent.
  - unfold flat_when_idle. now rewrite Hst, Hpos.
Qed.

Lemma engine_run_preserves (get_config : Config) (calls : list EngineCall)
    (state : TokenState) :
  engine_invariant state -> engine_invariant (engine_run get_config calls state).
Proof.
  unfold engine_run. revert state.
  induction calls as [|call calls IH]; intros state Inv; cbn; [exact Inv|].
  apply IH. destruct call; cbn.
  - now apply advance_time_invariant.
  - now apply propose_action_invariant.
  - now apply apply_action_invariant.
Qed.

(** X10: starting from the initial state, after any sequence of
    [advance_time], [propose_action] and [apply_action] calls (any
    snapshots, configurations, action strings and reason codes) the status
    is one of SCOUT, PROBE, TRADE and COOLDOWN; the three pending-breakout
    fields are either all unset or all set, with the expiry three candles
    after the breakout, and they are set only while the token is scouting;
    and a token in SCOUT or COOLDOWN holds no position. *)
Theorem engine_run_invariant (get_config : Config) (calls : list EngineCall) :
  engine_invariant (engine_run get_config calls initial_state).
Proof.
  apply engine_run_preserves. split; [|split].
  - unfold valid_status. cbn. set_solver.
  - left. repeat split.
  - intros _. reflexivity.
Qed.

(** ** The status changes of one tick *)

Lemma apply_action_status (get_config : Config) (state : TokenState) (a : string)
    (snap : Snapshot) (config : option Config) (codes : option (list string)) :
  status (apply_action get_config state a snap config codes) =
  if String.eqb a "PROBE_BUY" then STATE_PROBE
  else if String.eqb a "ADD_BUY" then STATE_TRADE
  else if String.eqb a "SCALE_OUT_20" then status state
  else if String.eqb a "EXIT_FULL" then STATE_COOLDOWN
  else status state.
Proof.
  unfold apply_action. destruct state; cbn. repeat case_match; reflexivity.
Qed.

Lemma advance_time_status (state : TokenState) :
  status (advance_time state) = status state \/
  (status state = STATE_COOLDOWN /\ status (advance_time state) = STATE_SCOUT).
Proof.
  unfold advance_time. destruct state; cbn.
  repeat case_match; cbn; auto.
  all: match goal with
       | H : _ && _ = true |- _ => apply andb_true_iff in H as [H%String.eqb_eq _]; auto
       end.
Qed.

Lemma status_edge_refl (st : string) : status_edge st st = true.
Proof. unfold status_edge. now rewrite String.eqb_refl. Qed.

Lemma tick_edge_from (st1 : string) (a : string) :
  a ∈ policy_actions st1 ->
  status_edge st1
    (if String.eqb a "PROBE_BUY" then STATE_PROBE
     else if String.eqb a "ADD_BUY" then STATE_TRADE
     else if String.eqb a "SCALE_OUT_20" then st1
     else if String.eqb a "EXIT_FULL" then STATE_COOLDOWN
     else st1) = true.
Proof.
  unfold policy_actions.
  destruct (String.eqb_spec st1 STATE_SCOUT) as [->|];
    [|destruct (String.eqb_spec st1 STATE_PROBE) as [->|];
      [|destruct (String.eqb_spec st1 STATE_TRADE) as [->|]]];
    rewrite ?elem_of_cons, elem_of_nil; intros H;
    repeat (destruct H as [->|H]); try contradiction; try reflexivity;
    cbn; apply status_edge_refl.
Qed.

(** X11: one tick moves the status only along the edges of the state
    machine.  After [advance_time] and [propose_action], whatever later
    stage (ranking, chain risk, validation) keeps the proposed action or
    replaces it by HOLD, applying the decided action takes SCOUT to SCOUT
    or PROBE, PROBE to PROBE, TRADE or COOLDOWN, TRADE to TRADE or
    COOLDOWN, and COOLDOWN to COOLDOWN, SCOUT or PROBE; any other status is
    left as it is. *)
Theorem tick_status_edges (get_config : Config) (snapshot : Snapshot) (state : TokenState)
    (config : Config) (decided : string) (apply_config : option Config)
    (codes : option (list string)) :
  let proposed := propose_action snapshot (advance_time state) config in
  decided = action proposed.2 \/ decided = ACTION_HOLD ->
  status_edge (status state)
    (status (apply_action get_config proposed.1 decided snapshot apply_config codes)) = true.
Proof.
  intros proposed Hdec.
  pose proof (propose_action_status snapshot (advance_time state) config) as [Hst _].
  pose proof (propose_action_allowed snapshot (advance_time state) config) as Hact.
  fold proposed in Hst, Hact.
  assert (Hin : decided ∈ policy_actions (status (advance_time state))).
  { destruct Hdec as [-> | ->]; [exact Hact|].
    unfold policy_actions. repeat case_match; apply list_elem_of_here. }
  rewrite apply_action_status, Hst.
  pose proof (tick_edge_from _ _ Hin) as Hedge.
  destruct (advance_time_status state) as [E | [E1 E2]].
  - rewrite E in Hedge |- *. exact Hedge.
  - rewrite E2 in *. rewrite E1. clear -Hin.
    unfold policy_actions in Hin. cbn in Hin.
    rewrite ?elem_of_cons, elem_of_nil in Hin.
    repeat (destruct Hin as [->|Hin]); try contradiction; reflexivity.
Qed.

Lemma tick_status_edges_witness :
  status_edge (status initial_state)
    (status (apply_action demo_config
               (propose_action demo_first (advance_time initial_state) demo_config).1
               "HOLD" demo_first None None)) = true.
Proof.
  apply (tick_status_edges demo_config demo_first initial_state demo_config "HOLD" None None).
  right. reflexivity.
Defined.

(** ** Stops and entries *)

Lemma struct_stop_hit_same (snapshot : Snapshot) (s s' : TokenState) (stops_cfg : StopsCfg) :
  position_fields s' = position_fields s ->
  struct_stop_hit snapshot s' stops_cfg = struct_stop_hit snapshot s stops_cfg.
Proof.
  unfold position_fields, struct_stop_hit. intros H.
  assert (E : probe_entry_low s' = probe_entry_low s) by congruence.
  now rewrite E.
Qed.

(** X12: in PROBE and in TRADE, whenever the close is below the entry
    candle's low lowered by the stop buffer, [propose_action] answers
    EXIT_FULL; the reason is STRUCT_STOP unless the progress stop or the
    trailing stop fired first. *)
Theorem struct_stop_exits (snapshot : Snapshot) (state : TokenState) (config : Config) :
  status state = STATE_PROBE \/ status state = STATE_TRADE ->
  struct_stop_hit snapshot state (stops_of config) = true ->
  action (propose_action snapshot state config).2 = ACTION_EXIT_FULL /\
  reason_codes (propose_action snapshot state config).2
    ∈ [["PROGRESS_STOP"]; ["TRAIL_STOP"]; ["STRUCT_STOP"]].
Proof.
  intros Hst Hstop. unfold propose_action. cbv zeta.
  destruct Hst as [Hst|Hst]; rewrite Hst;
    cbn [String.eqb Ascii.eqb Bool.eqb STATE_SCOUT STATE_COOLDOWN STATE_PROBE STATE_TRADE];
    match goal with |- context [progress_block ?p _ _ _] =>
      pose proof (position_fields_progress_block p snapshot state (rules_of config)) as Hpf;
      destruct (progress_block p snapshot state (rules_of config)) as [state' [q|]] eqn:Hpb
    end; cbn [fst] in Hpf.
  1,3: apply progress_block_exit in Hpb as [-> | ->]; cbn; (split; [reflexivity|in_list]).
  all: rewrite (struct_stop_hit_same _ _ _ _ Hpf), Hstop; cbn; (split; [reflexivity|in_list]).
Qed.

Lemma struct_stop_exits_witness :
  action (propose_action test_struct_stop_snapshot test_struct_stop_state
            test_struct_stop_cfg).2 = ACTION_EXIT_FULL.
Proof.
  apply (struct_stop_exits test_struct_stop_snapshot test_struct_stop_state
           test_struct_stop_cfg).
  - left. reflexivity.
  - reflexivity.
Defined.

Lemma clear_pending_breakout_last_exit (s : TokenState) :
  last_exit_ts (clear_pending_breakout s) = last_exit_ts s /\
  last_exit_index (clear_pending_breakout s) = last_exit_index s /\
  last_exit_price (clear_pending_breakout s) = last_exit_price s /\
  last_exit_was_stop (clear_pending_breakout s) = last_exit_was_stop s.
Proof. now destruct s. Qed.

(** X13: [propose_action] answers PROBE_BUY only while scouting, and only
    for one of three reasons: a pending breakout is confirmed
    (BREAKOUT_CONFIRM); the snapshot carries no candle index and shows a
    strict breakout with re-entry open (BREAKOUT); or the features show no
    strict breakout but a chain override (the reasons then end with
    PROVISIONAL_CHAIN_OVERRIDE). *)
Theorem probe_buy_reasons (snapshot : Snapshot) (state : TokenState) (config : Config) :
  action (propose_action snapshot state config).2 = ACTION_PROBE_BUY ->
  status state = STATE_SCOUT /\
  ((reason_codes (propose_action snapshot state config).2 = ["BREAKOUT_CONFIRM"] /\
    pending_breakout_index state <> None /\
    exists level, pending_breakout_level state = Some level /\
                  breakout_confirmed snapshot config level = true) \/
   (reason_codes (propose_action snapshot state config).2 = ["BREAKOUT"] /\
    candle_index snapshot = None /\
    strict_breakout snapshot = true /\
    reentry_open snapshot state config = true) \/
   (strict_breakout snapshot = false /\
    get_flag (features snapshot) "chain_override" = true /\
    last (reason_codes (propose_action snapshot state config).2)
    = Some "PROVISIONAL_CHAIN_OVERRIDE")).
Proof.
  intros Hact.
  assert (Hst : status state = STATE_SCOUT).
  { pose proof (propose_action_allowed snapshot state config) as Hin.
    rewrite Hact in Hin. unfold policy_actions in Hin.
    destruct (String.eqb_spec (status state) STATE_SCOUT); [assumption|].
    repeat case_match; rewrite ?elem_of_cons, elem_of_nil in Hin;
      repeat (destruct Hin as [Hin|Hin]; try discriminate Hin); contradiction. }
  split; [exact Hst|].
  revert Hact. unfold propose_action, reentry_open, strict_breakout, breakout_confirmed.
  rewrite Hst. cbn [String.eqb Ascii.eqb Bool.eqb STATE_SCOUT STATE_COOLDOWN]. cbv zeta.
  destruct (update_reentry_lockout_fields state (now_ts snapshot) config
              (infer_interval_sec (candles snapshot)) (candle_index snapshot))
    as (_ & Hp1 & Hp2 & _).
  rewrite <- Hp1, <- Hp2.
  set (state1 := update_reentry_lockout _ _ _ _ _).
  destruct (clear_pending_breakout_last_exit state1) as (-> & -> & -> & ->).
  repeat case_match; cbn; intros Hact; try discriminate Hact;
    repeat match goal with
      | H : negb _ = false |- _ => apply negb_false_iff in H
      end;
    first
      [ left; split; [reflexivity|]; split; [discriminate|];
        eexists; split; [reflexivity|assumption]
      | right; left; repeat split; assumption
      | right; right; repeat split; assumption ].
Qed.

Lemma probe_buy_reasons_witness :
  status (test_pending_state 13) = STATE_SCOUT.
Proof.
  apply (probe_buy_reasons (_make_snapshot 11 1.08 0.97 1.1 false 1) (test_pending_state 13)
           test_pending_cfg).
  vm_compute. reflexivity.
Defined.

(** ** Feature extraction on the main path *)

Lemma py_index_from_end {A : Type} (xs : list A) (k : Z) :
  0 <= k < Z.of_nat (length xs) -> is_Some (py_index xs (- (k + 1))).
Proof.
  intros Hk. unfold py_index.
  replace (- (k + 1) <? 0) with true by lia.
  replace ((- (k + 1) + Z.of_nat (length xs) <? 0)
           || (Z.of_nat (length xs) <=? - (k + 1) + Z.of_nat (length xs))) with false
    by (symmetry; apply orb_false_iff; lia).
  apply lookup_lt_is_Some. lia.
Qed.

Ltac guarded_div :=
  match goal with
  | |- context [if (0 <? ?x)%float then _ else _] =>
      let H := fresh "Hpos" in
      destruct (0 <? x)%float eqn:H;
      [rewrite ?(div_pos_defined _ x H)|];
      cbn [mbind option_bind]
  end.

Ltac lookup_key :=
  repeat (rewrite lookup_insert_ne by discriminate);
  first [apply lookup_insert_eq | apply lookup_singleton_eq].

Lemma compute_features_main (mean : list float -> float) (candles : list Candle)
    (lookback : Z) (vol_multiplier compression_max_range_ratio : float)
    (compression_lookback : option Z) (expansion_min_pct : float)
    (expansion_reference : string) :
  0 <= lookback ->
  exists (m : gmap string PyVal) (compressed expanded : bool) (score : Z),
    compute_features mean candles lookback vol_multiplier compression_max_range_ratio
      compression_lookback expansion_min_pct expansion_reference = Some m /\
    m !! "range_compressed" = Some (VBool compressed) /\
    m !! "price_expanded" = Some (VBool expanded) /\
    m !! "breakout" = Some (VBool (compressed && expanded)) /\
    m !! "breakout_strict" = Some (VBool (compressed && expanded)) /\
    m !! "regime_score" = Some (VInt score) /\
    0 <= score <= 100.
Proof.
  intros Hlb. unfold compute_features.
  destruct (Z.ltb_spec (Z.of_nat (length candles)) 2) as [Hshort|Hlong].
  { exists default_features, false, false, 0.
    repeat split; try reflexivity; lia. }
  assert (Hlast : is_Some (last candles)).
  { apply last_is_Some. destruct candles; [cbn in Hlong; lia|discriminate]. }
  destruct Hlast as [lastc Hlast].
  unfold py_last. rewrite !(last_map _ _ _ Hlast). cbn [mbind option_bind].
  guarded_div.
  all: match goal with
       | |- context [if negb ?b then ?x else ?y] =>
           replace (if negb b then x else y) with x by (now destruct b)
       end.
  all: guarded_div.
  all: rewrite length_map.
  all: destruct (Z.ltb_spec lookback (Z.of_nat (length candles))) as [Hin|Hout];
    [destruct (py_index_from_end (map c candles) lookback) as [prior ->];
       [rewrite length_map; lia|]; cbn [mbind option_bind]; guarded_div
    |cbn [mbind option_bind]].
  all: guarded_div.
  all: guarded_div.
  all: unfold compute_regime_score;
    match goal with
    | |- context [Py.round (_clamp ?x 0 100)] =>
        destruct (round_clamp_0_100 x) as (score & -> & Hscore)
    end; cbn [mbind option_bind].
  all: eexists _, _, _, score; split; [reflexivity|];
    (split; [lookup_key|]); (split; [lookup_key|]); (split; [lookup_key|]);
    (split; [lookup_key|]); (split; [lookup_key|]); lia.
Qed.

(** X14: with a lookback of zero or more, [compute_features] never raises,
    however few or odd the candles (zero or negative prices, NaN volumes):
    it returns a feature map in which [breakout] and [breakout_strict]
    are both the conjunction of [range_compressed] and [price_expanded],
    and [regime_score] is an integer between 0 and 100. *)
Theorem compute_features_total (mean : list float -> float) (candles : list Candle)
    (lookback : Z) (vol_multiplier compression_max_range_ratio : float)
    (compression_lookback : option Z) (expansion_min_pct : float)
    (expansion_reference : string) :
  0 <= lookback ->
  exists (m : gmap string PyVal) (compressed expanded : bool) (score : Z),
    compute_features mean candles lookback vol_multiplier compression_max_range_ratio
      compression_lookback expansion_min_pct expansion_reference = Some m /\
    m !! "range_compressed" = Some (VBool compressed) /\
    m !! "price_expanded" = Some (VBool expanded) /\
    m !! "breakout" = Some (VBool (compressed && expanded)) /\
    m !! "breakout_strict" = Some (VBool (compressed && expanded)) /\
    m !! "regime_score" = Some (VInt score) /\
    0 <= score <= 100.
Proof. apply compute_features_main. Qed.

Lemma compute_features_total_witness :
  exists (m : gmap string PyVal) (compressed expanded : bool) (score : Z),
    compute_features (fun _ => 10%float) (candles_of_closes 1 1 2) 2 1.5 1.25 None 0.06
      "highest_close" = Some m /\
    m !! "range_compressed" = Some (VBool compressed) /\
    m !! "price_expanded" = Some (VBool expanded) /\
    m !! "breakout" = Some (VBool (compressed && expanded)) /\
    m !! "breakout_strict" = Some (VBool (compressed && expanded)) /\
    m !! "regime_score" = Some (VInt score) /\
    0 <= score <= 100.
Proof.
  apply (compute_features_total (fun _ => 10%float) (candles_of_closes 1 1 2) 2 1.5 1.25 None
           0.06 "highest_close").
  lia.
Defined.

(** ** The two momentum scores *)

Lemma sf_same_refl (a : spec_float) : sf_same a a.
Proof. now left. Qed.

Lemma sf_same_trans (a b c : spec_float) : sf_same a b -> sf_same b c -> sf_same a c.
Proof.
  intros [-> | (s & s' & -> & ->)] [<- | (t & t' & E & ->)]; unfold sf_same; eauto.
Qed.

Lemma sf_same_add_zero (a : spec_float) :
  sf_same (SFadd prec emax a (S754_zero false)) a.
Proof.
  destruct a as [[]|[]| |[] m e]; cbn; unfold sf_same; eauto.
Qed.

Lemma sf_same_add (a a' b : spec_float) :
  sf_same a a' -> sf_same (SFadd prec emax a b) (SFadd prec emax a' b).
Proof.
  intros [-> | (s & s' & -> & ->)]; [now left|].
  destruct b as [sb|sb| |sb mb eb], s, s'; try destruct sb; cbn; unfold sf_same; eauto.
Qed.

Lemma float_same_of_sf (a b : float) : sf_same (Prim2SF a) (Prim2SF b) -> float_same a b.
Proof.
  unfold float_same. rewrite FloatAxioms.eqb_spec.
  intros [E | (s & s' & -> & ->)].
  - rewrite <- E. destruct (Prim2SF a) eqn:Ha; auto; left; now apply SFeqb_refl.
  - left. reflexivity.
Qed.

Lemma float_same_refl (a : float) : float_same a a.
Proof. apply float_same_of_sf, sf_same_refl. Qed.

Lemma float_add_zero_same (a : float) : float_same (a + 0) a.
Proof.
  apply float_same_of_sf. rewrite FloatAxioms.add_spec. apply sf_same_add_zero.
Qed.

Lemma float_add_zero_add_same (a b : float) : float_same (a + 0 + b) (a + b).
Proof.
  apply float_same_of_sf. rewrite !FloatAxioms.add_spec. apply sf_same_add, sf_same_add_zero.
Qed.

Lemma float_add_zero_zero_same (a : float) : float_same (a + 0 + 0) a.
Proof.
  apply float_same_of_sf. rewrite !FloatAxioms.add_spec.
  eapply sf_same_trans; apply sf_same_add_zero.
Qed.

Ltac bind_cases :=
  repeat match goal with
    | |- context [mbind _ ?x] => destruct x eqn:?; cbn [mbind option_bind]
    end.

(** X15: given at least [lookback + 1] candles, the score the backtest
    ranks by ([momentum_score]) and the total of the breakdown the
    orchestrator ranks by ([_momentum_score_detail]) are the same Python
    value, and one raises exactly when the other does; with fewer candles
    the first is 0 while the second falls back to the longest lookback the
    candles allow. *)
Theorem momentum_score_detail_agree (log1p : float -> float) (candles : list Candle)
    (lookback : Z) :
  (lookback + 1 <= Z.of_nat (length candles) ->
   match momentum_score log1p candles lookback,
         _momentum_score_detail log1p candles lookback with
   | Some score, Some detail => float_same (total detail) score
   | None, None => True
   | _, _ => False
   end) /\
  (0 < lookback -> Z.of_nat (length candles) < lookback + 1 ->
   momentum_score log1p candles lookback = Some 0%float /\
   _momentum_score_detail log1p candles lookback =
   _momentum_score_detail log1p candles (Z.max 1 (Z.of_nat (length candles) - 1))).
Proof.
  split.
  - intros Hlen. unfold momentum_score, _momentum_score_detail.
    replace (Z.of_nat (length candles) <? lookback + 1) with false by lia.
    cbn [orb].
    destruct (lookback <=? 0); [apply float_same_refl|].
    cbv beta iota zeta.
    replace (Z.of_nat (length candles) <? lookback + 1) with false by lia.
    set (window := py_slice candles (Some (- (lookback + 1))) None).
    destruct (py_last window) as [latest|]; cbn [mbind option_bind]; [|exact I].
    destruct (head window) as [first|]; cbn [mbind option_bind]; [|exact I].
    destruct (c first <=? 0)%float; [apply float_same_refl|].
    bind_cases; try exact I.
    cbn [total].
    repeat match goal with
      | |- context [if (0 <? ?x)%float then _ else _] => destruct (0 <? x)%float
      end.
    + apply float_same_refl.
    + apply float_same_of_sf. rewrite (FloatAxioms.add_spec (_ + _)).
      apply sf_same_add_zero.
    + apply float_add_zero_add_same.
    + apply float_add_zero_zero_same.
  - intros Hlb Hshort. split.
    + apply momentum_score_short. now left.
    + unfold _momentum_score_detail.
      replace (lookback <=? 0) with false by lia.
      replace (Z.max 1 (Z.of_nat (length candles) - 1) <=? 0) with false by lia.
      replace (Z.of_nat (length candles) <? lookback + 1) with true by lia.
      cbv beta iota zeta.
      destruct (Z.of_nat (length candles) <? Z.max 1 (Z.of_nat (length candles) - 1) + 1)
        eqn:E; cbv beta iota zeta; rewrite ?E; reflexivity.
Qed.

Lemma momentum_score_detail_agree_witness :
  match momentum_score (fun x => x) (candles_of_closes 1 1 2) 2,
        _momentum_score_detail (fun x => x) (candles_of_closes 1 1 2) 2 with
  | Some score, Some detail => float_same (total detail) score
  | None, None => True
  | _, _ => False
  end.
Proof.
  apply (proj1 (momentum_score_detail_agree (fun x => x) (candles_of_closes 1 1 2) 2)).
  cbn. lia.
Defined.

(** ** Maximum drawdown *)

Lemma float_lt_not_nan_r (a b : float) : (a <? b)%float = true -> not_nan b.
Proof.
  unfold not_nan. rewrite FloatAxioms.ltb_spec, FloatAxioms.eqb_spec. intros H.
  apply SFeqb_refl. intros E. rewrite E in H.
  destruct (Prim2SF a) as [[]|[]| |[] m e]; discriminate H.
Qed.

Lemma max_drawdown_from_range (curve : list float) (peak max_dd : float) :
  not_nan max_dd -> (max_dd <? 0)%float = false ->
  exists dd, max_drawdown_from peak max_dd curve = Some dd /\
             not_nan dd /\ (dd <? 0)%float = false.
Proof.
  revert peak max_dd. induction curve as [|value rest IH]; intros peak max_dd Hnan Hneg.
  - exists max_dd. auto.
  - cbn [max_drawdown_from].
    set (peak' := if (peak <? value)%float then value else peak).
    assert (Hdd : exists drawdown,
              (if (0 <? peak')%float then Py.div (peak' - value) peak' else Some 0%float)
              = Some drawdown).
    { destruct (0 <? peak')%float eqn:Hpos; [|eauto].
      rewrite (div_pos_defined _ _ Hpos). eauto. }
    destruct Hdd as [drawdown ->]. cbn [mbind option_bind].
    destruct (max_dd <? drawdown)%float eqn:Hlt.
    + apply IH.
      * now apply float_lt_not_nan_r with max_dd.
      * apply float_not_lt_trans with max_dd; [exact Hnan| |exact Hneg].
        now apply float_lt_asym.
    + now apply IH.
Qed.

(** X16: [max_drawdown] returns for every curve, whatever its values (an
    empty curve, negative equity, infinities and NaNs included), and the
    result is never negative and never a NaN. *)
Theorem max_drawdown_not_negative (curve : list float) :
  exists dd, max_drawdown curve = Some dd /\ not_nan dd /\ (dd <? 0)%float = false.
Proof.
  unfold max_drawdown. apply max_drawdown_from_range; reflexivity.
Qed.

(** ** Support and resistance zones *)

Section SortAsc.

Context {A : Type} (key : A -> float).

Lemma insert_asc_perm (x : A) (xs : list A) : insert_asc key x xs ≡ₚ x :: xs.
Proof.
  induction xs as [|y ys IH]; cbn; [reflexivity|].
  destruct (key y <? key x)%float; [|reflexivity].
  rewrite IH. apply Permutation_swap.
Qed.

Lemma sort_asc_perm (xs : list A) : sort_asc key xs ≡ₚ xs.
Proof.
  induction xs as [|x xs IH]; cbn; [reflexivity|].
  fold (sort_asc key xs). rewrite insert_asc_perm. now rewrite IH.
Qed.

Lemma insert_asc_sorted (x : A) (xs : list A) :
  Forall (fun a => not_nan (key a)) xs ->
  StronglySorted (not_above key) xs -> StronglySorted (not_above key) (insert_asc key x xs).
Proof.
  intros Hnan Hs. induction Hs as [|y ys Hys IH Hy]; cbn.
  - repeat constructor.
  - apply Forall_cons in Hnan as [Hny Hnan].
    destruct (key y <? key x)%float eqn:Hlt.
    + constructor; [now apply IH|].
      rewrite insert_asc_perm. constructor; [|exact Hy].
      now apply float_lt_asym.
    + constructor; [now constructor|].
      constructor; [exact Hlt|].
      eapply Forall_impl; [exact Hy|]. cbn. intros z Hz.
      now apply (float_not_lt_trans _ (key y)).
Qed.

Lemma sort_asc_sorted (xs : list A) :
  Forall (fun a => not_nan (key a)) xs -> StronglySorted (not_above key) (sort_asc key xs).
Proof.
  induction 1 as [|x xs Hx Hxs IH]; cbn; [constructor|].
  fold (sort_asc key xs). apply insert_asc_sorted; [|exact IH].
  now rewrite sort_asc_perm.
Qed.

End SortAsc.

Lemma total_strength_perm (xs ys : list Zone) :
  xs ≡ₚ ys -> total_strength xs = total_strength ys.
Proof.
  unfold total_strength. induction 1; cbn in *; lia.
Qed.

Lemma absorb_level_strength (price lo hi : float) (zones : list Zone) :
  total_strength (absorb_level price lo hi zones) = total_strength zones + 1 /\
  (length zones <= length (absorb_level price lo hi zones) <= S (length zones))%nat /\
  (Forall (fun zone => 1 <= strength zone) zones ->
   Forall (fun zone => 1 <= strength zone) (absorb_level price lo hi zones)).
Proof.
  unfold total_strength.
  induction zones as [|zone rest (IH1 & IH2 & IH3)]; cbn.
  - split; [lia|split; [lia|]]. intros _. constructor; [cbn; lia|constructor].
  - destruct (_ && _); cbn.
    + split; [lia|split; [lia|]]. intros H. apply Forall_cons in H as [Hz Hr].
      constructor; [cbn; lia|exact Hr].
    + split; [lia|split; [lia|]]. intros H. apply Forall_cons in H as [Hz Hr].
      constructor; [exact Hz|now apply IH3].
Qed.

Lemma cluster_fold_strength (levels : list float) (zones : list Zone) :
  let zones' := fold_left cluster_level levels zones in
  total_strength zones' = total_strength zones + Z.of_nat (length levels) /\
  (length zones' <= length zones + length levels)%nat /\
  (Forall (fun zone => 1 <= strength zone) zones ->
   Forall (fun zone => 1 <= strength zone) zones').
Proof.
  revert zones. induction levels as [|price rest IH]; intros zones; cbn [fold_left length].
  - cbn. split; [lia|split; [lia|auto]].
  - specialize (IH (cluster_level zones price)). cbv zeta in IH |- *.
    destruct IH as (IH1 & IH2 & IH3).
    destruct (absorb_level_strength price (price - price * 0.01 / 2)
                (price + price * 0.01 / 2) zones) as (A1 & A2 & A3).
    fold (cluster_level zones price) in A1, A2, A3.
    split; [lia|split; [lia|auto]].
Qed.

(** X17: [_cluster_levels] loses no level and invents none: the strengths
    of the zones it returns add up to the number of levels it was given,
    every zone has strength 1 or more, and there are at most as many zones
    as levels. *)
Theorem cluster_levels_strength (levels : list float) :
  total_strength (_cluster_levels levels) = Z.of_nat (length levels) /\
  Forall (fun zone => 1 <= strength zone) (_cluster_levels levels) /\
  (length (_cluster_levels levels) <= length levels)%nat.
Proof.
  unfold _cluster_levels. cbv zeta.
  destruct (cluster_fold_strength levels []) as (H1 & H2 & H3).
  pose proof (sort_asc_perm low (fold_left cluster_level levels [])) as Hperm.
  repeat split.
  - rewrite (total_strength_perm _ _ Hperm), H1. cbn. lia.
  - rewrite Hperm. apply H3. constructor.
  - rewrite Hperm. cbn in H2. lia.
Qed.

(** X18: the zones [_cluster_levels] returns are in ascending order of
    their lower bound, provided none of these bounds is a NaN (the
    comparison sort promises nothing otherwise). *)
Theorem cluster_levels_sorted (levels : list float) :
  Forall (fun zone => not_nan (low zone)) (_cluster_levels levels) ->
  StronglySorted (not_above low) (_cluster_levels levels).
Proof.
  unfold _cluster_levels. cbv zeta. intros Hnan.
  apply sort_asc_sorted. now rewrite <- (sort_asc_perm low).
Qed.

Lemma cluster_levels_sorted_witness :
  StronglySorted (not_above low) (_cluster_levels [3; 1; 2; 1.001]%float).
Proof.
  apply cluster_levels_sorted.
  vm_compute. repeat constructor.
Defined.

Lemma swing_highs_length (candles : list Candle) :
  (length (swing_highs candles) + 4 <= Nat.max 4 (length candles))%nat.
Proof.
  induction candles as [|c0 [|c1 [|c2 [|c3 [|c4 rest]]]] IH]; cbn [swing_highs length] in *;
    try lia.
  destruct (_ <? _)%float; cbn [length]; lia.
Qed.

Lemma swing_lows_length (candles : list Candle) :
  (length (swing_lows candles) + 4 <= Nat.max 4 (length candles))%nat.
Proof.
  induction candles as [|c0 [|c1 [|c2 [|c3 [|c4 rest]]]] IH]; cbn [swing_lows length] in *;
    try lia.
  destruct (_ <? _)%float; cbn [length]; lia.
Qed.

(** X19: [compute_sr_zones] finds no zone in fewer than five candles, and
    in general the strengths of the support zones, and those of the
    resistance zones, add up to at most the number of candles minus four:
    only a candle with two neighbours on each side can be a swing point. *)
Theorem compute_sr_zones_strength (candles : list Candle) :
  ((length candles < 5)%nat -> compute_sr_zones candles = ([], [])) /\
  total_strength (compute_sr_zones candles).1 <= Z.max 0 (Z.of_nat (length candles) - 4) /\
  total_strength (compute_sr_zones candles).2 <= Z.max 0 (Z.of_nat (length candles) - 4).
Proof.
  unfold compute_sr_zones. split; [|split].
  - intros H. now replace (Z.of_nat (length candles) <? 5) with true by lia.
  - destruct (_ <? 5); cbn [fst]; [cbn; lia|].
    destruct (cluster_fold_strength (swing_lows candles) []) as (H1 & _).
    unfold _cluster_levels. cbv zeta in *.
    rewrite (total_strength_perm _ _ (sort_asc_perm low _)), H1.
    pose proof (swing_lows_length candles). cbn. lia.
  - destruct (_ <? 5); cbn [snd]; [cbn; lia|].
    destruct (cluster_fold_strength (swing_highs candles) []) as (H1 & _).
    unfold _cluster_levels. cbv zeta in *.
    rewrite (total_strength_perm _ _ (sort_asc_perm low _)), H1.
    pose proof (swing_highs_length candles). cbn. lia.
Qed.

(** ** Chain risk *)

Lemma append_new_prefix (merged : list string) (reason : string) :
  merged `prefix_of` append_new merged reason.
Proof.
  unfold append_new. destruct (str_in reason merged); [reflexivity|].
  now apply prefix_app_r.
Qed.

Lemma fold_append_new_prefix (reasons merged : list string) :
  merged `prefix_of` fold_left append_new reasons merged.
Proof.
  revert merged. induction reasons as [|r rs IH]; intros merged; cbn; [reflexivity|].
  etrans; [apply append_new_prefix|apply IH].
Qed.

Lemma str_in_spec (x : string) (xs : list string) : str_in x xs = true <-> x ∈ xs.
Proof.
  unfold str_in. rewrite existsb_exists. split.
  - intros (y & Hy & E). apply String.eqb_eq in E as ->. now apply list_elem_of_In.
  - intros H. exists x. split; [now apply list_elem_of_In|apply String.eqb_refl].
Qed.

Lemma fold_append_new_in (reasons merged : list string) (r : string) :
  r ∈ reasons \/ r ∈ merged -> r ∈ fold_left append_new reasons merged.
Proof.
  revert merged. induction reasons as [|r0 rs IH]; intros merged [H|H]; cbn.
  - inversion H.
  - exact H.
  - apply IH. apply elem_of_cons in H as [->|H]; [right|now left].
    unfold append_new. destruct (str_in r0 merged) eqn:E.
    + now apply str_in_spec.
    + apply elem_of_app. right. apply list_elem_of_here.
  - apply IH. right. apply (elem_of_prefix merged); [exact H|apply append_new_prefix].
Qed.

Lemma fold_append_new_fixed (reasons merged : list string) :
  (forall r, r ∈ reasons -> r ∈ merged) -> fold_left append_new reasons merged = merged.
Proof.
  induction reasons as [|r0 rs IH]; intros H; cbn; [reflexivity|].
  unfold append_new at 2.
  replace (str_in r0 merged) with true
    by (symmetry; apply str_in_spec, H, list_elem_of_here).
  apply IH. intros r Hr. apply H. now apply list_elem_of_further.
Qed.

(** X20: [_apply_chain_risk] never blocks an exit or a scale-out and
    never makes an entry: EXIT_FULL and SCALE_OUT_20 proposals come back
    unchanged, any other proposal keeps its action or, when it was
    PROBE_BUY or ADD_BUY, becomes HOLD; the guards and the expiry are kept,
    and the reason codes it had stay in front, in order. *)
Theorem apply_chain_risk_frame (proposal : ActionProposal)
    (chain_features : option (gmap string PyVal)) :
  let risked := _apply_chain_risk proposal chain_features in
  (action proposal ∈ [ACTION_EXIT_FULL; ACTION_SCALE_OUT_20] -> risked = proposal) /\
  (action risked = action proposal \/
   (action risked = ACTION_HOLD /\ action proposal ∈ [ACTION_PROBE_BUY; ACTION_ADD_BUY])) /\
  guards risked = guards proposal /\
  expires_at risked = expires_at proposal /\
  reason_codes proposal `prefix_of` reason_codes risked.
Proof.
  unfold _apply_chain_risk.
  destruct chain_features as [cf|]; [|cbn; repeat split; auto; now intros].
  destruct (bool_decide (cf = ∅)); [cbn; repeat split; auto; now intros|].
  destruct (str_in (action proposal) [ACTION_EXIT_FULL; ACTION_SCALE_OUT_20]) eqn:Hexit;
    [cbn; repeat split; auto; now intros|].
  assert (Hnot : ~ action proposal ∈ [ACTION_EXIT_FULL; ACTION_SCALE_OUT_20]).
  { rewrite <- str_in_spec, Hexit. discriminate. }
  destruct (chain_risk_reasons cf) as [|r rs]; [cbn; repeat split; auto; now intros|].
  cbv zeta.
  destruct (str_in (action proposal) [ACTION_PROBE_BUY; ACTION_ADD_BUY]) eqn:Hentry.
  { apply str_in_spec in Hentry. cbn [action guards expires_at reason_codes].
    split; [intros H; contradiction|].
    split; [auto|]. split; [reflexivity|]. split; [reflexivity|].
    apply (fold_append_new_prefix (r :: rs)). }
  destruct (String.eqb (action proposal) ACTION_HOLD).
  { cbn [action guards expires_at reason_codes].
    split; [intros H; contradiction|].
    split; [auto|]. split; [reflexivity|]. split; [reflexivity|].
    apply (fold_append_new_prefix (r :: rs)). }
  cbn. repeat split; auto; intros H; contradiction.
Qed.

(** X21: when the chain features that [_apply_chain_risk] reads are
    values [float] converts (no integer beyond the binary64 range, on
    which [float] raises an [OverflowError] that [_safe_float] does not
    catch) and they show a risk (a net outflow, a liquidity removal, or a
    velocity spike on few transactions), a PROBE_BUY or ADD_BUY proposal
    comes back as HOLD, carrying every risk reason among its reason
    codes. *)
Theorem apply_chain_risk_blocks_entry (proposal : ActionProposal)
    (chain_features : gmap string PyVal) :
  chain_features_convert chain_features ->
  action proposal ∈ [ACTION_PROBE_BUY; ACTION_ADD_BUY] ->
  chain_risk_reasons chain_features <> [] ->
  action (_apply_chain_risk proposal (Some chain_features)) = ACTION_HOLD /\
  forall reason, reason ∈ chain_risk_reasons chain_features ->
    reason ∈ reason_codes (_apply_chain_risk proposal (Some chain_features)).
Proof.
  intros _ Hentry Hrisk. unfold _apply_chain_risk.
  destruct (bool_decide_reflect (chain_features = ∅)) as [->|_].
  { exfalso. apply Hrisk. reflexivity. }
  assert (Hexit : str_in (action proposal) [ACTION_EXIT_FULL; ACTION_SCALE_OUT_20] = false).
  { rewrite !elem_of_cons, elem_of_nil in Hentry.
    destruct Hentry as [-> | [-> | []]]; reflexivity. }
  rewrite Hexit.
  destruct (chain_risk_reasons chain_features) as [|r rs]; [congruence|].
  cbv zeta. apply str_in_spec in Hentry. rewrite Hentry.
  cbn [action reason_codes]. split; [reflexivity|].
  intros reason Hin. apply fold_append_new_in. now left.
Qed.

Lemma apply_chain_risk_blocks_entry_witness :
  action (_apply_chain_risk
            {| action := "PROBE_BUY"; reason_codes := ["BREAKOUT_CONFIRM"]; guards := ∅;
               expires_at := None |}
            (Some {[ "chain_net_native" := VInt (-3) ]})) = ACTION_HOLD.
Proof.
  apply (apply_chain_risk_blocks_entry
    {| action := "PROBE_BUY"; reason_codes := ["BREAKOUT_CONFIRM"]; guards := ∅;
       expires_at := None |}
    {[ "chain_net_native" := VInt (-3) ]}).
  - intros key value _ Hvalue. apply lookup_singleton_Some in Hvalue as [_ <-].
    vm_compute. eexists. reflexivity.
  - apply list_elem_of_here.
  - vm_compute. discriminate.
Defined.

(** X22: [_apply_chain_risk] is idempotent: applying it again with the
    same chain features changes nothing more. *)
Theorem apply_chain_risk_idempotent (proposal : ActionProposal)
    (chain_features : option (gmap string PyVal)) :
  _apply_chain_risk (_apply_chain_risk proposal chain_features) chain_features
  = _apply_chain_risk proposal chain_features.
Proof.
  unfold _apply_chain_risk.
  destruct chain_features as [cf|]; [|reflexivity].
  destruct (bool_decide (cf = ∅)) eqn:Hempty; [reflexivity|].
  destruct (str_in (action proposal) [ACTION_EXIT_FULL; ACTION_SCALE_OUT_20]) eqn:Hexit;
    [now rewrite Hexit|].
  destruct (chain_risk_reasons cf) as [|r rs] eqn:Hreasons; [now rewrite Hexit|].
  cbv zeta.
  assert (Hfix : fold_left append_new (r :: rs)
                   (fold_left append_new (r :: rs) (reason_codes proposal))
                 = fold_left append_new (r :: rs) (reason_codes proposal)).
  { apply fold_append_new_fixed. intros x Hx. apply fold_append_new_in. now left. }
  destruct (str_in (action proposal) [ACTION_PROBE_BUY; ACTION_ADD_BUY]) eqn:Hentry.
  { cbn [action guards expires_at reason_codes].
    change (str_in ACTION_HOLD [ACTION_EXIT_FULL; ACTION_SCALE_OUT_20]) with false.
    change (str_in ACTION_HOLD [ACTION_PROBE_BUY; ACTION_ADD_BUY]) with false.
    change (String.eqb ACTION_HOLD ACTION_HOLD) with true.
    cbv iota. now rewrite Hfix. }
  destruct (String.eqb (action proposal) ACTION_HOLD) eqn:Hhold.
  { cbn [action guards expires_at reason_codes].
    rewrite Hexit, Hentry, Hhold. now rewrite Hfix. }
  now rewrite Hexit, Hentry, Hhold.
Qed.

(** ** Chain override flags *)

Lemma flags_lookup (m : gmap string PyVal) (a b c d : PyVal) :
  let m' :=
    <["provisional_candidate" := d]>
      (<["chain_override" := c]> (<["chain_confirmed" := b]> (<["breakout_strict" := a]> m))) in
  m' !! "breakout_strict" = Some a /\
  m' !! "chain_confirmed" = Some b /\
  m' !! "chain_override" = Some c /\
  m' !! "provisional_candidate" = Some d.
Proof.
  cbv zeta. split; [|split; [|split]]; lookup_key.
Qed.

(** X23: after [_apply_chain_override_flags] the snapshot's features hold
    the strict-breakout flag the policy read before the call; a chain
    override is set only without a strict breakout, only when enabled and
    never for empty chain features; [provisional_candidate] is the
    disjunction of the two; and every other feature, like every other
    field of the snapshot, is left as it was. *)
Theorem apply_chain_override_flags_spec (snapshot : Snapshot)
    (chain_features : gmap string PyVal) (breakout_cfg : ChainOverrideCfg) :
  let flagged := _apply_chain_override_flags snapshot chain_features breakout_cfg in
  let strict := strict_breakout snapshot in
  let override := get_flag (features flagged) "chain_override" in
  strict_breakout flagged = strict /\
  features flagged !! "breakout_strict" = Some (VBool strict) /\
  (override = true ->
   strict = false /\ chain_features <> ∅ /\
   chain_override_enabled breakout_cfg <> Some false /\
   get_flag (features flagged) "chain_confirmed" = true) /\
  get_flag (features flagged) "provisional_candidate" = strict || override /\
  (forall k, k ∉ ["breakout_strict"; "chain_confirmed"; "chain_override";
                  "provisional_candidate"] ->
     features flagged !! k = features snapshot !! k) /\
  set_features (features snapshot) flagged = snapshot.
Proof.
  unfold _apply_chain_override_flags, strict_breakout, get_flag. cbv zeta.
  cbn [features set_features].
  set (bs := match features snapshot !! "breakout_strict" with
             | Some v => py_bool v
             | None => match features snapshot !! "breakout" with
                       | Some v => py_bool v
                       | None => false
                       end
             end).
  set (confirmed := if bool_decide (chain_features = ∅) then false else _).
  match goal with
  | |- context [<["provisional_candidate" := ?d]>
                  (<["chain_override" := ?c]>
                     (<["chain_confirmed" := ?b]> (<["breakout_strict" := ?a]> ?m)))] =>
      destruct (flags_lookup m a b c d) as (L1 & L2 & L3 & L4)
  end.
  rewrite L1, L2, L3, L4. cbn [py_bool].
  split; [reflexivity|]. split; [reflexivity|]. split; [|split; [reflexivity|split]].
  - intros H. apply andb_true_iff in H as [H Hc]. apply andb_true_iff in H as [Hs He].
    apply negb_true_iff in Hs.
    split; [exact Hs|]. split; [|split; [|exact Hc]].
    + intros ->. subst confirmed. rewrite bool_decide_eq_true_2 in Hc by reflexivity.
      discriminate.
    + intros E. rewrite E in He. discriminate.
  - intros k Hk. rewrite !not_elem_of_cons in Hk. destruct Hk as (H1 & H2 & H3 & H4 & _).
    now rewrite !lookup_insert_ne by congruence.
  - now destruct snapshot.
Qed.

Lemma apply_chain_override_flags_spec_witness :
  strict_breakout
    (_apply_chain_override_flags demo_first {[ "chain_swap_count" := VInt 12 ]}
       {| chain_override_min_tx_velocity_per_min := None;
          chain_override_min_swap_count := Some 5%float;
          chain_override_min_net_native := None;
          chain_override_min_liquidity_events := None;
          chain_override_enabled := None |})
  = strict_breakout demo_first.
Proof.
  exact (proj1 (apply_chain_override_flags_spec demo_first {[ "chain_swap_count" := VInt 12 ]}
                  {| chain_override_min_tx_velocity_per_min := None;
                     chain_override_min_swap_count := Some 5%float;
                     chain_override_min_net_native := None;
                     chain_override_min_liquidity_events := None;
                     chain_override_enabled := None |})).
Defined.

(** ** The score reported for an entry *)

(** X24: [_score_for_entry] never raises, and ranking does not change what
    it reports: for an entry without a stored score it computes the
    adjusted momentum score, which is the very value the ranking loop
    stores in the entry and sorts by, and which it then reads back. *)
Theorem score_for_entry_stable (log1p : float -> float) (entry : Entry) (config : Config) :
  e_momentum_score entry = None ->
  exists score scored,
    _score_for_entry log1p entry config = Some score /\
    score_entry log1p config (default 20 (momentum_lookback (rules_of config))) entry
      = Some scored /\
    stored_score scored = score /\
    _score_for_entry log1p scored config = Some score.
Proof.
  intros Hnone. unfold _score_for_entry. rewrite Hnone. cbv zeta.
  destruct (score_entry_defined log1p config
              (default 20 (momentum_lookback (rules_of config))) entry)
    as (score & adjustments & Hadj & Hscored).
  exists score, (set_e_scores score adjustments entry).
  unfold adjusted_score in Hadj. rewrite Hadj, Hscored. repeat split.
Qed.

Lemma score_for_entry_stable_witness :
  exists score scored,
    _score_for_entry (fun x => x) (demo_entry "UP" 1 1 2) rank_config = Some score /\
    score_entry (fun x => x) rank_config
      (default 20 (momentum_lookback (rules_of rank_config))) (demo_entry "UP" 1 1 2)
      = Some scored /\
    stored_score scored = score /\
    _score_for_entry (fun x => x) scored rank_config = Some score.
Proof.
  apply (score_for_entry_stable (fun x => x) (demo_entry "UP" 1 1 2) rank_config).
  reflexivity.
Defined.

(** ** Snapshots *)

Lemma py_slice_prefix {A : Type} (xs : list A) (k : Z) :
  0 <= k -> py_slice xs None (Some k) = take (Z.to_nat k) xs.
Proof.
  intros Hk. unfold py_slice, norm_index.
  replace (k <? 0) with false by lia.
  rewrite Z.sub_0_r. change (Z.to_nat 0) with 0%nat. rewrite drop_0.
  destruct (Z.min_spec k (Z.of_nat (length xs))) as [[H ->]|[H ->]]; [reflexivity|].
  rewrite Nat2Z.id, firstn_all. symmetry. apply take_ge. lia.
Qed.

Lemma build_snapshot_inv (mean : list float -> float) (pair0 : PairStats)
    (cs : list Candle) (config : SnapshotCfg) (idx : option Z)
    (extra : option (gmap string PyVal)) (snap : Snapshot) :
  build_snapshot mean pair0 cs config idx extra = Some snap ->
  pair snap = pair0 /\ candles snap = cs /\ candle_index snap = idx /\
  (support_zones snap, resistance_zones snap) = compute_sr_zones cs /\
  (exists last_candle, last cs = Some last_candle /\
     last_close snap = c last_candle /\ last_low snap = l last_candle /\
     last_high snap = h last_candle /\ now_ts snap = t last_candle) /\
  resistance_levels snap =
    take 3 (sort_asc low (filter (fun zone => (last_close snap <=? low zone)%float = true)
                            (resistance_zones snap))) /\
  support_level snap =
    last (sort_asc low (filter (fun zone => (high zone <=? last_close snap)%float = true)
                          (support_zones snap))).
Proof.
  unfold build_snapshot. destruct (compute_sr_zones cs) as [support resistance].
  destruct (compute_features _ _ _ _ _ _ _ _) as [feats|]; [|discriminate].
  cbn [mbind option_bind].
  destruct (py_int _) as [score|]; [|discriminate]. cbn [mbind option_bind].
  unfold py_last. destruct (last cs) as [last_candle|] eqn:Hlast; [|discriminate].
  cbn [mbind option_bind]. intros [= <-]. cbn.
  rewrite py_slice_prefix by lia.
  repeat split; eauto 10.
Qed.

Lemma SFle_antisym (a b : spec_float) :
  SFleb a b = true -> SFleb b a = true -> SFeqb a b = true.
Proof.
  unfold SFleb, SFeqb, SFcompare.
  destruct a as [[]|[]| |[] ma ea], b as [[]|[]| |[] mb eb];
    try congruence; try reflexivity; try discriminate; compare_cases.
Qed.

Lemma float_le_antisym (a b : float) :
  (a <=? b)%float = true -> (b <=? a)%float = true -> (a =? b)%float = true.
Proof. rewrite !FloatAxioms.leb_spec, FloatAxioms.eqb_spec. apply SFle_antisym. Qed.

Lemma build_snapshot_level_in (mean : list float -> float) (pair0 : PairStats)
    (cs : list Candle) (config : SnapshotCfg) (idx : option Z)
    (extra : option (gmap string PyVal)) (snap : Snapshot) :
  build_snapshot mean pair0 cs config idx extra = Some snap ->
  (length (resistance_levels snap) <= 3)%nat /\
  (forall zone, zone ∈ resistance_levels snap ->
     zone ∈ resistance_zones snap /\ (last_close snap <=? low zone)%float = true) /\
  (forall zone, support_level snap = Some zone ->
     zone ∈ support_zones snap /\ (high zone <=? last_close snap)%float = true).
Proof.
  intros H. apply build_snapshot_inv in H as (_ & _ & _ & _ & _ & Hres & Hsup).
  split; [|split].
  - rewrite Hres, length_take. lia.
  - intros zone Hin. rewrite Hres in Hin.
    apply elem_of_take in Hin as (i & Hin & _).
    apply list_elem_of_lookup_2 in Hin.
    rewrite sort_asc_perm in Hin. now apply list_elem_of_filter in Hin as [? ?].
  - intros zone Hz. rewrite Hsup in Hz. apply last_Some_elem_of in Hz.
    rewrite sort_asc_perm in Hz. now apply list_elem_of_filter in Hz as [? ?].
Qed.

(** X25: [build_snapshot] raises on an empty candle list; on a non-empty
    one, with a lookback of zero or more and no extra features, it
    returns a snapshot that carries the candles and the close and
    timestamp of the last one, at most three resistance levels, each a
    resistance zone whose lower bound is at or above the last close, a
    support level (if any) that is a support zone whose upper bound is at
    or below the last close, and a regime score between 0 and 100. *)
Theorem build_snapshot_levels (mean : list float -> float) (pair0 : PairStats)
    (cs : list Candle) (config : SnapshotCfg) (idx : option Z) :
  (forall extra, build_snapshot mean pair0 [] config idx extra = None) /\
  (cs <> [] -> 0 <= default 20 (breakout_lookback config) ->
   exists snap last_candle,
     build_snapshot mean pair0 cs config idx None = Some snap /\
     candles snap = cs /\
     last cs = Some last_candle /\
     last_close snap = c last_candle /\ now_ts snap = t last_candle /\
     (length (resistance_levels snap) <= 3)%nat /\
     (forall zone, zone ∈ resistance_levels snap ->
        zone ∈ resistance_zones snap /\ (last_close snap <=? low zone)%float = true) /\
     (forall zone, support_level snap = Some zone ->
        zone ∈ support_zones snap /\ (high zone <=? last_close snap)%float = true) /\
     0 <= regime_score snap <= 100).
Proof.
  split.
  - intros extra. unfold build_snapshot. cbn [compute_sr_zones length Z.of_nat Z.ltb Z.compare].
    destruct (compute_features _ _ _ _ _ _ _ _); [|reflexivity]. cbn [mbind option_bind].
    destruct (py_int _); reflexivity.
  - intros Hne Hlb.
    assert (Hsnap : exists snap score,
              build_snapshot mean pair0 cs config idx None = Some snap /\
              regime_score snap = score /\ 0 <= score <= 100).
    { unfold build_snapshot. destruct (compute_sr_zones cs) as [support resistance].
      destruct (compute_features_main mean cs (default 20 (breakout_lookback config))
                  (default 1%float (vol_multiplier config))
                  (default 1.25%float (compression_max_range_ratio config))
                  (compression_lookback_bars config)
                  (default 0.06%float (expansion_min_pct config))
                  (default "highest_close" (expansion_reference config)) Hlb)
        as (m & _ & _ & score & -> & _ & _ & _ & _ & Hscore & Hrange).
      cbn [mbind option_bind]. rewrite Hscore. cbn [default py_int mbind option_bind].
      unfold py_last. destruct (last cs) as [last_candle|] eqn:Hlast.
      - cbn [mbind option_bind]. eexists _, score. split; [reflexivity|]. now split.
      - apply last_None in Hlast. contradiction. }
    destruct Hsnap as (snap & score & Hsnap & Hscore & Hrange).
    pose proof (build_snapshot_inv _ _ _ _ _ _ _ Hsnap)
      as (_ & Hcs & _ & _ & (last_candle & Hlast & Hclose & _ & _ & Hts) & _).
    destruct (build_snapshot_level_in _ _ _ _ _ _ _ Hsnap) as (Hlen & Hres & Hsup).
    exists snap, last_candle. rewrite Hscore. auto 10.
Qed.

Lemma build_snapshot_levels_witness :
  exists snap last_candle,
    build_snapshot (fun _ => 10%float) demo_pair (candles_of_closes 1 1 2)
      {| breakout_lookback := Some 2; vol_multiplier := None;
         compression_max_range_ratio := None; compression_lookback_bars := None;
         expansion_min_pct := None; expansion_reference := None |} (Some 2) None
    = Some snap /\
    candles snap = candles_of_closes 1 1 2 /\
    last (candles_of_closes 1 1 2) = Some last_candle /\
    last_close snap = c last_candle /\ now_ts snap = t last_candle /\
    (length (resistance_levels snap) <= 3)%nat /\
    (forall zone, zone ∈ resistance_levels snap ->
       zone ∈ resistance_zones snap /\ (last_close snap <=? low zone)%float = true) /\
    (forall zone, support_level snap = Some zone ->
       zone ∈ support_zones snap /\ (high zone <=? last_close snap)%float = true) /\
    0 <= regime_score snap <= 100.
Proof.
  apply (proj2 (build_snapshot_levels (fun _ => 10%float) demo_pair (candles_of_closes 1 1 2)
                  {| breakout_lookback := Some 2; vol_multiplier := None;
                     compression_max_range_ratio := None; compression_lookback_bars := None;
                     expansion_min_pct := None; expansion_reference := None |} (Some 2))).
  - discriminate.
  - cbn. lia.
Defined.

Lemma scale_out_touches (snapshot : Snapshot) (state : TokenState) (config : Config) :
  action (propose_action snapshot state config).2 = ACTION_SCALE_OUT_20 ->
  exists i zone,
    resistance_levels snapshot !! i = Some zone /\
    (low zone <=? last_close snapshot)%float = true.
Proof.
  intros Hact.
  assert (Hst : status state = STATE_TRADE).
  { pose proof (propose_action_allowed snapshot state config) as Hin.
    rewrite Hact in Hin. unfold policy_actions in Hin.
    destruct (String.eqb_spec (status state) STATE_TRADE); [assumption|].
    repeat case_match; rewrite ?elem_of_cons, elem_of_nil in Hin;
      repeat (destruct Hin as [Hin|Hin]; try discriminate Hin); contradiction. }
  revert Hact. unfold propose_action. rewrite Hst.
  cbn [String.eqb Ascii.eqb Bool.eqb STATE_SCOUT STATE_COOLDOWN STATE_PROBE STATE_TRADE].
  cbv zeta.
  destruct (progress_block _ _ _ _) as [state' [p|]] eqn:Hpb.
  { apply progress_block_exit in Hpb as [-> | ->]; cbn; discriminate. }
  repeat case_match; cbn; intros Hact; try discriminate Hact;
    repeat match goal with
      | H : _ && _ = true |- _ => apply andb_true_iff in H as [_ H]
      end;
    try discriminate; eauto.
Qed.

(** X26: on a snapshot made by [build_snapshot], the policy scales out
    only when the close sits exactly on the lower bound of a resistance
    zone: the snapshot keeps as resistance levels the zones that start at
    or above the close, and the policy counts a level as touched when the
    close is at or above its start. *)
Theorem scale_out_on_built_snapshot (mean : list float -> float) (pair0 : PairStats)
    (cs : list Candle) (snapshot_cfg : SnapshotCfg) (idx : option Z)
    (extra : option (gmap string PyVal)) (snap : Snapshot)
    (state : TokenState) (config : Config) :
  build_snapshot mean pair0 cs snapshot_cfg idx extra = Some snap ->
  action (propose_action snap state config).2 = ACTION_SCALE_OUT_20 ->
  exists zone,
    zone ∈ resistance_zones snap /\ (low zone =? last_close snap)%float = true.
Proof.
  intros Hsnap Hact.
  destruct (scale_out_touches _ _ _ Hact) as (i & zone & Hi & Htouch).
  destruct (build_snapshot_level_in _ _ _ _ _ _ _ Hsnap) as (_ & Hres & _).
  apply list_elem_of_lookup_2 in Hi. destruct (Hres zone Hi) as [Hin Hge].
  exists zone. split; [exact Hin|]. now apply float_le_antisym.
Qed.

Lemma scale_out_on_built_snapshot_witness :
  exists snap zone,
    build_snapshot (fun _ => 10%float) demo_pair touch_candles default_snapshot_cfg (Some 4)
      None = Some snap /\
    zone ∈ resistance_zones snap /\ (low zone =? last_close snap)%float = true.
Proof.
  destruct (build_snapshot (fun _ => 10%float) demo_pair touch_candles default_snapshot_cfg
              (Some 4) None) as [snap|] eqn:Hsnap; [|vm_compute in Hsnap; discriminate Hsnap].
  destruct (scale_out_on_built_snapshot _ _ _ _ _ _ snap
              (set_status STATE_TRADE initial_state) demo_config Hsnap) as (zone & Hz).
  - vm_compute in Hsnap. injection Hsnap as <-. vm_compute. reflexivity.
  - exists snap, zone. split; [reflexivity|exact Hz].
Defined.

(** ** Re-entry after a structural stop *)





(** ** Chain flows *)

Lemma net_flow_fold (address : string) (transfers : list NativeTransfer) (acc : Z) :
  fold_left (flow_step address) transfers acc
  = acc + fold_left (flow_step address) transfers 0.
Proof.
  revert acc. induction transfers as [|tr rest IH]; intros acc; cbn [fold_left]; [lia|].
  rewrite IH. symmetry. rewrite IH. unfold flow_step.
  destruct (String.eqb (to_user tr) address), (String.eqb (from_user tr) address); lia.
Qed.

Lemma sum_Z_add {A : Type} (f g : A -> Z) (xs : list A) :
  sum_Z (map (fun a => f a + g a) xs) = sum_Z (map f xs) + sum_Z (map g xs).
Proof. unfold sum_Z. induction xs as [|x xs IH]; cbn; lia. Qed.

Lemma sum_Z_zero {A : Type} (xs : list A) : sum_Z (map (fun _ => 0) xs) = 0.
Proof. unfold sum_Z. induction xs as [|x xs IH]; cbn; lia. Qed.

Lemma sum_Z_ext {A : Type} (f g : A -> Z) (xs : list A) :
  (forall a, f a = g a) -> sum_Z (map f xs) = sum_Z (map g xs).
Proof. intros H. f_equal. apply map_ext. exact H. Qed.

Lemma sum_Z_indicator (x : string) (k : Z) (addrs : list string) :
  NoDup addrs -> x ∈ addrs ->
  sum_Z (map (fun a => if String.eqb x a then k else 0) addrs) = k.
Proof.
  unfold sum_Z. induction 1 as [|a addrs Ha Hnd IH]; intros Hin; [inversion Hin|].
  cbn. destruct (String.eqb_spec x a) as [->|Hne].
  - assert (E : foldr Z.add 0 (map (fun b => if String.eqb a b then k else 0) addrs) = 0).
    { clear IH Hnd Hin. induction addrs as [|b addrs IH]; [reflexivity|].
      cbn. apply not_elem_of_cons in Ha as [Hab Ha].
      destruct (String.eqb_spec a b); [contradiction|]. now rewrite IH. }
    rewrite E. lia.
  - apply elem_of_cons in Hin as [->|Hin]; [contradiction|]. now rewrite IH.
Qed.

(** X28: native flows are conserved: over any list of distinct addresses
    that contains every sender and every recipient of a transaction's
    native transfers, the net flows [compute_net_native_flow] reports add
    up to zero; and an address that neither sends nor receives has a net
    flow of zero. *)
Theorem net_native_flow_conserved (tx : EnhancedTx) (addrs : list string) :
  (forall address,
     Forall (fun transfer => from_user transfer <> address /\ to_user transfer <> address)
       (native_transfers tx) ->
     compute_net_native_flow tx address = 0) /\
  (NoDup addrs ->
   Forall (fun transfer => from_user transfer ∈ addrs /\ to_user transfer ∈ addrs)
     (native_transfers tx) ->
   sum_Z (map (compute_net_native_flow tx) addrs) = 0).
Proof.
  unfold compute_net_native_flow. split.
  - intros address. induction 1 as [|tr rest [Hf Ht] Hrest IH]; [reflexivity|].
    cbn [fold_left]. unfold flow_step at 2.
    destruct (String.eqb_spec (to_user tr) address); [contradiction|].
    destruct (String.eqb_spec (from_user tr) address); [contradiction|]. exact IH.
  - intros Hnd. induction 1 as [|tr rest [Hf Ht] Hrest IH].
    + apply sum_Z_zero.
    + cbn [fold_left].
      rewrite (sum_Z_ext _
                 (fun a => ((if String.eqb (to_user tr) a then amount tr else 0)
                            + (if String.eqb (from_user tr) a then - amount tr else 0))
                           + fold_left (flow_step a) rest 0)).
      * rewrite sum_Z_add, IH, sum_Z_add, !sum_Z_indicator by assumption. lia.
      * intros a. rewrite net_flow_fold. unfold flow_step at 1.
        destruct (String.eqb (to_user tr) a), (String.eqb (from_user tr) a); lia.
Qed.

Lemma net_native_flow_conserved_witness :
  sum_Z (map (compute_net_native_flow
                {| signature := "sig"; timestamp := 0;
                   native_transfers :=
                     [ {| from_user := "alice"; to_user := "bob"; amount := 5 |};
                       {| from_user := "bob"; to_user := "carol"; amount := 2 |};
                       {| from_user := "carol"; to_user := "carol"; amount := 7 |} ] |})
             ["alice"; "bob"; "carol"]) = 0.
Proof.
  apply (proj2 (net_native_flow_conserved _ ["alice"; "bob"; "carol"])).
  - repeat constructor; rewrite ?elem_of_cons, ?elem_of_nil; intros H;
      repeat (destruct H as [H|H]; try discriminate H); exact H.
  - repeat constructor; rewrite ?elem_of_cons; auto 10.
Defined.




(** ** The decision on a proposal *)

Lemma apply_chain_risk_passed (validated : ActionProposal)
    (chain_features : option (gmap string PyVal)) :
  action (_apply_chain_risk validated chain_features) <> ACTION_HOLD ->
  _apply_chain_risk validated chain_features = validated /\
  (action validated ∈ [ACTION_PROBE_BUY; ACTION_ADD_BUY] -> no_chain_risk chain_features).
Proof.
  unfold _apply_chain_risk, no_chain_risk.
  destruct chain_features as [cf|]; [|auto].
  destruct (bool_decide_reflect (cf = ∅)) as [->|_]; [auto|].
  destruct (str_in (action validated) [ACTION_EXIT_FULL; ACTION_SCALE_OUT_20]) eqn:Hexit.
  { intros _. split; [reflexivity|]. intros Hentry. exfalso.
    rewrite !elem_of_cons, elem_of_nil in Hentry.
    destruct Hentry as [E | [E | []]]; rewrite E in Hexit; discriminate Hexit. }
  destruct (chain_risk_reasons cf) as [|r rs]; [auto|].
  cbv zeta.
  destruct (str_in (action validated) [ACTION_PROBE_BUY; ACTION_ADD_BUY]) eqn:Hentry.
  { cbn [action]. intros H. now contradiction H. }
  destruct (String.eqb_spec (action validated) ACTION_HOLD) as [E|_].
  { cbn [action]. intros H. contradiction. }
  intros _. split; [reflexivity|]. intros H. apply str_in_spec in H. congruence.
Qed.

(** X30: an action other than HOLD that the orchestrator decides on (the
    validator's answer passed through the chain-risk filter) is the
    policy's proposal, unchanged, with every validator check passed; when
    it is an entry (PROBE_BUY or ADD_BUY) the chain features gave no risk
    reason. *)
Theorem decide_action_sound (proposal decided : ActionProposal) (snapshot : Snapshot)
    (state : TokenState) (config : Config) (chain_features : option (gmap string PyVal)) :
  decide_action proposal snapshot state config chain_features = Some decided ->
  action decided <> ACTION_HOLD ->
  decided = proposal /\
  validate_action proposal snapshot state config = Some proposal /\
  status state <> STATE_COOLDOWN /\
  (liquidity_usd (pair snapshot) <? default 0 (min_liquidity_usd (risk_of config)))%float
    = false /\
  (action proposal = ACTION_SCALE_OUT_20 \/ action proposal = ACTION_EXIT_FULL ->
   (position_usd state <=? 0)%float = false) /\
  (action proposal ∈ [ACTION_PROBE_BUY; ACTION_ADD_BUY] -> no_chain_risk chain_features).
Proof.
  unfold decide_action. intros Hdec Hact.
  destruct (validate_action proposal snapshot state config) as [validated|] eqn:Hval;
    [|discriminate Hdec].
  cbn [mbind option_bind] in Hdec. injection Hdec as <-.
  destruct (apply_chain_risk_passed validated chain_features Hact) as [Hsame Hrisk].
  rewrite Hsame in Hact |- *.
  destruct (validate_action_passed proposal validated snapshot state config Hval Hact)
    as (-> & Hcool & Hliq & Hpos & _).
  auto 10.
Qed.

Lemma decide_action_sound_witness :
  no_chain_risk (Some {[ "chain_net_native" := VFloat 1.5 ]}).
Proof.
  refine (proj2 (proj2 (proj2 (proj2 (proj2 (decide_action_sound
    {| action := "PROBE_BUY"; reason_codes := ["BREAKOUT_CONFIRM"]; guards := ∅;
       expires_at := None |}
    {| action := "PROBE_BUY"; reason_codes := ["BREAKOUT_CONFIRM"]; guards := ∅;
       expires_at := None |}
    demo_snapshot initial_state demo_config
    (Some {[ "chain_net_native" := VFloat 1.5 ]}) _ _))))) _).
  - vm_compute. reflexivity.
  - discriminate.
  - apply list_elem_of_here.
Defined.
